(** * stock-research-tool: the fetch / valuation / analysis pipeline

    A shallow embedding of [stock_tool/config_manager.py],
    [stock_tool/database_manager.py], [stock_tool/data_fetcher.py],
    [stock_tool/intrinsic_value_calculator.py] and
    [stock_tool/stock_analyzer.py], and the properties of the pipeline
    proved (or refuted) on it.

    Conventions of the embedding.
    - Python numbers (int and float alike) are exact rationals [Q]; the one
      non-finite float the program creates, [float('-inf')], is the separate
      value [VNegInf].  Rounding and overflow are not modelled.
    - A Python [dict] with string keys that is only looked up is a
      [gmap string _]; a [dict] whose iteration order is observed is an
      association list in insertion order.
    - Exceptions are values of [exn]; a function that may raise returns a
      [result]; a method that also mutates its object returns the pair of
      its outcome and the object as the exception (or the return) leaves it. *)

From Stdlib Require Import QArith Qpower ZArith String List Lia Lqa Sorted.
From stdpp Require Import gmap strings list fin_maps.

Local Open Scope string_scope.
Local Open Scope Q_scope.

(** ** Python values, exceptions and operators *)

Module Py.

(** The values the pipeline stores in its dictionaries. An ISO-8601
    timestamp string (as [datetime.isoformat] writes it) is kept as the
    instant it denotes, in microseconds. *)
Inductive value : Type :=
| VNone
| VBool (b : bool)
| VNum (q : Q)
| VNegInf
| VStr (s : string)
| VTime (t : Z).

Inductive exn : Type :=
| TypeError
| KeyError
| IndexError
| ZeroDivisionError
| ValueError (msg : string)
| RequestException
| Unmodelled.   (* outside the rational model: arithmetic on [VNegInf], and
                   the storing of a value that a column converts or refuses *)

Inductive result (A : Type) : Type :=
| Ok (a : A)
| Raise (e : exn).
Arguments Ok {A} a.
Arguments Raise {A} e.

#[global] Instance result_ret : MRet result := fun A a => Ok a.
#[global] Instance result_bind : MBind result := fun A B f m =>
  match m with
  | Ok a => f a
  | Raise e => Raise e
  end.

Fixpoint map_result {A B : Type} (f : A -> result B) (l : list A) : result (list B) :=
  match l with
  | [] => Ok []
  | x :: l' => y ← f x; ys ← map_result f l'; Ok (y :: ys)
  end.

(** [bool(v)] *)
Definition truthy (v : value) : bool :=
  match v with
  | VNone => false
  | VBool b => b
  | VNum q => negb (Qeq_bool q 0)
  | VNegInf => true
  | VStr s => negb (String.eqb s "")
  | VTime _ => true
  end.

(** [v is not None] *)
Definition is_not_None (v : value) : bool :=
  match v with
  | VNone => false
  | _ => true
  end.

(** The operand of an arithmetic operator. [bool] is a subclass of [int]. *)
Definition as_num (v : value) : result Q :=
  match v with
  | VNum q => Ok q
  | VBool b => Ok (if b then 1 else 0)
  | VNegInf => Raise Unmodelled
  | VNone | VStr _ | VTime _ => Raise TypeError
  end.

(** The operand of an ordering comparison against a number. *)
Inductive ext : Type :=
| NInf
| Fin (q : Q).

Definition as_ext (v : value) : result ext :=
  match v with
  | VNum q => Ok (Fin q)
  | VBool b => Ok (Fin (if b then 1 else 0))
  | VNegInf => Ok NInf
  | VNone | VStr _ | VTime _ => Raise TypeError
  end.

Definition Qlt_bool (x y : Q) : bool := negb (Qle_bool y x).

Definition ext_leb (a b : ext) : bool :=
  match a, b with
  | NInf, _ => true
  | Fin _, NInf => false
  | Fin x, Fin y => Qle_bool x y
  end.

Definition ext_ltb (a b : ext) : bool :=
  match a, b with
  | _, NInf => false
  | NInf, Fin _ => true
  | Fin x, Fin y => Qlt_bool x y
  end.

(** [v <= w], [v > w] where one side is known to be a number *)
Definition py_le (v w : value) : result bool :=
  a ← as_ext v; b ← as_ext w; Ok (ext_leb a b).

Definition py_gt (v w : value) : result bool :=
  a ← as_ext v; b ← as_ext w; Ok (ext_ltb b a).

(** [a / b] on numbers *)
Definition py_div (a b : Q) : result Q :=
  if Qeq_bool b 0 then Raise ZeroDivisionError else Ok (a / b).

(** [sum(l)]: the accumulator starts at [0] and runs left to right. *)
Definition py_sum (l : list Q) : Q := fold_left Qplus l 0.

(** [len(l)] as a number *)
Definition py_len {A : Type} (l : list A) : Q := inject_Z (Z.of_nat (length l)).

(** [d[k]] and [d.get(k, default)] *)
Definition getitem (d : gmap string value) (k : string) : result value :=
  match d !! k with
  | Some v => Ok v
  | None => Raise KeyError
  end.

Definition dict_get (d : gmap string value) (k : string) (dflt : value) : value :=
  default dflt (d !! k).

End Py.
Import Py.

(** ** config_manager.py *)

Module ConfigManager.

Record random_seed_t : Type := {
  mode : string;
  seed_value : option Z;
  last_used : option Z
}.

(** The configuration object ([self.config]). *)
Record config_t : Type := {
  sectors : gmap string (gmap string value);
  random_seed : random_seed_t;
  last_updated : string
}.

(** A [ConfigManager]: the configuration in memory and the contents of the
    file at [config_path] ([None] until it is first written). *)
Record t : Type := {
  config : config_t;
  file : option config_t
}.

Definition sector_entry (g pe d : Q) : gmap string value :=
  {[ "growth_rate" := VNum g; "pe_ratio" := VNum pe; "discount_rate" := VNum d ]}.

Definition default_sectors : gmap string (gmap string value) :=
  {[ "Technology" := sector_entry 0.08 25 0.10;
     "Healthcare" := sector_entry 0.06 20 0.09;
     "Financials" := sector_entry 0.04 15 0.08;
     "Consumer Discretionary" := sector_entry 0.05 18 0.09;
     "Consumer Staples" := sector_entry 0.03 16 0.07;
     "Energy" := sector_entry 0.04 12 0.10;
     "Utilities" := sector_entry 0.02 14 0.06;
     "Industrials" := sector_entry 0.04 17 0.08;
     "Materials" := sector_entry 0.04 15 0.09;
     "Real Estate" := sector_entry 0.03 16 0.07;
     "Communication Services" := sector_entry 0.06 20 0.09 ]}.

Definition default_config (now : string) : config_t :=
  {| sectors := default_sectors;
     random_seed := {| mode := "generate"; seed_value := None; last_used := None |};
     last_updated := now |}.

(** [save_config(self.config)]: the file receives the configuration as it
    is, then the in-memory time stamp is refreshed. *)
Definition save_config (now : string) (cm : t) : t :=
  let c := config cm in
  {| config := {| sectors := sectors c; random_seed := random_seed c; last_updated := now |};
     file := Some c |}.

(** [__init__] when no file exists at [config_path]. *)
Definition init (now : string) : t :=
  save_config now {| config := default_config now; file := None |}.

(** [get_sector_params]: [self.config["sectors"].get(sector, {})]. The keys
    of the sector table are strings, so any other key finds nothing. *)
Definition get_sector_params (cm : t) (sector : value) : gmap string value :=
  match sector with
  | VStr s => default ∅ (sectors (config cm) !! s)
  | _ => ∅
  end.

Definition with_sectors (s : gmap string (gmap string value)) (cm : t) : t :=
  {| config := {| sectors := s;
                  random_seed := random_seed (config cm);
                  last_updated := last_updated (config cm) |};
     file := file cm |}.

(** [params[key] = v], where [params] is the dictionary stored under
    [sector] in the table: the write is seen through the table. *)
Definition set_param (sector key : string) (v : Q) (cm : t) : t :=
  with_sectors (alter (fun params => <[key := VNum v]> params) sector (sectors (config cm))) cm.

(** [if sector not in self.config["sectors"]: self.config["sectors"][sector] = {}] *)
Definition ensure_sector (sector : string) (cm : t) : t :=
  match sectors (config cm) !! sector with
  | Some _ => cm
  | None => with_sectors (<[sector := ∅]> (sectors (config cm))) cm
  end.

Definition in_unit_interval (x : Q) : bool := Qle_bool 0 x && Qle_bool x 1.

Definition set_sector_params (now : string) (sector : string)
    (growth_rate pe_ratio discount_rate : option Q) (cm : t) : result unit * t :=
  let cm0 := ensure_sector sector cm in
  let step1 : result unit * t :=
    match growth_rate with
    | None => (Ok tt, cm0)
    | Some g =>
        if negb (in_unit_interval g)
        then (Raise (ValueError "Growth rate must be between 0 and 1."), cm0)
        else (Ok tt, set_param sector "growth_rate" g cm0)
    end in
  let step2 : result unit * t :=
    match step1 with
    | (Raise e, cm1) => (Raise e, cm1)
    | (Ok _, cm1) =>
        match pe_ratio with
        | None => (Ok tt, cm1)
        | Some pe =>
            if Qle_bool pe 0
            then (Raise (ValueError "P/E ratio must be positive."), cm1)
            else (Ok tt, set_param sector "pe_ratio" pe cm1)
        end
    end in
  let step3 : result unit * t :=
    match step2 with
    | (Raise e, cm2) => (Raise e, cm2)
    | (Ok _, cm2) =>
        match discount_rate with
        | None => (Ok tt, cm2)
        | Some d =>
            if negb (in_unit_interval d)
            then (Raise (ValueError "Discount rate must be between 0 and 1."), cm2)
            else (Ok tt, set_param sector "discount_rate" d cm2)
        end
    end in
  match step3 with
  | (Raise e, cm3) => (Raise e, cm3)
  | (Ok _, cm3) => (Ok tt, save_config now cm3)
  end.

Definition with_random_seed (r : random_seed_t) (cm : t) : t :=
  {| config := {| sectors := sectors (config cm);
                  random_seed := r;
                  last_updated := last_updated (config cm) |};
     file := file cm |}.

Definition known_modes : list string := ["reuse"; "generate"; "specify"].

Definition set_random_seed_mode (now : string) (m : string) (v : option Z) (cm : t)
    : result unit * t :=
  if negb (bool_decide (m ∈ known_modes))
  then (Raise (ValueError "Invalid mode. Use 'reuse', 'generate', or 'specify'."), cm)
  else
    let r := random_seed (config cm) in
    let cm1 := with_random_seed {| mode := m; seed_value := seed_value r; last_used := last_used r |} cm in
    match String.eqb m "specify", v with
    | true, None => (Raise (ValueError "Value must be provided when mode is 'specify'."), cm1)
    | true, Some x =>
        let r1 := random_seed (config cm1) in
        (Ok tt, save_config now
                  (with_random_seed {| mode := mode r1; seed_value := Some x; last_used := last_used r1 |} cm1))
    | false, _ => (Ok tt, save_config now cm1)
    end.

(** [load_config]: the configuration read from the file, stamped with the
    time of loading; with no file, the default configuration, which is
    written. *)
Definition load_config (now : string) (on_disk : option config_t) : t :=
  match on_disk with
  | Some c =>
      {| config := {| sectors := sectors c; random_seed := random_seed c;
                      last_updated := now |};
         file := Some c |}
  | None => save_config now {| config := default_config now; file := None |}
  end.

(** [_generate_and_save_seed], where [draw] is what [random.randint(0, 1000000)]
    returns. *)
Definition _generate_and_save_seed (now : string) (draw : Z) (cm : t) : Z * t :=
  let r := random_seed (config cm) in
  (draw,
   save_config now
     (with_random_seed {| mode := mode r; seed_value := seed_value r; last_used := Some draw |}
        cm)).

(** [get_random_seed]. In [reuse] mode [last_used or ...] takes the stored
    seed unless it is [None] or [0]. *)
Definition get_random_seed (now : string) (draw : Z) (cm : t) : result Z * t :=
  let r := random_seed (config cm) in
  let generate := let '(seed, cm') := _generate_and_save_seed now draw cm in (Ok seed, cm') in
  if String.eqb (mode r) "reuse" then
    match last_used r with
    | Some seed => if (seed =? 0)%Z then generate else (Ok seed, cm)
    | None => generate
    end
  else if String.eqb (mode r) "specify" then
    match seed_value r with
    | None => (Raise (ValueError "Random seed value is not specified."), cm)
    | Some v => (Ok v, cm)
    end
  else generate.

End ConfigManager.

(** ** intrinsic_value_calculator.py *)

Module IntrinsicValueCalculator.

(** [enumerate(l, 1)] *)
Definition enumerate1 {A : Type} (l : list A) : list (nat * A) :=
  combine (seq 1 (length l)) l.

(** [x ** t] for a number [x] and an integer [t] *)
Definition py_pow (x : Q) (t : nat) : Q := x ^ Z.of_nat t.

Definition calculate_dcf (fcf growth_rate discount_rate : Q)
    (years : nat) (terminal_growth : Q) : result Q :=
  let future_cash_flows :=
    map (fun t => fcf * py_pow (1 + growth_rate) t) (seq 1 years) in
  last_cf ← match last future_cash_flows with
            | Some cf => Ok cf
            | None => Raise IndexError
            end;
  terminal_value ←
    py_div (last_cf * (1 + terminal_growth)) (discount_rate - terminal_growth);
  discounted_cf ←
    map_result (fun '(t, cf) => py_div cf (py_pow (1 + discount_rate) t))
               (enumerate1 future_cash_flows);
  discounted_tv ← py_div terminal_value (py_pow (1 + discount_rate) years);
  Ok (py_sum discounted_cf + discounted_tv).

(** The defaults of [calculate_dcf]'s keyword arguments. *)
Definition years_default : nat := 10.
Definition terminal_growth_default : Q := 0.02.

(** The block under [# DCF intrinsic value per share]. *)
Definition dcf_per_share (fcf shares growth_rate discount_rate : value) : result value :=
  cond ← (if truthy fcf then py_gt shares (VNum 0) else Ok false);
  if cond : bool then
    f ← as_num fcf;
    g ← as_num growth_rate;
    d ← as_num discount_rate;
    dcf_total ← calculate_dcf f g d years_default terminal_growth_default;
    s ← as_num shares;
    q ← py_div dcf_total s;
    Ok (VNum q)
  else Ok VNone.

(** The block under [# PEG-based intrinsic value per share]. *)
Definition peg_intrinsic (sector_defaults : gmap string value)
    (eps growth_rate sector_pe : value) : result value :=
  cond ← (if truthy eps
          then (b ← py_gt eps (VNum 0);
                if b : bool then py_gt growth_rate (VNum 0) else Ok false)
          else Ok false);
  if cond : bool then
    let sector_growth := dict_get sector_defaults "growth_rate" growth_rate in
    positive ← py_gt sector_growth (VNum 0);
    fair_pe ← (if positive : bool then
                 g ← as_num growth_rate;
                 sg ← as_num sector_growth;
                 ratio ← py_div g sg;
                 pe ← as_num sector_pe;
                 Ok (pe * ratio)
               else as_num sector_pe);
    e ← as_num eps;
    Ok (VNum (fair_pe * e))
  else Ok VNone.

(** The block under [# Combine available values into hybrid valuation]. *)
Definition combine_values (candidates : list value) : result value :=
  let values := List.filter is_not_None candidates in
  if bool_decide (values = [])
  then Ok VNone
  else nums ← map_result as_num values;
       Ok (VNum (py_sum nums / py_len values)).

(** The inputs [get_intrinsic_value] reads from the record and from the
    sector defaults, with their fall-backs (the assignments that open the
    method). *)
Record inputs : Type := {
  sector_defaults : gmap string value;
  price : value;
  shares : value;
  fcf : value;
  eps : value;
  growth_rate : value;
  discount_rate : value;
  sector_pe : value;
  fmp_dcf : value
}.

Definition resolve (cm : ConfigManager.t) (stock_data : gmap string value) : result inputs :=
  sector ← getitem stock_data "sector";
  let sector_defaults := ConfigManager.get_sector_params cm sector in
  price ← getitem stock_data "price";
  shares ← getitem stock_data "shares";
  Ok {| sector_defaults := sector_defaults;
        price := price;
        shares := shares;
        fcf := dict_get stock_data "fcf" VNone;
        eps := dict_get stock_data "eps" VNone;
        growth_rate :=
          dict_get stock_data "growth_rate"
                   (dict_get sector_defaults "growth_rate" (VNum 0.05));
        discount_rate := dict_get sector_defaults "discount_rate" (VNum 0.10);
        sector_pe := dict_get sector_defaults "pe_ratio" (VNum 15.0);
        fmp_dcf := dict_get stock_data "fmp_dcf" VNone |}.

Definition get_intrinsic_value (cm : ConfigManager.t) (stock_data : gmap string value)
    : result value :=
  i ← resolve cm stock_data;
  dcf ← dcf_per_share (fcf i) (shares i) (growth_rate i) (discount_rate i);
  peg ← peg_intrinsic (sector_defaults i) (eps i) (growth_rate i) (sector_pe i);
  combine_values [dcf; peg; fmp_dcf i].

End IntrinsicValueCalculator.

(** ** database_manager.py *)

Module DatabaseManager.

(** One row of the table [stock_data]; the primary key [ticker] is the key
    of the table below. A column holds [VNone] for SQL [NULL]. *)
Record row : Type := {
  price : value;
  shares : value;
  fcf : value;
  sector : value;
  eps : value;
  intrinsic_value : value;
  score : value;
  timestamp : value
}.

(** [dict(zip(columns, row))] *)
Definition row_dict (ticker : string) (r : row) : gmap string value :=
  {[ "ticker" := VStr ticker; "price" := price r; "shares" := shares r;
     "fcf" := fcf r; "sector" := sector r; "eps" := eps r;
     "intrinsic_value" := intrinsic_value r; "score" := score r;
     "timestamp" := timestamp r ]}.

(** A number that a [REAL] column holds as it is, whether Python has it as
    a [float] or as an [int]: a number that is not whole (a [float]), and a
    whole number up to 2^53 in magnitude. Beyond that an [int] is rounded to
    the nearest double, or refused with an [OverflowError] when it does not
    fit in 64 bits, while a [float] is kept; the rational model does not tell
    the two apart. *)
Definition kept_by_real_column (q : Q) : bool :=
  negb (Qnum q mod Zpos (Qden q) =? 0)%Z
  || (Z.abs (Qnum q / Zpos (Qden q)) <=? 2 ^ 53)%Z.

(** What a column declared [REAL] holds once a value is bound to it: [NULL]
    for [None], a [bool] as the number [0] or [1], a number and an infinity
    as they are, an ISO time stamp as the text it is. A string is turned
    into a number when SQLite reads it as a numeric literal and kept as text
    otherwise: which of the two is not modelled. *)
Definition real_column (v : value) : result value :=
  match v with
  | VNone => Ok VNone
  | VBool b => Ok (VNum (if b then 1 else 0))
  | VNum q => if kept_by_real_column q then Ok (VNum q) else Raise Unmodelled
  | VNegInf => Ok VNegInf
  | VStr _ => Raise Unmodelled
  | VTime t => Ok (VTime t)
  end.

(** What a column declared [TEXT] holds: [NULL] for [None], text as it is, a
    [bool] as the text ["0"] or ["1"]. A number is turned into its decimal
    text, which is not modelled. *)
Definition text_column (v : value) : result value :=
  match v with
  | VNone => Ok VNone
  | VBool b => Ok (VStr (if b then "1" else "0"))
  | VStr s => Ok (VStr s)
  | VTime t => Ok (VTime t)
  | VNum _ | VNegInf => Raise Unmodelled
  end.

(** [INSERT OR REPLACE]: the columns not listed become [NULL]; each value is
    stored as its column holds it, and nothing is written when one of them
    is refused. *)
Definition save_stock_data (now : Z) (ticker : string) (data : gmap string value)
    (db : gmap string row) : result (gmap string row) :=
  price ← real_column (dict_get data "price" VNone);
  shares ← real_column (dict_get data "shares" VNone);
  fcf ← real_column (dict_get data "fcf" VNone);
  sector ← text_column (dict_get data "sector" VNone);
  eps ← real_column (dict_get data "eps" VNone);
  Ok (<[ticker := {| price := price;
                     shares := shares;
                     fcf := fcf;
                     sector := sector;
                     eps := eps;
                     intrinsic_value := VNone;
                     score := VNone;
                     timestamp := VTime now |}]> db).

Definition get_cached_data (ticker : string) (db : gmap string row)
    : option (gmap string value) :=
  row_dict ticker <$> db !! ticker.

Definition update_intrinsic_value (v : value) (now : Z) (r : row) : row :=
  {| price := price r; shares := shares r; fcf := fcf r; sector := sector r; eps := eps r;
     intrinsic_value := v; score := score r; timestamp := VTime now |}.

Definition update_score (v : value) (now : Z) (r : row) : row :=
  {| price := price r; shares := shares r; fcf := fcf r; sector := sector r; eps := eps r;
     intrinsic_value := intrinsic_value r; score := v; timestamp := VTime now |}.

(** [UPDATE stock_data SET intrinsic_value = ?, timestamp = ? WHERE ticker = ?]:
    without a row for the ticker nothing is written. *)
Definition save_intrinsic_value (now : Z) (ticker : string) (v : value)
    (db : gmap string row) : gmap string row :=
  alter (update_intrinsic_value v now) ticker db.

(** [UPDATE stock_data SET score = ?, timestamp = ? WHERE ticker = ?] *)
Definition save_score (now : Z) (ticker : string) (v : value)
    (db : gmap string row) : gmap string row :=
  alter (update_score v now) ticker db.

(** [timestamp < ?]. The column holds the ISO strings of UTC instants, which
    compare as the instants do, or [NULL], which compares to nothing. *)
Definition outdated (cutoff : Z) (r : row) : bool :=
  match timestamp r with
  | VTime ts => (ts <? cutoff)%Z
  | _ => false
  end.

(** [clear_outdated_data], where [max_age] is [timedelta(days=days)] in
    microseconds: [DELETE FROM stock_data WHERE timestamp < now - max_age]. *)
Definition clear_outdated_data (now max_age : Z) (db : gmap string row) : gmap string row :=
  filter (fun kr => outdated (now - max_age) (snd kr) = false) db.

End DatabaseManager.

(** ** data_fetcher.py *)

Module DataFetcher.

(** *** The remote data source *)

Inductive endpoint : Type := Quote | Profile | CashFlowStatement | IncomeStatement.

(** A decoded JSON body. Arrays of objects, single objects and scalars are
    covered, with scalar fields; deeper nesting is not modelled. *)
Inductive scalar : Type :=
| SNull
| SBool (b : bool)
| SNum (q : Q)
| SStr (s : string).

Inductive item : Type :=
| IObject (o : gmap string scalar)
| IScalar (s : scalar).

Inductive json : Type :=
| JArray (l : list item)
| JObject (o : gmap string scalar)
| JScalar (s : scalar).

(** What [requests.get(url)] followed by [raise_for_status()] and [json()]
    can meet: no connection, an error status, a body that is not JSON, or
    a decoded body. The first three raise a [RequestException]. *)
Inductive response : Type :=
| ConnectionFailed
| ErrorStatus
| NotJson
| Body (j : json).

Definition to_value (s : scalar) : value :=
  match s with
  | SNull => VNone
  | SBool b => VBool b
  | SNum q => VNum q
  | SStr s => VStr s
  end.

Definition scalar_truthy (s : scalar) : bool := truthy (to_value s).

Definition json_truthy (j : json) : bool :=
  match j with
  | JArray l => negb (bool_decide (l = []))
  | JObject o => negb (bool_decide (o = ∅))
  | JScalar s => scalar_truthy s
  end.

(** [j[0]] *)
Definition json_first (j : json) : result item :=
  match j with
  | JArray (x :: _) => Ok x
  | JArray [] => Raise IndexError
  | JObject _ => Raise KeyError
  | JScalar (SStr (String c _)) => Ok (IScalar (SStr (String c EmptyString)))
  | JScalar (SStr EmptyString) => Raise IndexError
  | JScalar _ => Raise TypeError
  end.

(** [key in x] *)
Definition item_contains (key : string) (x : item) : result bool :=
  match x with
  | IObject o => Ok (bool_decide (is_Some (o !! key)))
  | IScalar (SStr s) => Ok (bool_decide (is_Some (String.index 0 key s)))
  | IScalar _ => Raise TypeError
  end.

(** [x[key]] *)
Definition item_getitem (key : string) (x : item) : result value :=
  match x with
  | IObject o =>
      match o !! key with
      | Some v => Ok (to_value v)
      | None => Raise KeyError
      end
  | IScalar _ => Raise TypeError
  end.

(** [j[0][key] if j and key in j[0] else None] *)
Definition extract (key : string) (j : json) : result value :=
  if json_truthy j then
    x ← json_first j;
    present ← item_contains key x;
    if present : bool
    then x' ← json_first j; item_getitem key x'
    else Ok VNone
  else Ok VNone.

(** *** The fetcher and the world it acts on *)

Inductive log_entry : Type :=
| LogError (ticker : string) (e : exn)
| LogMissing (ticker : string) (missing_fields : list string).

(** The database behind [self.db_manager], the wall clock (in
    microseconds; one batch is taken to run at one instant), the requests
    sent so far and the log, both oldest first. *)
Record world : Type := {
  db : gmap string DatabaseManager.row;
  clock : Z;
  requests : list (endpoint * string);
  log : list log_entry
}.

Record t : Type := {
  remote : endpoint -> string -> response;
  cache_duration : Z
}.

Definition io (A : Type) : Type := world -> result A * world.

#[global] Instance io_ret : MRet io := fun A a w => (Ok a, w).
#[global] Instance io_bind : MBind io := fun A B f m w =>
  match m w with
  | (Ok a, w') => f a w'
  | (Raise e, w') => (Raise e, w')
  end.

Definition lift {A : Type} (r : result A) : io A := fun w => (r, w).

Definition get_clock : io Z := fun w => (Ok (clock w), w).

Definition logger_info (entry : log_entry) : io unit := fun w =>
  (Ok tt, {| db := db w; clock := clock w; requests := requests w;
             log := log w ++ [entry] |}).

(** [requests.get(url)]; [raise_for_status()]; [json()] *)
Definition http_get_json (self : t) (e : endpoint) (ticker : string) : io json := fun w =>
  let w' := {| db := db w; clock := clock w;
               requests := requests w ++ [(e, ticker)]; log := log w |} in
  match remote self e ticker with
  | Body j => (Ok j, w')
  | ConnectionFailed | ErrorStatus | NotJson => (Raise RequestException, w')
  end.

Definition db_get_cached_data (ticker : string) : io (option (gmap string value)) :=
  fun w => (Ok (DatabaseManager.get_cached_data ticker (db w)), w).

Definition db_save_stock_data (ticker : string) (data : gmap string value) : io unit :=
  fun w =>
    match DatabaseManager.save_stock_data (clock w) ticker data (db w) with
    | Ok db' => (Ok tt, {| db := db'; clock := clock w; requests := requests w;
                           log := log w |})
    | Raise e => (Raise e, w)
    end.

(** [except (requests.exceptions.RequestException, IndexError, KeyError)] *)
Definition caught (e : exn) : bool :=
  match e with
  | RequestException | IndexError | KeyError => true
  | _ => false
  end.

Definition try_except {A : Type} (body : io A) (handler : exn -> io A) : io A := fun w =>
  match body w with
  | (Ok a, w') => (Ok a, w')
  | (Raise e, w') => if caught e then handler e w' else (Raise e, w')
  end.

(** An insertion-ordered [dict]: [d[k] = v] keeps the place of a key that
    is already there and appends a new one. *)
Fixpoint od_set {V : Type} (k : string) (v : V) (d : list (string * V)) : list (string * V) :=
  match d with
  | [] => [(k, v)]
  | (k', v') :: d' =>
      if String.eqb k k' then (k, v) :: d' else (k', v') :: od_set k v d'
  end.

Fixpoint od_get {V : Type} (k : string) (d : list (string * V)) : option V :=
  match d with
  | [] => None
  | (k', v') :: d' => if String.eqb k k' then Some v' else od_get k d'
  end.

(** [is_cache_valid]: [fromisoformat] raises on anything but an ISO string. *)
Definition is_cache_valid (self : t) (timestamp_str : value) : io bool :=
  timestamp ← lift (match timestamp_str with
                    | VTime ts => Ok ts
                    | VStr _ => Raise (ValueError "Invalid isoformat string")
                    | _ => Raise TypeError
                    end);
  now ← get_clock;
  mret (now - timestamp <? cache_duration self)%Z.

(** The body of the [try] in [fetch_from_api]. *)
Definition fetch_ticker (self : t) (ticker : string) : io (gmap string value) :=
  price_data ← http_get_json self Quote ticker;
  price ← lift (extract "price" price_data);
  profile_data ← http_get_json self Profile ticker;
  shares ← lift (extract "sharesOutstanding" profile_data);
  sector ← lift (extract "sector" profile_data);
  cashflow_data ← http_get_json self CashFlowStatement ticker;
  fcf ← lift (extract "freeCashFlow" cashflow_data);
  income_data ← http_get_json self IncomeStatement ticker;
  eps ← lift (extract "eps" income_data);
  mret ({[ "price" := price; "shares" := shares; "fcf" := fcf;
           "sector" := sector; "eps" := eps ]} : gmap string value).

Fixpoint fetch_from_api_loop (self : t) (tickers : list string)
    (result : list (string * gmap string value)) : io (list (string * gmap string value)) :=
  match tickers with
  | [] => mret result
  | ticker :: rest =>
      r ← try_except (data ← fetch_ticker self ticker; mret (Some data))
                     (fun e => _ ← logger_info (LogError ticker e); mret None);
      fetch_from_api_loop self rest
        (match r with
         | Some data => od_set ticker data result
         | None => result
         end)
  end.

Definition fetch_from_api (self : t) (tickers : list string)
    : io (list (string * gmap string value)) :=
  fetch_from_api_loop self tickers [].

(** [field in data and data[field] is not None] for every required field *)
Definition validate_data (data : gmap string value) (required_fields : list string) : bool :=
  forallb (fun field => match data !! field with
                        | Some v => is_not_None v
                        | None => false
                        end) required_fields.

Definition default_required_fields : list string := ["price"; "shares"; "fcf"].

(** The condition of the [if] in the loop over [tickers], and the entry
    built under it: the cached fields when the record is there, complete
    and fresh, [None] when the ticker is to be fetched. *)
Definition cache_lookup (self : t) (required_fields : list string) (ticker : string)
    : io (option (gmap string value)) :=
  cached ← db_get_cached_data ticker;
  match cached with
  | None => mret None
  | Some cached_data =>
      if bool_decide (cached_data = ∅) then mret None
      else if forallb (fun field => is_not_None (dict_get cached_data field VNone))
                      required_fields
      then
        timestamp_str ← lift (getitem cached_data "timestamp");
        valid ← is_cache_valid self timestamp_str;
        if valid : bool then
          price ← lift (getitem cached_data "price");
          shares ← lift (getitem cached_data "shares");
          fcf ← lift (getitem cached_data "fcf");
          sector ← lift (getitem cached_data "sector");
          eps ← lift (getitem cached_data "eps");
          mret (Some ({[ "price" := price; "shares" := shares; "fcf" := fcf;
                         "sector" := sector; "eps" := eps ]} : gmap string value))
        else mret None
      else mret None
  end.

(** The loop over [tickers] under [if use_cache:]. *)
Fixpoint cache_loop (self : t) (required_fields : list string) (tickers : list string)
    (result : list (string * gmap string value)) (to_fetch : list string)
    : io (list (string * gmap string value) * list string) :=
  match tickers with
  | [] => mret (result, to_fetch)
  | ticker :: rest =>
      entry ← cache_lookup self required_fields ticker;
      match entry with
      | Some fields =>
          cache_loop self required_fields rest (od_set ticker fields result) to_fetch
      | None => cache_loop self required_fields rest result (to_fetch ++ [ticker])
      end
  end.

(** The loop over [api_data.items()]. *)
Fixpoint store_loop (required_fields : list string)
    (api_data : list (string * gmap string value))
    (result : list (string * gmap string value)) : io (list (string * gmap string value)) :=
  match api_data with
  | [] => mret result
  | (ticker, data) :: rest =>
      if validate_data data required_fields then
        _ ← db_save_stock_data ticker data;
        store_loop required_fields rest (od_set ticker data result)
      else
        _ ← logger_info
              (LogMissing ticker
                 (List.filter (fun field => match data !! field with
                                            | Some v => negb (is_not_None v)
                                            | None => true
                                            end) required_fields));
        store_loop required_fields rest result
  end.

Definition fetch_data (self : t) (tickers : list string) (required_fields : list string)
    (use_cache : bool) : io (list (string * gmap string value)) :=
  '(result, to_fetch) ← (if use_cache
                         then cache_loop self required_fields tickers [] []
                         else mret ([], tickers));
  if bool_decide (to_fetch = [])
  then mret result
  else api_data ← fetch_from_api self to_fetch;
       store_loop required_fields api_data result.

End DataFetcher.

(** ** stock_analyzer.py *)

Module StockAnalyzer.

Definition AMEX_TICKERS : list string := ["ZDGE"; "SGE"; "WTT"; "LGL"].

Record t : Type := {
  data_fetcher : DataFetcher.t;
  config_manager : ConfigManager.t   (* of [self.intrinsic_value_calculator] *)
}.

(** [analyze_stocks] returns a ranked list, or the ranked lists by sector. *)
Inductive analysis : Type :=
| Ranked (stocks : list (gmap string value))
| Grouped (by_sector : list (string * list (gmap string value))).

(** [stock['ticker'] not in self.AMEX_TICKERS] *)
Definition not_in_amex (ticker : value) : bool :=
  match ticker with
  | VStr s => negb (bool_decide (s ∈ AMEX_TICKERS))
  | _ => true
  end.

Definition passes_filters (stock filter_params : gmap string value) : result bool :=
  iv ← getitem stock "intrinsic_value";
  unvalued ← (if negb (is_not_None iv) then Ok true else py_le iv (VNum 0));
  if unvalued : bool then Ok false else
  negative_pe ←
    (if truthy (dict_get filter_params "exclude_negative_pe" (VBool false)) then
       ticker ← getitem stock "ticker";
       if not_in_amex ticker
       then pe ← getitem stock "pe_ratio"; py_le pe (VNum 0)
       else Ok false
     else Ok false);
  if negative_pe : bool then Ok false else
  above_max ←
    match filter_params !! "max_pe" with
    | Some max_pe => pe ← getitem stock "pe_ratio"; py_gt pe max_pe
    | None => Ok false
    end;
  if above_max : bool then Ok false else Ok true.

(** The body of the loop under [# Prepare stock list ...]. *)
Definition with_pe_ratio (ticker : string) (data : gmap string value)
    : result (gmap string value) :=
  let data := <["ticker" := VStr ticker]> data in
  positive ← py_gt (dict_get data "eps" (VNum 0)) (VNum 0);
  if positive : bool then
    price ← getitem data "price";
    eps ← getitem data "eps";
    p ← as_num price;
    e ← as_num eps;
    pe ← py_div p e;
    Ok (<["pe_ratio" := VNum pe]> data)
  else Ok (<["pe_ratio" := VNegInf]> data).

(** The body of the loop under [# Calculate intrinsic values]. *)
Definition with_intrinsic_value (cm : ConfigManager.t) (stock : gmap string value)
    : result (gmap string value) :=
  intrinsic_value ← IntrinsicValueCalculator.get_intrinsic_value cm stock;
  Ok (<["intrinsic_value" := intrinsic_value]> stock).

Fixpoint filter_result {A : Type} (p : A -> result bool) (l : list A) : result (list A) :=
  match l with
  | [] => Ok []
  | x :: l' =>
      keep ← p x;
      rest ← filter_result p l';
      Ok (if keep : bool then x :: rest else rest)
  end.

(** The body of the loop under [# Calculate scores]. *)
Definition with_score (stock : gmap string value) : result (gmap string value) :=
  price ← getitem stock "price";
  positive ← py_gt price (VNum 0);
  if positive : bool then
    iv ← getitem stock "intrinsic_value";
    i ← as_num iv;
    p ← as_num price;
    s ← py_div i p;
    Ok (<["score" := VNum s]> stock)
  else Ok (<["score" := VNum 0]> stock).

(** The dictionary display under [# Prepare output with selected metrics]. *)
Definition output_of (stock : gmap string value) : result (gmap string value) :=
  ticker ← getitem stock "ticker";
  score ← getitem stock "score";
  intrinsic_value ← getitem stock "intrinsic_value";
  price ← getitem stock "price";
  sector ← getitem stock "sector";
  Ok ({[ "ticker" := ticker; "score" := score; "intrinsic_value" := intrinsic_value;
         "price" := price; "sector" := sector ]} : gmap string value).

(** [sorted(stocks, key=lambda x: x['score'], reverse=True)]: the keys are
    computed first; the sort is stable, also in reverse. The scores the
    pipeline writes are numbers. *)
Fixpoint insert_desc {A : Type} (k : Q) (x : A) (l : list (Q * A)) : list (Q * A) :=
  match l with
  | [] => [(k, x)]
  | (k', y) :: l' =>
      if Qlt_bool k k' then (k', y) :: insert_desc k x l' else (k, x) :: (k', y) :: l'
  end.

Definition sort_desc {A : Type} (l : list (Q * A)) : list (Q * A) :=
  fold_right (fun '(k, x) acc => insert_desc k x acc) [] l.

Definition sorted_by_score (stocks : list (gmap string value))
    : result (list (gmap string value)) :=
  keyed ← map_result (fun x => v ← getitem x "score"; k ← as_num v; Ok (k, x)) stocks;
  Ok (map snd (sort_desc keyed)).

(** [grouped[sector].append(stock)] when [sector in grouped] *)
Fixpoint od_append {V : Type} (k : string) (v : V) (d : list (string * list V))
    : list (string * list V) :=
  match d with
  | [] => []
  | (k', vs) :: d' =>
      if String.eqb k k' then (k', (vs ++ [v])%list) :: d' else (k', vs) :: od_append k v d'
  end.

(** [{sector: [] for sector in sector_prefs}] *)
Definition empty_groups (sector_prefs : list string)
    : list (string * list (gmap string value)) :=
  fold_left (fun g sector => DataFetcher.od_set sector [] g) sector_prefs [].

(** One round of the loop over [output_stocks]. *)
Definition add_to_group (acc : result (list (string * list (gmap string value))))
    (stock : gmap string value) : result (list (string * list (gmap string value))) :=
  grouped ← acc;
  sector ← getitem stock "sector";
  Ok (match sector with
      | VStr s => od_append s stock grouped
      | _ => grouped
      end).

Definition group_by_sector (sector_prefs : list string)
    (output_stocks : list (gmap string value))
    : result (list (string * list (gmap string value))) :=
  grouped ← fold_left add_to_group output_stocks (Ok (empty_groups sector_prefs));
  map_result (fun '(sector, stocks) => ranked ← sorted_by_score stocks; Ok (sector, ranked))
             grouped.

(** [analyze_stocks] after the fetch. *)
Definition analyze (cm : ConfigManager.t) (stock_data : list (string * gmap string value))
    (filter_params : gmap string value) (sector_prefs : option (list string))
    : result analysis :=
  stock_list ← map_result (fun '(ticker, data) => with_pe_ratio ticker data) stock_data;
  stock_list ← map_result (with_intrinsic_value cm) stock_list;
  filtered_stocks ← filter_result (fun stock => passes_filters stock filter_params) stock_list;
  filtered_stocks ← map_result with_score filtered_stocks;
  output_stocks ← map_result output_of filtered_stocks;
  match sector_prefs with
  | Some (s :: prefs) => grouped ← group_by_sector (s :: prefs) output_stocks; Ok (Grouped grouped)
  | _ => ranked ← sorted_by_score output_stocks; Ok (Ranked ranked)
  end.

Definition analyze_stocks (self : t) (tickers : list string)
    (filter_params : gmap string value) (sector_prefs : option (list string))
    : DataFetcher.io analysis :=
  stock_data ← DataFetcher.fetch_data (data_fetcher self) tickers
                 DataFetcher.default_required_fields true;
  DataFetcher.lift (analyze (config_manager self) stock_data filter_params sector_prefs).

End StockAnalyzer.

(** ** The fixtures of the repository's tests *)

Module Fixtures.

(** [tests/test_intrinsic_value_calculator.py], [tests/test_stock_analyzer.py] *)
Definition config_manager : ConfigManager.t :=
  {| ConfigManager.config :=
       {| ConfigManager.sectors :=
            {[ "Technology" := ConfigManager.sector_entry 0.08 25 0.10;
               "Healthcare" := ConfigManager.sector_entry 0.06 20 0.09 ]};
          ConfigManager.random_seed :=
            {| ConfigManager.mode := "generate";
               ConfigManager.seed_value := None;
               ConfigManager.last_used := None |};
          ConfigManager.last_updated := "2023-01-01T00:00:00-08:00" |};
     ConfigManager.file := None |}.

Definition record (price shares fcf eps : value) : gmap string value :=
  {[ "price" := price; "shares" := shares; "fcf" := fcf;
     "sector" := VStr "Technology"; "eps" := eps ]}.

Definition AAPL : gmap string value :=
  record (VNum 150) (VNum 1000000000) (VNum 10000000000) (VNum 5).
Definition MSFT : gmap string value :=
  record (VNum 200) (VNum 750000000) VNone (VNum 6).
Definition TSLA : gmap string value :=
  record (VNum 250) (VNum 3000000000) (VNum 5000000000) (VNum (-1)).
Definition ZDGE : gmap string value :=
  record (VNum 10) (VNum 10000000) (VNum 100000000) (VNum (-0.5)).

Definition stock_data : list (string * gmap string value) :=
  [("AAPL", AAPL); ("MSFT", MSFT); ("TSLA", TSLA); ("ZDGE", ZDGE)].

(** [test_missing_fcf] *)
Definition MSFT_with_estimates : gmap string value :=
  <["growth_rate" := VNum 0.12]> (<["fmp_dcf" := VNum 180]> MSFT).

(** [test_complete_data] *)
Definition AAPL_with_estimates : gmap string value :=
  <["growth_rate" := VNum 0.10]> (<["fmp_dcf" := VNum 160]> AAPL).

(** A sector whose discount rate has been set, through the validated
    update, below the terminal growth rate. *)
Definition low_discount_config : ConfigManager.t :=
  snd (ConfigManager.set_sector_params "2023-01-02T00:00:00-08:00" "Utilities"
         None None (Some 0.01) (ConfigManager.init "2023-01-01T00:00:00-08:00")).

Definition utility : gmap string value :=
  {[ "price" := VNum 10; "shares" := VNum 100; "fcf" := VNum 1000;
     "sector" := VStr "Utilities" ]}.

(** A record of a sector the configuration does not list. *)
Definition unlisted : gmap string value :=
  {[ "price" := VNum 40; "shares" := VNum 100; "fcf" := VNone;
     "sector" := VStr "Conglomerates"; "eps" := VNum 2; "growth_rate" := VNum 0.30 ]}.

(** A data source that knows everything about a ticker but its EPS (the
    income statement comes back without the key, as the cash-flow
    statement does in [test_incomplete_data]). *)
Definition remote_without_eps (e : DataFetcher.endpoint) (ticker : string)
    : DataFetcher.response :=
  match e with
  | DataFetcher.Quote =>
      DataFetcher.Body (DataFetcher.JArray
        [DataFetcher.IObject {[ "symbol" := DataFetcher.SStr ticker;
                                "price" := DataFetcher.SNum 10 ]}])
  | DataFetcher.Profile =>
      DataFetcher.Body (DataFetcher.JArray
        [DataFetcher.IObject {[ "symbol" := DataFetcher.SStr ticker;
                                "sharesOutstanding" := DataFetcher.SNum 100;
                                "sector" := DataFetcher.SStr "Technology" ]}])
  | DataFetcher.CashFlowStatement =>
      DataFetcher.Body (DataFetcher.JArray
        [DataFetcher.IObject {[ "symbol" := DataFetcher.SStr ticker;
                                "freeCashFlow" := DataFetcher.SNum 50 ]}])
  | DataFetcher.IncomeStatement =>
      DataFetcher.Body (DataFetcher.JArray
        [DataFetcher.IObject {[ "symbol" := DataFetcher.SStr ticker ]}])
  end.

Definition one_day : Z := 86400000000.

Definition empty_world : DataFetcher.world :=
  {| DataFetcher.db := ∅; DataFetcher.clock := 0;
     DataFetcher.requests := []; DataFetcher.log := [] |}.

Definition record_without_eps : gmap string value :=
  {[ "price" := VNum 10; "shares" := VNum 100; "fcf" := VNum 50;
     "sector" := VStr "Technology"; "eps" := VNone ]}.

Definition analyzer_without_eps : StockAnalyzer.t :=
  {| StockAnalyzer.data_fetcher :=
       {| DataFetcher.remote := remote_without_eps;
          DataFetcher.cache_duration := one_day |};
     StockAnalyzer.config_manager := config_manager |}.

(** A cache that holds AAPL, refreshed half a day ago, and a data source
    that is down. *)
Definition cached_AAPL : DatabaseManager.row :=
  {| DatabaseManager.price := VNum 150;
     DatabaseManager.shares := VNum 1000000;
     DatabaseManager.fcf := VNum 1000000;
     DatabaseManager.sector := VStr "Technology";
     DatabaseManager.eps := VNum 5;
     DatabaseManager.intrinsic_value := VNone;
     DatabaseManager.score := VNone;
     DatabaseManager.timestamp := VTime 0 |}.

Definition offline_fetcher : DataFetcher.t :=
  {| DataFetcher.remote := fun _ _ => DataFetcher.ConnectionFailed;
     DataFetcher.cache_duration := one_day |}.

Definition world_at (now : Z) : DataFetcher.world :=
  {| DataFetcher.db := {[ "AAPL" := cached_AAPL ]};
     DataFetcher.clock := now;
     DataFetcher.requests := [];
     DataFetcher.log := [] |}.

(** A data source that answers every lookup in full, except that the quote
    of the ticker BAD comes back as the JSON body [[null]]; and one whose
    quote of BAD is an error object instead. *)
Definition complete_remote (e : DataFetcher.endpoint) (ticker : string)
    : DataFetcher.response :=
  match e with
  | DataFetcher.IncomeStatement =>
      DataFetcher.Body (DataFetcher.JArray
        [DataFetcher.IObject {[ "symbol" := DataFetcher.SStr ticker;
                                "eps" := DataFetcher.SNum 5 ]}])
  | _ => remote_without_eps e ticker
  end.

Definition remote_with_null_quote (e : DataFetcher.endpoint) (ticker : string)
    : DataFetcher.response :=
  match e with
  | DataFetcher.Quote =>
      if String.eqb ticker "BAD"
      then DataFetcher.Body (DataFetcher.JArray [DataFetcher.IScalar DataFetcher.SNull])
      else complete_remote e ticker
  | _ => complete_remote e ticker
  end.

Definition remote_with_error_object (e : DataFetcher.endpoint) (ticker : string)
    : DataFetcher.response :=
  match e with
  | DataFetcher.Quote =>
      if String.eqb ticker "BAD"
      then DataFetcher.Body (DataFetcher.JObject
             {[ "Error Message" := DataFetcher.SStr "Limit Reach" ]})
      else complete_remote e ticker
  | _ => complete_remote e ticker
  end.

Definition fetcher_of (remote : DataFetcher.endpoint -> string -> DataFetcher.response)
    : DataFetcher.t :=
  {| DataFetcher.remote := remote; DataFetcher.cache_duration := one_day |}.

Definition complete_record : gmap string value :=
  {[ "price" := VNum 10; "shares" := VNum 100; "fcf" := VNum 50;
     "sector" := VStr "Technology"; "eps" := VNum 5 ]}.

Definition basic_filters : gmap string value :=
  {[ "max_pe" := VNum 30; "exclude_negative_pe" := VBool true ]}.

(** [test_no_calculable_values] *)
Definition XYZ_unvaluable : gmap string value :=
  {[ "ticker" := VStr "XYZ"; "price" := VNum 100; "shares" := VNum 0; "fcf" := VNone;
     "sector" := VStr "Technology"; "eps" := VNum (-1) ]}.

(** [test_incomplete_data]: the cash-flow statement has no [freeCashFlow]. *)
Definition remote_without_fcf (e : DataFetcher.endpoint) (ticker : string)
    : DataFetcher.response :=
  match e with
  | DataFetcher.CashFlowStatement =>
      DataFetcher.Body (DataFetcher.JArray
        [DataFetcher.IObject {[ "symbol" := DataFetcher.SStr ticker ]}])
  | _ => complete_remote e ticker
  end.

(** [test_api_error]: the quote answers 404. *)
Definition remote_not_found (e : DataFetcher.endpoint) (ticker : string)
    : DataFetcher.response :=
  match e with
  | DataFetcher.Quote => DataFetcher.ErrorStatus
  | _ => complete_remote e ticker
  end.

(** The tickers of an analysis result, in order. *)
Definition tickers_of (stocks : list (gmap string value)) : list (option value) :=
  map (fun stock => stock !! "ticker") stocks.

End Fixtures.

(** ** Specification predicates *)

(** An update of sector parameters that supplies an invalid value. *)
Definition invalid_update (growth_rate pe_ratio discount_rate : option Q) : Prop :=
  (exists x, growth_rate = Some x /\ ~ (0 <= x /\ x <= 1))
  \/ (exists x, pe_ratio = Some x /\ x <= 0)
  \/ (exists x, discount_rate = Some x /\ ~ (0 <= x /\ x <= 1)).

(** What a failed update of [sector] may have touched: nothing but the entry
    of [sector]; the file, the seed settings and the other sectors are as
    before. *)
Definition same_but_sector (sector : string) (cm cm' : ConfigManager.t) : Prop :=
  ConfigManager.file cm' = ConfigManager.file cm
  /\ ConfigManager.random_seed (ConfigManager.config cm')
     = ConfigManager.random_seed (ConfigManager.config cm)
  /\ ConfigManager.last_updated (ConfigManager.config cm')
     = ConfigManager.last_updated (ConfigManager.config cm)
  /\ (forall s, s <> sector ->
        ConfigManager.sectors (ConfigManager.config cm') !! s
        = ConfigManager.sectors (ConfigManager.config cm) !! s).

(** Whether an update is turned down on account of its growth rate, or of
    its P/E ratio. *)
Definition growth_rate_invalid (growth_rate : option Q) : bool :=
  match growth_rate with
  | Some x => negb (Qle_bool 0 x && Qle_bool x 1)
  | None => false
  end.

Definition pe_ratio_invalid (pe_ratio : option Q) : bool :=
  match pe_ratio with
  | Some x => Qle_bool x 0
  | None => false
  end.

(** The parameters are checked in the order growth rate, P/E ratio,
    discount rate; the message of a failed update names the first invalid
    one. *)
Definition rejection_message (growth_rate pe_ratio : option Q) : string :=
  if growth_rate_invalid growth_rate then "Growth rate must be between 0 and 1."
  else if pe_ratio_invalid pe_ratio then "P/E ratio must be positive."
  else "Discount rate must be between 0 and 1.".

(** The value a failed update has stored under the key [k] by the time it
    raises: that of a parameter supplied ahead of the first invalid one. *)
Definition written_before_failure (growth_rate pe_ratio : option Q) (k : string)
    : option Q :=
  if growth_rate_invalid growth_rate then None
  else if String.eqb k "growth_rate" then growth_rate
  else if pe_ratio_invalid pe_ratio then None
  else if String.eqb k "pe_ratio" then pe_ratio
  else None.

(** The entry of [sector] after a failed update: it is there, it holds the
    values supplied ahead of the invalid one and, under every other key,
    what it held before. *)
Definition entry_after_failure (sector : string) (growth_rate pe_ratio : option Q)
    (cm cm' : ConfigManager.t) : Prop :=
  is_Some (ConfigManager.sectors (ConfigManager.config cm') !! sector)
  /\ forall k,
       ConfigManager.get_sector_params cm' (VStr sector) !! k
       = match written_before_failure growth_rate pe_ratio k with
         | Some x => Some (VNum x)
         | None => ConfigManager.get_sector_params cm (VStr sector) !! k
         end.

(** The sub-estimates as the specification speaks of them: each is a number
    or is undefined, and the blend is the arithmetic mean of the defined ones. *)
Definition of_option (o : option Q) : value :=
  match o with
  | Some q => VNum q
  | None => VNone
  end.

Definition arithmetic_mean (xs : list Q) : option Q :=
  match xs with
  | [] => None
  | _ :: _ => Some (fold_right Qplus 0 xs / inject_Z (Z.of_nat (length xs)))
  end.

Definition mean_of_defined (sub_estimates : list (option Q)) : option Q :=
  arithmetic_mean (omap id sub_estimates).

(** The score of a record of price [price] and intrinsic value [iv], as the
    specification gives it: [iv / price] when the price is positive, [0]
    otherwise. *)
Definition score_as_specified (price : value) (iv score : Q) : Prop :=
  exists positive : bool,
    py_gt price (VNum 0) = Ok positive
    /\ if positive then exists p, as_num price = Ok p /\ score = iv / p
       else score = 0.

(** The rows of an analysis, of all sectors when it is grouped. *)
Definition rows_of (a : StockAnalyzer.analysis) : list (gmap string value) :=
  match a with
  | StockAnalyzer.Ranked stocks => stocks
  | StockAnalyzer.Grouped by_sector => concat (map snd by_sector)
  end.

(** A cached record that [fetch_data] may serve: every required field is
    there and the record is younger than the cache duration. *)
Definition complete_and_fresh (self : DataFetcher.t) (w : DataFetcher.world)
    (required_fields : list string) (ticker : string) (r : DatabaseManager.row) : Prop :=
  DataFetcher.db w !! ticker = Some r
  /\ Forall (fun field =>
               dict_get (DatabaseManager.row_dict ticker r) field VNone <> VNone)
            required_fields
  /\ exists ts, DatabaseManager.timestamp r = VTime ts
               /\ (DataFetcher.clock w - ts < DataFetcher.cache_duration self)%Z.

(** The entry [fetch_data] builds from a cached record. *)
Definition cached_fields (r : DatabaseManager.row) : gmap string value :=
  {[ "price" := DatabaseManager.price r; "shares" := DatabaseManager.shares r;
     "fcf" := DatabaseManager.fcf r; "sector" := DatabaseManager.sector r;
     "eps" := DatabaseManager.eps r ]}.

(** A computation that sends requests for the tickers in [P] only. *)
Definition sends_only {A : Type} (P : string -> Prop) (m : DataFetcher.io A) : Prop :=
  forall w r w',
    m w = (r, w') ->
    exists new, DataFetcher.requests w' = (DataFetcher.requests w ++ new)%list
                /\ Forall (fun rq : DataFetcher.endpoint * string => P (snd rq)) new.

(** A computation that leaves the world as it is. *)
Definition reads_only {A : Type} (m : DataFetcher.io A) : Prop :=
  forall w r w', m w = (r, w') -> w' = w.

(** A computation whose first request is [rq]. *)
Definition first_sends {A : Type} (rq : DataFetcher.endpoint * string)
    (m : DataFetcher.io A) : Prop :=
  forall w r w',
    m w = (r, w') ->
    exists rest, DataFetcher.requests w' = (DataFetcher.requests w ++ rq :: rest)%list.

(** A computation whose outcome does not depend on the world it runs in
    (the world records what it did). *)
Definition oblivious {A : Type} (m : DataFetcher.io A) : Prop :=
  forall w1 w2, fst (m w1) = fst (m w2).

(** The batch [tickers] without the ticker [s]. *)
Definition without (s : string) (tickers : list string) : list string :=
  List.filter (fun t => negb (String.eqb t s)) tickers.

(** The value an update of sector parameters supplies for the key [k]. *)
Definition supplied (growth_rate pe_ratio discount_rate : option Q) (k : string) : option Q :=
  if String.eqb k "growth_rate" then growth_rate
  else if String.eqb k "pe_ratio" then pe_ratio
  else if String.eqb k "discount_rate" then discount_rate
  else None.

(** The file holds the sectors and the seed settings that are in memory. *)
Definition saved (cm : ConfigManager.t) : Prop :=
  exists c,
    ConfigManager.file cm = Some c
    /\ ConfigManager.sectors c = ConfigManager.sectors (ConfigManager.config cm)
    /\ ConfigManager.random_seed c = ConfigManager.random_seed (ConfigManager.config cm).

(** The value of one unit of free cash flow: the projected years, each
    grown [t] years and discounted [t] years, and the terminal value, grown
    once more at the terminal rate, capitalised and discounted over the
    horizon. *)
Definition dcf_factor (growth_rate discount_rate terminal_growth : Q) (years : nat) : Q :=
  fold_right Qplus 0
    (map (fun t => (1 + growth_rate) ^ Z.of_nat t / (1 + discount_rate) ^ Z.of_nat t)
         (seq 1 years))
  + (1 + growth_rate) ^ Z.of_nat years * (1 + terminal_growth)
    / (discount_rate - terminal_growth) / (1 + discount_rate) ^ Z.of_nat years.

(** The score of a row as a number, when it has one. *)
Definition score_key (row : gmap string value) : option Q :=
  match row !! "score" with
  | Some v => match as_num v with
              | Ok q => Some q
              | Raise _ => None
              end
  | None => None
  end.

(** [a] is ranked no lower than [b]. *)
Definition outranks (a b : gmap string value) : Prop :=
  exists x y, score_key a = Some x /\ score_key b = Some y /\ y <= x.

(** The row has the score [q]. *)
Definition has_score (q : Q) (row : gmap string value) : bool :=
  match score_key row with
  | Some x => Qeq_bool x q
  | None => false
  end.

(** Every row of the table carries the time of its last write. *)
Definition stamped (db : gmap string DatabaseManager.row) : Prop :=
  forall t r, db !! t = Some r -> exists ts, DatabaseManager.timestamp r = VTime ts.

(** The world [w] with the table [db]. *)
Definition with_db (db : gmap string DatabaseManager.row) (w : DataFetcher.world)
    : DataFetcher.world :=
  {| DataFetcher.db := db; DataFetcher.clock := DataFetcher.clock w;
     DataFetcher.requests := DataFetcher.requests w; DataFetcher.log := DataFetcher.log w |}.

(** A computation that touches nothing but the list of requests, returns a
    value in [P], and raises only what the [except] clause of
    [fetch_from_api] lists, or a [TypeError]. *)
Definition lookups_only {A : Type} (P : A -> Prop) (m : DataFetcher.io A) : Prop :=
  forall w r w',
    m w = (r, w') ->
    DataFetcher.db w' = DataFetcher.db w
    /\ DataFetcher.clock w' = DataFetcher.clock w
    /\ DataFetcher.log w' = DataFetcher.log w
    /\ match r with
       | Ok a => P a
       | Raise e => DataFetcher.caught e = true \/ e = TypeError
       end.

(** The entry has the five fields of a record, and no other. *)
Definition five_fields (d : gmap string value) : Prop :=
  exists price shares fcf sector eps,
    d = {[ "price" := price; "shares" := shares; "fcf" := fcf;
           "sector" := sector; "eps" := eps ]}.

(** The row holds the fields of the entry as its columns store them. *)
Definition stored_as (d : gmap string value) (r : DatabaseManager.row) : Prop :=
  DatabaseManager.real_column (dict_get d "price" VNone) = Ok (DatabaseManager.price r)
  /\ DatabaseManager.real_column (dict_get d "shares" VNone) = Ok (DatabaseManager.shares r)
  /\ DatabaseManager.real_column (dict_get d "fcf" VNone) = Ok (DatabaseManager.fcf r)
  /\ DatabaseManager.text_column (dict_get d "sector" VNone) = Ok (DatabaseManager.sector r)
  /\ DatabaseManager.real_column (dict_get d "eps" VNone) = Ok (DatabaseManager.eps r).

(** The entry [d] is what the row holds: read from it, or written to it. *)
Definition held_by (d : gmap string value) (r : DatabaseManager.row) : Prop :=
  cached_fields r = d \/ (five_fields d /\ stored_as d r).

(** Every entry of [result] is held by a row of the table of [w] that is
    complete and fresh. *)
Definition served (self : DataFetcher.t) (w : DataFetcher.world)
    (required_fields : list string) (result : list (string * gmap string value)) : Prop :=
  forall t d,
    DataFetcher.od_get t result = Some d ->
    exists r, complete_and_fresh self w required_fields t r /\ held_by d r.


(** One step through a sequence of calls that is known to return: the call
    at the head returned as well. *)
Ltac step_bind H :=
  match type of H with
  | mbind ?k ?c = Ok ?r =>
      let E := fresh "E" in
      destruct c eqn:E;
      [ lazymatch type of H with
        | mbind _ (Ok ?a) = _ => change (k a = Ok r) in H; cbv beta in H
        end
      | lazymatch type of H with
        | mbind _ (Raise ?e) = _ => change (@Raise _ e = Ok r) in H; discriminate H
        end ]
  end.

(** * Properties *)

(** ** Numbers and operators *)

Lemma Qlt_bool_iff (x y : Q) : Qlt_bool x y = true <-> x < y.
Proof.
  unfold Qlt_bool. rewrite negb_true_iff. split.
  - intros H. apply Qnot_le_lt. intros Hle. apply Qle_bool_iff in Hle. congruence.
  - intros H. destruct (Qle_bool y x) eqn:E; [|reflexivity].
    apply Qle_bool_iff in E. exfalso. exact (Qlt_not_le _ _ H E).
Qed.

Lemma Qlt_bool_false_iff (x y : Q) : Qlt_bool x y = false <-> y <= x.
Proof.
  unfold Qlt_bool. rewrite negb_false_iff. apply Qle_bool_iff.
Qed.

Lemma Qle_bool_false_iff (x y : Q) : Qle_bool x y = false <-> y < x.
Proof.
  rewrite <- Qlt_bool_iff. unfold Qlt_bool. rewrite negb_true_iff. reflexivity.
Qed.

Lemma Qeq_bool_false_iff (x y : Q) : Qeq_bool x y = false <-> ~ x == y.
Proof.
  split.
  - apply Qeq_bool_neq.
  - intros H. destruct (Qeq_bool x y) eqn:E; [|reflexivity].
    apply Qeq_bool_iff in E. contradiction.
Qed.

Lemma in_unit_interval_iff (x : Q) :
  ConfigManager.in_unit_interval x = true <-> 0 <= x /\ x <= 1.
Proof.
  unfold ConfigManager.in_unit_interval. rewrite andb_true_iff, !Qle_bool_iff. reflexivity.
Qed.

Lemma py_div_ok (a b : Q) : ~ b == 0 -> py_div a b = Ok (a / b).
Proof.
  intros H. unfold py_div. apply Qeq_bool_false_iff in H. rewrite H. reflexivity.
Qed.

Lemma py_div_zero (a b : Q) : b == 0 -> py_div a b = Raise ZeroDivisionError.
Proof.
  intros H. unfold py_div. apply Qeq_bool_iff in H. rewrite H. reflexivity.
Qed.

Lemma py_div_inv (a b q : Q) : py_div a b = Ok q -> q = a / b /\ ~ b == 0.
Proof.
  unfold py_div. destruct (Qeq_bool b 0) eqn:E; [discriminate|].
  intros [= <-]. split; [reflexivity | apply Qeq_bool_neq, E].
Qed.

Lemma py_gt_num (x y : Q) : py_gt (VNum x) (VNum y) = Ok (Qlt_bool y x).
Proof. reflexivity. Qed.

Lemma py_le_num (x y : Q) : py_le (VNum x) (VNum y) = Ok (Qle_bool x y).
Proof. reflexivity. Qed.

(** ** The sector parameter store *)

Section ConfigManagerFacts.
Import ConfigManager.

Lemma get_sector_params_lookup (cm : t) (s : string) :
  get_sector_params cm (VStr s) = default ∅ (sectors (config cm) !! s).
Proof. reflexivity. Qed.

Lemma set_param_frame (sector key : string) (v : Q) (cm : t) :
  file (set_param sector key v cm) = file cm
  /\ random_seed (config (set_param sector key v cm)) = random_seed (config cm)
  /\ last_updated (config (set_param sector key v cm)) = last_updated (config cm)
  /\ (forall s, s <> sector ->
        sectors (config (set_param sector key v cm)) !! s = sectors (config cm) !! s).
Proof.
  repeat split; try reflexivity.
  intros s Hs. simpl. apply lookup_alter_ne. congruence.
Qed.

Lemma set_param_lookup (sector key : string) (v : Q) (cm : t) (k : string) :
  get_sector_params (set_param sector key v cm) (VStr sector) !! k =
  match sectors (config cm) !! sector with
  | Some _ => if decide (key = k) then Some (VNum v) else get_sector_params cm (VStr sector) !! k
  | None => None
  end.
Proof.
  unfold get_sector_params, set_param. simpl.
  rewrite lookup_alter_eq.
  destruct (sectors (config cm) !! sector) as [params|]; simpl.
  - apply lookup_insert.
  - apply lookup_empty.
Qed.

End ConfigManagerFacts.

Section SetSectorParams.
Import ConfigManager.

Lemma same_but_sector_refl sector cm : same_but_sector sector cm cm.
Proof. repeat split. Qed.

Lemma same_but_sector_trans sector cm1 cm2 cm3 :
  same_but_sector sector cm1 cm2 -> same_but_sector sector cm2 cm3 ->
  same_but_sector sector cm1 cm3.
Proof.
  intros (F1 & R1 & L1 & S1) (F2 & R2 & L2 & S2).
  repeat split; try congruence.
  intros s Hs. rewrite S2, S1; auto.
Qed.

Lemma ensure_sector_frame sector cm : same_but_sector sector cm (ensure_sector sector cm).
Proof.
  unfold ensure_sector. destruct (sectors (config cm) !! sector) eqn:E.
  - apply same_but_sector_refl.
  - repeat split. intros s Hs. simpl. apply lookup_insert_ne. congruence.
Qed.

Lemma ensure_sector_present sector cm :
  is_Some (sectors (config (ensure_sector sector cm)) !! sector).
Proof.
  unfold ensure_sector. destruct (sectors (config cm) !! sector) eqn:E.
  - rewrite E. eauto.
  - simpl. rewrite lookup_insert_eq. eauto.
Qed.

Lemma ensure_sector_params sector cm :
  get_sector_params (ensure_sector sector cm) (VStr sector) = get_sector_params cm (VStr sector).
Proof.
  unfold ensure_sector, get_sector_params.
  destruct (sectors (config cm) !! sector) eqn:E.
  - rewrite E. reflexivity.
  - simpl. rewrite lookup_insert_eq. reflexivity.
Qed.

Lemma set_param_frame' sector key v cm : same_but_sector sector cm (set_param sector key v cm).
Proof. apply set_param_frame. Qed.

Lemma set_param_present sector key v cm :
  is_Some (sectors (config cm) !! sector) ->
  is_Some (sectors (config (set_param sector key v cm)) !! sector).
Proof.
  intros [p Hp]. simpl. rewrite lookup_alter_eq, Hp. simpl. eauto.
Qed.

End SetSectorParams.

Section SetSectorParamsRejects.
Import ConfigManager.

(** One assignment [params[key] = x], read back. *)
Lemma set_param_entry (sector key : string) (x : Q) (cm1 : t) (k : string) :
  is_Some (sectors (config cm1) !! sector) ->
  get_sector_params (set_param sector key x cm1) (VStr sector) !! k
  = if String.eqb k key then Some (VNum x) else get_sector_params cm1 (VStr sector) !! k.
Proof.
  intros [p Hp]. rewrite set_param_lookup, Hp.
  destruct (String.eqb k key) eqn:E.
  - apply String.eqb_eq in E as ->. rewrite decide_True by reflexivity. reflexivity.
  - apply String.eqb_neq in E. rewrite decide_False by congruence. reflexivity.
Qed.

Lemma invalid_update_cases (g pe d : option Q) :
  invalid_update g pe d ->
  growth_rate_invalid g = false -> pe_ratio_invalid pe = false ->
  exists z, d = Some z /\ in_unit_interval z = false.
Proof.
  intros [(x & -> & Hx) | [(x & -> & Hx) | (z & -> & Hz)]] Hg Hpe.
  - exfalso. apply Hx. apply in_unit_interval_iff. apply negb_false_iff in Hg. exact Hg.
  - exfalso. simpl in Hpe. apply Qle_bool_false_iff in Hpe. exact (Qlt_not_le _ _ Hpe Hx).
  - exists z. split; [reflexivity|].
    destruct (in_unit_interval z) eqn:Ez; [|reflexivity].
    exfalso. apply Hz. apply in_unit_interval_iff. exact Ez.
Qed.

End SetSectorParamsRejects.

(** C3 (as amended). An update of sector parameters that supplies an invalid
    value raises the [ValueError] of the first invalid parameter; the file on
    disk, the seed settings and every other sector are as before; the sector
    has an entry (made for it when it had none), in which the parameters
    supplied ahead of the invalid one hold their new values and every other
    key holds what it held before. An update of the seed mode with an unknown
    mode raises a [ValueError] and leaves the configuration unchanged. *)
Theorem invalid_config_update_rejected :
  (forall now sector g pe d cm,
      invalid_update g pe d ->
      exists cm',
        ConfigManager.set_sector_params now sector g pe d cm
        = (Raise (ValueError (rejection_message g pe)), cm')
        /\ same_but_sector sector cm cm'
        /\ entry_after_failure sector g pe cm cm')
  /\ (forall now m v cm,
        m ∉ ConfigManager.known_modes ->
        exists msg,
          ConfigManager.set_random_seed_mode now m v cm = (Raise (ValueError msg), cm)).
Proof.
  split.
  - intros now sector g pe d cm Hinv.
    pose proof (ensure_sector_frame sector cm) as F0.
    pose proof (ensure_sector_present sector cm) as P0.
    pose proof (ensure_sector_params sector cm) as L0.
    pose proof (invalid_update_cases g pe d Hinv) as Hd.
    unfold ConfigManager.set_sector_params, rejection_message, entry_after_failure,
      written_before_failure.
    set (cm0 := ConfigManager.ensure_sector sector cm) in *.
    destruct g as [x|]; simpl growth_rate_invalid in *.
    + change (Qle_bool 0 x && Qle_bool x 1)%bool with (ConfigManager.in_unit_interval x) in *.
      destruct (ConfigManager.in_unit_interval x) eqn:Ex; simpl negb in *; cbv iota.
      2:{ exists cm0. split; [reflexivity|].
          split; [exact F0|]. split; [exact P0|]. intros k. rewrite L0. reflexivity. }
      pose proof (set_param_frame' sector "growth_rate" x cm0) as F1.
      pose proof (set_param_present sector "growth_rate" x cm0 P0) as P1.
      pose proof (fun k => set_param_entry sector "growth_rate" x cm0 k P0) as L1.
      set (cm1 := ConfigManager.set_param sector "growth_rate" x cm0) in *.
      destruct pe as [y|]; simpl pe_ratio_invalid in *.
      * destruct (Qle_bool y 0) eqn:Ey; cbv iota.
        { exists cm1. split; [reflexivity|].
          split; [exact (same_but_sector_trans _ _ _ _ F0 F1)|]. split; [exact P1|].
          intros k. rewrite L1, L0. destruct (String.eqb k "growth_rate"); reflexivity. }
        destruct (Hd eq_refl eq_refl) as (z & -> & Ez). rewrite Ez. simpl negb. cbv iota.
        pose proof (set_param_frame' sector "pe_ratio" y cm1) as F2.
        pose proof (set_param_present sector "pe_ratio" y cm1 P1) as P2.
        exists (ConfigManager.set_param sector "pe_ratio" y cm1). split; [reflexivity|].
        split; [exact (same_but_sector_trans _ _ _ _ F0
                         (same_but_sector_trans _ _ _ _ F1 F2))|].
        split; [exact P2|].
        intros k. rewrite (set_param_entry sector "pe_ratio" y cm1 k P1), L1, L0.
        destruct (String.eqb k "growth_rate") eqn:E1, (String.eqb k "pe_ratio") eqn:E2;
          try reflexivity.
        apply String.eqb_eq in E1, E2. congruence.
      * destruct (Hd eq_refl eq_refl) as (z & -> & Ez). rewrite Ez. simpl negb. cbv iota.
        exists cm1. split; [reflexivity|].
        split; [exact (same_but_sector_trans _ _ _ _ F0 F1)|]. split; [exact P1|].
        intros k. rewrite L1, L0.
        destruct (String.eqb k "growth_rate"), (String.eqb k "pe_ratio"); reflexivity.
    + cbv iota. destruct pe as [y|]; simpl pe_ratio_invalid in *.
      * destruct (Qle_bool y 0) eqn:Ey; cbv iota.
        { exists cm0. split; [reflexivity|].
          split; [exact F0|]. split; [exact P0|].
          intros k. rewrite L0. destruct (String.eqb k "growth_rate"); reflexivity. }
        destruct (Hd eq_refl eq_refl) as (z & -> & Ez). rewrite Ez. simpl negb. cbv iota.
        pose proof (set_param_frame' sector "pe_ratio" y cm0) as F2.
        pose proof (set_param_present sector "pe_ratio" y cm0 P0) as P2.
        exists (ConfigManager.set_param sector "pe_ratio" y cm0). split; [reflexivity|].
        split; [exact (same_but_sector_trans _ _ _ _ F0 F2)|]. split; [exact P2|].
        intros k. rewrite (set_param_entry sector "pe_ratio" y cm0 k P0), L0.
        destruct (String.eqb k "growth_rate") eqn:E1, (String.eqb k "pe_ratio") eqn:E2;
          try reflexivity.
        apply String.eqb_eq in E1, E2. congruence.
      * destruct (Hd eq_refl eq_refl) as (z & -> & Ez). rewrite Ez. simpl negb. cbv iota.
        exists cm0. split; [reflexivity|].
        split; [exact F0|]. split; [exact P0|].
        intros k. rewrite L0.
        destruct (String.eqb k "growth_rate"), (String.eqb k "pe_ratio"); reflexivity.
  - intros now m v cm Hm. unfold ConfigManager.set_random_seed_mode.
    rewrite bool_decide_eq_false_2 by exact Hm. simpl. eauto.
Qed.

(** A valid growth rate ahead of an invalid P/E ratio: the growth rate is
    stored, the discount rate is as before. *)
Lemma invalid_config_update_rejected_witness :
  invalid_update (Some 0.09) (Some (-1)) None
  /\ (exists cm',
        ConfigManager.set_sector_params "t1" "Technology" (Some 0.09) (Some (-1)) None
          (ConfigManager.init "t0")
        = (Raise (ValueError "P/E ratio must be positive."), cm')
        /\ same_but_sector "Technology" (ConfigManager.init "t0") cm'
        /\ ConfigManager.get_sector_params cm' (VStr "Technology") !! "growth_rate"
           = Some (VNum 0.09)
        /\ ConfigManager.get_sector_params cm' (VStr "Technology") !! "discount_rate"
           = ConfigManager.get_sector_params (ConfigManager.init "t0") (VStr "Technology")
               !! "discount_rate")
  /\ ("shuffle" ∉ ConfigManager.known_modes)
  /\ (exists msg,
        ConfigManager.set_random_seed_mode "t1" "shuffle" None (ConfigManager.init "t0")
        = (Raise (ValueError msg), ConfigManager.init "t0")).
Proof.
  assert (Hinv : invalid_update (Some 0.09) (Some (-1)) None).
  { right. left. exists (-1). split; [reflexivity|]. unfold Qle. simpl. lia. }
  assert (Hmode : "shuffle" ∉ ConfigManager.known_modes).
  { apply (bool_decide_unpack _). vm_compute. exact I. }
  split; [exact Hinv|]. split.
  - destruct (proj1 invalid_config_update_rejected "t1" "Technology" _ _ None
                (ConfigManager.init "t0") Hinv) as (cm' & Hrun & Hframe & _ & Hentry).
    exists cm'. split; [exact Hrun|]. split; [exact Hframe|].
    split; [exact (Hentry "growth_rate") | exact (Hentry "discount_rate")].
  - split; [exact Hmode|].
    exact (proj2 invalid_config_update_rejected "t1" "shuffle" None
             (ConfigManager.init "t0") Hmode).
Defined.

(** C3 as stated fails: a call that supplies a valid growth rate and an
    invalid P/E ratio raises after the growth rate has been stored, and a call
    for a sector that is not in the table raises after the sector has been
    given an (empty) entry. *)
Lemma failed_update_changes_store :
  (exists cm',
      ConfigManager.set_sector_params "t1" "Technology" (Some 0.09) (Some (-1)) None
        (ConfigManager.init "t0")
      = (Raise (ValueError "P/E ratio must be positive."), cm')
      /\ ConfigManager.get_sector_params (ConfigManager.init "t0") (VStr "Technology")
           !! "growth_rate" = Some (VNum 0.08)
      /\ ConfigManager.get_sector_params cm' (VStr "Technology")
           !! "growth_rate" = Some (VNum 0.09)
      /\ cm' <> ConfigManager.init "t0")
  /\ (exists cm',
        ConfigManager.set_sector_params "t1" "Crypto" (Some 2) None None
          (ConfigManager.init "t0")
        = (Raise (ValueError "Growth rate must be between 0 and 1."), cm')
        /\ ConfigManager.sectors (ConfigManager.config (ConfigManager.init "t0")) !! "Crypto"
           = None
        /\ ConfigManager.sectors (ConfigManager.config cm') !! "Crypto" = Some ∅
        /\ cm' <> ConfigManager.init "t0").
Proof.
  split.
  - eexists. split; [vm_compute; reflexivity|].
    split; [vm_compute; reflexivity|].
    split; [vm_compute; reflexivity|].
    intros H.
    apply (f_equal (fun c => ConfigManager.get_sector_params c (VStr "Technology")
                               !! "growth_rate")) in H.
    vm_compute in H. discriminate H.
  - eexists. split; [vm_compute; reflexivity|].
    split; [vm_compute; reflexivity|].
    split; [vm_compute; reflexivity|].
    intros H.
    apply (f_equal (fun c => ConfigManager.sectors (ConfigManager.config c) !! "Crypto")) in H.
    vm_compute in H. discriminate H.
Qed.

(** ** Sequences of calls *)

Lemma map_result_ok {A B : Type} (f : A -> result B) (g : A -> B) (l : list A) :
  Forall (fun x => f x = Ok (g x)) l -> map_result f l = Ok (map g l).
Proof.
  induction 1 as [|x l Hx _ IH]; simpl.
  - reflexivity.
  - rewrite Hx. simpl. rewrite IH. reflexivity.
Qed.

Lemma bind_Ok {A B : Type} (a : A) (k : A -> result B) : mbind k (Ok a) = k a.
Proof. reflexivity. Qed.

Lemma bind_Raise {A B : Type} (e : exn) (k : A -> result B) : mbind k (Raise e) = Raise e.
Proof. reflexivity. Qed.

(** ** The valuation engine *)

Section Valuation.
Import IntrinsicValueCalculator.

Lemma py_pow_nonzero (x : Q) (t : nat) : ~ x == 0 -> ~ py_pow x t == 0.
Proof. intros H. unfold py_pow. apply Qpower_not_0. exact H. Qed.

Lemma last_map_seq {A : Type} (f : nat -> A) (n : nat) :
  last (map f (seq 1 (S n))) = Some (f (S n)).
Proof.
  rewrite seq_S, map_app. simpl. rewrite last_snoc. reflexivity.
Qed.

(** [calculate_dcf] returns for every discount rate other than the terminal
    growth rate and [-1]: neither division is by zero. *)
Lemma calculate_dcf_returns (f g d tg : Q) (years : nat) :
  (0 < years)%nat -> ~ d == tg -> ~ d == -1 ->
  exists total, calculate_dcf f g d years tg = Ok total.
Proof.
  intros Hy Hd H1. destruct years as [|n]; [lia|].
  assert (Hbase : ~ 1 + d == 0).
  { intros E. apply H1. lra. }
  assert (Hden : ~ d - tg == 0).
  { intros E. apply Hd. lra. }
  unfold calculate_dcf. rewrite last_map_seq, bind_Ok.
  rewrite (py_div_ok _ _ Hden), bind_Ok.
  rewrite (map_result_ok _ (fun '(t, cf) => cf / py_pow (1 + d) t)).
  2:{ apply Forall_forall. intros [t cf] _. apply py_div_ok, py_pow_nonzero, Hbase. }
  rewrite bind_Ok, py_div_ok by (apply py_pow_nonzero, Hbase).
  rewrite bind_Ok. eauto.
Qed.

Lemma calculate_dcf_at_terminal_growth (f g d tg : Q) (years : nat) :
  (0 < years)%nat -> d == tg -> calculate_dcf f g d years tg = Raise ZeroDivisionError.
Proof.
  intros Hy Hd. destruct years as [|n]; [lia|].
  unfold calculate_dcf. rewrite last_map_seq, bind_Ok.
  rewrite py_div_zero; [reflexivity|]. lra.
Qed.

Lemma truthy_num (q : Q) : ~ q == 0 -> truthy (VNum q) = true.
Proof. intros H. simpl. apply Qeq_bool_false_iff in H. rewrite H. reflexivity. Qed.

Lemma dcf_per_share_computed (f s g d : Q) :
  ~ f == 0 -> 0 < s -> ~ d == terminal_growth_default -> ~ d == -1 ->
  exists total,
    calculate_dcf f g d years_default terminal_growth_default = Ok total
    /\ dcf_per_share (VNum f) (VNum s) (VNum g) (VNum d) = Ok (VNum (total / s)).
Proof.
  intros Hf Hs Hd H1.
  destruct (calculate_dcf_returns f g d terminal_growth_default years_default)
    as [total Ht]; [unfold years_default; lia | exact Hd | exact H1 |].
  exists total. split; [exact Ht|].
  unfold dcf_per_share. rewrite (truthy_num _ Hf), py_gt_num.
  apply Qlt_bool_iff in Hs as Hs'. rewrite Hs'. simpl mbind. cbv beta iota.
  simpl as_num. simpl mbind. rewrite Ht. simpl mbind.
  rewrite py_div_ok; [reflexivity|].
  lra.
Qed.

(** Each of the two computed sub-estimates is a number or [None]. *)
Lemma dcf_per_share_shape (fcf shares g d v : value) :
  dcf_per_share fcf shares g d = Ok v -> exists o, v = of_option o.
Proof.
  unfold dcf_per_share. intros H.
  step_bind H. destruct a.
  - repeat step_bind H. inversion H. eexists (Some _). reflexivity.
  - inversion H. exists None. reflexivity.
Qed.

Lemma peg_intrinsic_shape (defaults : gmap string value) (eps g pe v : value) :
  peg_intrinsic defaults eps g pe = Ok v -> exists o, v = of_option o.
Proof.
  unfold peg_intrinsic. intros H.
  step_bind H. destruct a.
  - step_bind H. step_bind H. step_bind H. inversion H. eexists (Some _). reflexivity.
  - inversion H. exists None. reflexivity.
Qed.

Lemma resolve_inv (cm : ConfigManager.t) (sd : gmap string value) (i : inputs) :
  resolve cm sd = Ok i ->
  exists sector price shares,
    sd !! "sector" = Some sector /\ sd !! "price" = Some price /\ sd !! "shares" = Some shares
    /\ i = {| sector_defaults := ConfigManager.get_sector_params cm sector;
              IntrinsicValueCalculator.price := price;
              IntrinsicValueCalculator.shares := shares;
              fcf := dict_get sd "fcf" VNone;
              eps := dict_get sd "eps" VNone;
              growth_rate :=
                dict_get sd "growth_rate"
                  (dict_get (ConfigManager.get_sector_params cm sector) "growth_rate" (VNum 0.05));
              discount_rate :=
                dict_get (ConfigManager.get_sector_params cm sector) "discount_rate" (VNum 0.10);
              sector_pe :=
                dict_get (ConfigManager.get_sector_params cm sector) "pe_ratio" (VNum 15.0);
              fmp_dcf := dict_get sd "fmp_dcf" VNone |}.
Proof.
  unfold resolve, getitem. intros H.
  destruct (sd !! "sector") as [sector|]; [|discriminate H].
  destruct (sd !! "price") as [price|]; [|discriminate H].
  destruct (sd !! "shares") as [shares|]; [|discriminate H].
  exists sector, price, shares. inversion H. auto.
Qed.

(** C1 (as amended). For a record with truthy free cash flow and positive
    shares outstanding, the DCF sub-estimate is computed and is one of the
    values blended whenever the discount rate differs from the terminal
    growth rate 0.02 (and from -1): above 0.02 and below it alike. *)
Theorem dcf_included_whatever_the_discount_rate
    (cm : ConfigManager.t) (sd : gmap string value) (i : inputs) (f s g d : Q) :
  resolve cm sd = Ok i ->
  fcf i = VNum f -> ~ f == 0 ->
  shares i = VNum s -> 0 < s ->
  growth_rate i = VNum g ->
  discount_rate i = VNum d ->
  ~ d == 0.02 -> ~ d == -1 ->
  exists total,
    calculate_dcf f g d 10 0.02 = Ok total
    /\ dcf_per_share (fcf i) (shares i) (growth_rate i) (discount_rate i)
       = Ok (VNum (total / s))
    /\ get_intrinsic_value cm sd
       = (peg ← peg_intrinsic (sector_defaults i) (eps i) (growth_rate i) (sector_pe i);
          combine_values [VNum (total / s); peg; fmp_dcf i]).
Proof.
  intros Hi Hf Hf0 Hs Hs0 Hg Hd Hd2 Hd1.
  destruct (dcf_per_share_computed f s g d Hf0 Hs0 Hd2 Hd1) as (total & Ht & Hdcf).
  exists total. split; [exact Ht|].
  rewrite Hf, Hs, Hg, Hd. split; [exact Hdcf|].
  unfold get_intrinsic_value. rewrite Hi, bind_Ok.
  rewrite Hf, Hs, Hg, Hd, Hdcf, bind_Ok. reflexivity.
Qed.

Lemma dcf_included_whatever_the_discount_rate_witness :
  exists i total,
    resolve Fixtures.low_discount_config Fixtures.utility = Ok i
    /\ discount_rate i = VNum 0.01
    /\ calculate_dcf 1000 0.02 0.01 10 0.02 = Ok total
    /\ get_intrinsic_value Fixtures.low_discount_config Fixtures.utility
       = (peg ← peg_intrinsic (sector_defaults i) (eps i) (growth_rate i) (sector_pe i);
          combine_values [VNum (total / 100); peg; fmp_dcf i]).
Proof.
  eexists.
  assert (Hi : resolve Fixtures.low_discount_config Fixtures.utility = Ok ?[i])
    by (vm_compute; reflexivity).
  destruct (dcf_included_whatever_the_discount_rate
              Fixtures.low_discount_config Fixtures.utility _ 1000 100 0.02 0.01 Hi)
    as (total & Ht & _ & Hv).
  - reflexivity.
  - intros E. vm_compute in E. discriminate E.
  - reflexivity.
  - reflexivity.
  - reflexivity.
  - reflexivity.
  - intros E. vm_compute in E. discriminate E.
  - intros E. vm_compute in E. discriminate E.
  - exists total. split; [exact Hi|]. split; [reflexivity|]. split; [exact Ht | exact Hv].
Defined.

(** At the terminal growth rate itself the valuation does not return. *)
Lemma dcf_at_terminal_growth_raises (f s g : Q) :
  ~ f == 0 -> 0 < s ->
  dcf_per_share (VNum f) (VNum s) (VNum g) (VNum 0.02) = Raise ZeroDivisionError.
Proof.
  intros Hf Hs. unfold dcf_per_share. rewrite (truthy_num _ Hf), py_gt_num.
  apply Qlt_bool_iff in Hs. rewrite Hs, bind_Ok. simpl as_num. rewrite !bind_Ok.
  rewrite calculate_dcf_at_terminal_growth; [reflexivity | unfold years_default; lia | reflexivity].
Qed.

(** C1 as stated fails: with the discount rate of the sector at 0.01, below
    the terminal growth rate, the DCF sub-estimate of a record with free cash
    flow 1000 and 100 shares is computed (-1020 a share) and, being the only
    sub-estimate, is the blended value. *)
Lemma dcf_included_below_terminal_growth :
  exists i,
    resolve Fixtures.low_discount_config Fixtures.utility = Ok i
    /\ truthy (fcf i) = true
    /\ py_gt (shares i) (VNum 0) = Ok true
    /\ discount_rate i = VNum 0.01
    /\ 0.01 <= 0.02
    /\ peg_intrinsic (sector_defaults i) (eps i) (growth_rate i) (sector_pe i) = Ok VNone
    /\ fmp_dcf i = VNone
    /\ exists q,
         dcf_per_share (fcf i) (shares i) (growth_rate i) (discount_rate i) = Ok (VNum q)
         /\ q == -1020
         /\ get_intrinsic_value Fixtures.low_discount_config Fixtures.utility = Ok (VNum q).
Proof.
  eexists. split; [vm_compute; reflexivity|].
  split; [reflexivity|]. split; [reflexivity|]. split; [reflexivity|].
  split; [unfold Qle; simpl; lia|].
  split; [reflexivity|]. split; [reflexivity|].
  eexists. split; [vm_compute; reflexivity|].
  split; [vm_compute; reflexivity | vm_compute; reflexivity].
Qed.

Lemma combine_values_is_mean (d p f : option Q) :
  exists r,
    combine_values [of_option d; of_option p; of_option f] = Ok (of_option r)
    /\ option_Forall2 Qeq r (mean_of_defined [d; p; f])
    /\ (r = None <-> d = None /\ p = None /\ f = None).
Proof.
  destruct d as [a|], p as [b|], f as [c|];
    [eexists (Some _) .. | exists None];
    (split; [reflexivity|]);
    (split; [constructor; unfold py_sum, py_len; simpl; try field
            | split; [intros [=]; auto | intros (? & ? & ?); congruence]]).
Qed.

(** C5. Whenever the three sub-estimates are there (the two computed ones
    returned, the supplied one is a number or [None]), the blended intrinsic
    value is the arithmetic mean of those that are not [None], and it is
    [None] exactly when all three are. *)
Theorem blended_value_is_mean_of_defined
    (cm : ConfigManager.t) (sd : gmap string value) (i : inputs) (dcf peg : value)
    (f : option Q) :
  resolve cm sd = Ok i ->
  dcf_per_share (fcf i) (shares i) (growth_rate i) (discount_rate i) = Ok dcf ->
  peg_intrinsic (sector_defaults i) (eps i) (growth_rate i) (sector_pe i) = Ok peg ->
  fmp_dcf i = of_option f ->
  exists d p r,
    dcf = of_option d /\ peg = of_option p
    /\ get_intrinsic_value cm sd = Ok (of_option r)
    /\ option_Forall2 Qeq r (mean_of_defined [d; p; f])
    /\ (r = None <-> d = None /\ p = None /\ f = None).
Proof.
  intros Hi Hdcf Hpeg Hf.
  destruct (dcf_per_share_shape _ _ _ _ _ Hdcf) as [d ->].
  destruct (peg_intrinsic_shape _ _ _ _ _ Hpeg) as [p ->].
  destruct (combine_values_is_mean d p f) as (r & Hr & Hmean & Hnone).
  exists d, p, r. split; [reflexivity|]. split; [reflexivity|].
  split; [|split; assumption].
  unfold get_intrinsic_value. rewrite Hi, bind_Ok, Hdcf, bind_Ok, Hpeg, bind_Ok, Hf.
  exact Hr.
Qed.

(** [test_missing_fcf]: PEG 25 * (0.12 / 0.08) * 6 = 225 and the supplied 180
    blend to 202.5; the DCF, undefined without free cash flow, is left out. *)
Lemma blended_value_is_mean_of_defined_witness :
  exists i r,
    resolve Fixtures.config_manager Fixtures.MSFT_with_estimates = Ok i
    /\ get_intrinsic_value Fixtures.config_manager Fixtures.MSFT_with_estimates
       = Ok (of_option r)
    /\ option_Forall2 Qeq r (Some 202.5).
Proof.
  eexists.
  assert (Hi : resolve Fixtures.config_manager Fixtures.MSFT_with_estimates = Ok ?[i])
    by (vm_compute; reflexivity).
  destruct (blended_value_is_mean_of_defined
              Fixtures.config_manager Fixtures.MSFT_with_estimates _
              VNone (VNum (25 * (0.12 / 0.08) * 6)) (Some 180) Hi)
    as (d & p & r & Hd & Hp & Hv & Hmean & _).
  - reflexivity.
  - reflexivity.
  - reflexivity.
  - exists r. split; [exact Hi|]. split; [exact Hv|].
    destruct d as [?|]; [discriminate Hd|].
    destruct p as [x|]; [|discriminate Hp].
    injection Hp as <-.
    inversion Hmean as [? y Hxy|]; subst. constructor.
    rewrite Hxy. vm_compute. reflexivity.
Defined.

(** C10. For a record with positive EPS whose sector the configuration does
    not list, the PEG sub-estimate is 15 times the EPS whatever the (positive)
    growth rate of the record: the sector growth rate falls back to the
    growth rate of the record and the ratio is one. *)
Theorem peg_of_unlisted_sector
    (cm : ConfigManager.t) (sd : gmap string value) (i : inputs) (sector : value) (e : Q) :
  resolve cm sd = Ok i ->
  sd !! "sector" = Some sector ->
  (forall s, sector = VStr s ->
             ConfigManager.sectors (ConfigManager.config cm) !! s = None) ->
  sd !! "eps" = Some (VNum e) -> 0 < e ->
  (sd !! "growth_rate" = None
   \/ exists g, sd !! "growth_rate" = Some (VNum g) /\ 0 < g) ->
  exists q,
    peg_intrinsic (sector_defaults i) (eps i) (growth_rate i) (sector_pe i) = Ok (VNum q)
    /\ q == 15 * e.
Proof.
  intros Hi Hsec Hnone He He0 Hg.
  destruct (resolve_inv _ _ _ Hi) as (sector' & price & shares & Hs' & _ & _ & ->).
  rewrite Hsec in Hs'. injection Hs' as <-.
  assert (Hdefaults : ConfigManager.get_sector_params cm sector = ∅).
  { destruct sector as [| | | |s|]; try reflexivity.
    unfold ConfigManager.get_sector_params. rewrite (Hnone s eq_refl). reflexivity. }
  simpl. rewrite Hdefaults. unfold dict_get. rewrite He, !lookup_empty. simpl default.
  assert (Hgrowth : exists g, default (VNum 0.05) (sd !! "growth_rate") = VNum g /\ 0 < g).
  { destruct Hg as [-> | (g & -> & Hg)].
    - exists 0.05. split; [reflexivity|]. unfold Qlt. simpl. lia.
    - exists g. split; [reflexivity | exact Hg]. }
  destruct Hgrowth as (g & -> & Hg0).
  unfold peg_intrinsic, dict_get. rewrite lookup_empty. simpl default.
  assert (Hte : truthy (VNum e) = true) by (apply truthy_num; lra).
  rewrite Hte, !py_gt_num.
  apply Qlt_bool_iff in He0 as He0', Hg0 as Hg0'. rewrite He0', bind_Ok, Hg0', !bind_Ok.
  simpl as_num. rewrite !bind_Ok, py_div_ok by lra. rewrite !bind_Ok.
  eexists. split; [reflexivity|]. field. lra.
Qed.

Lemma peg_of_unlisted_sector_witness :
  exists i q,
    resolve (ConfigManager.init "2023-01-01T00:00:00-08:00") Fixtures.unlisted = Ok i
    /\ peg_intrinsic (sector_defaults i) (eps i) (growth_rate i) (sector_pe i) = Ok (VNum q)
    /\ q == 15 * 2.
Proof.
  eexists.
  assert (Hi : resolve (ConfigManager.init "2023-01-01T00:00:00-08:00") Fixtures.unlisted
               = Ok ?[i]) by (vm_compute; reflexivity).
  destruct (peg_of_unlisted_sector
              (ConfigManager.init "2023-01-01T00:00:00-08:00") Fixtures.unlisted _
              (VStr "Conglomerates") 2 Hi)
    as (q & Hq & Heq).
  - reflexivity.
  - intros s [= <-]. vm_compute. reflexivity.
  - reflexivity.
  - unfold Qlt. simpl. lia.
  - right. exists 0.30. split; [reflexivity|]. unfold Qlt. simpl. lia.
  - exists q. split; [exact Hi|]. split; [exact Hq | exact Heq].
Defined.

(** Without a positive growth rate there is no PEG sub-estimate at all. *)
Lemma peg_needs_positive_growth (defaults : gmap string value) (e g : Q) (pe : value) :
  0 < e -> g <= 0 -> peg_intrinsic defaults (VNum e) (VNum g) pe = Ok VNone.
Proof.
  intros He Hg. unfold peg_intrinsic.
  assert (Hte : truthy (VNum e) = true) by (apply truthy_num; lra).
  rewrite Hte, !py_gt_num.
  apply Qlt_bool_iff in He. apply Qlt_bool_false_iff in Hg.
  rewrite He, bind_Ok, Hg, bind_Ok. reflexivity.
Qed.

Lemma combine_values_shape (candidates : list value) (v : value) :
  combine_values candidates = Ok v -> exists o, v = of_option o.
Proof.
  unfold combine_values. intros H. case_bool_decide.
  - inversion H. exists None. reflexivity.
  - step_bind H. inversion H. eexists (Some _). reflexivity.
Qed.

Lemma get_intrinsic_value_shape (cm : ConfigManager.t) (sd : gmap string value) (v : value) :
  get_intrinsic_value cm sd = Ok v -> exists o, v = of_option o.
Proof.
  unfold get_intrinsic_value. intros H.
  repeat step_bind H. exact (combine_values_shape _ _ H).
Qed.

End Valuation.

(** ** The analyzer *)

Section Analyzer.
Import StockAnalyzer.

Lemma map_result_elem {A B : Type} (f : A -> result B) (l : list A) (l' : list B) (y : B) :
  map_result f l = Ok l' -> y ∈ l' -> exists x, x ∈ l /\ f x = Ok y.
Proof.
  revert l'. induction l as [|x l IH]; intros l' H Hy; simpl in H.
  - inversion H; subst. inversion Hy.
  - step_bind H. step_bind H. inversion H; subst.
    apply elem_of_cons in Hy as [-> | Hy].
    + exists x. split; [left | assumption].
    + destruct (IH _ eq_refl Hy) as (x' & Hx' & Hf). exists x'. split; [right|]; assumption.
Qed.

Lemma filter_result_elem {A : Type} (p : A -> result bool) (l l' : list A) (x : A) :
  filter_result p l = Ok l' -> x ∈ l' -> x ∈ l /\ p x = Ok true.
Proof.
  revert l'. induction l as [|y l IH]; intros l' H Hx; simpl in H.
  - inversion H; subst. inversion Hx.
  - step_bind H. step_bind H. inversion H; subst. destruct a.
    + apply elem_of_cons in Hx as [-> | Hx].
      * split; [left | assumption].
      * destruct (IH _ eq_refl Hx). split; [right|]; assumption.
    + destruct (IH _ eq_refl Hx). split; [right|]; assumption.
Qed.

Lemma insert_desc_elem {A : Type} (k : Q) (x : A) (l : list (Q * A)) (e : Q * A) :
  e ∈ insert_desc k x l -> e = (k, x) \/ e ∈ l.
Proof.
  induction l as [|[k' y] l IH]; simpl; intros H.
  - apply list_elem_of_singleton in H. left. exact H.
  - destruct (Qlt_bool k k').
    + apply elem_of_cons in H as [-> | H]; [right; left|].
      destruct (IH H) as [-> | H']; [left; reflexivity | right; right; exact H'].
    + apply elem_of_cons in H as [-> | H]; [left; reflexivity | right; exact H].
Qed.

Lemma sort_desc_elem {A : Type} (l : list (Q * A)) (e : Q * A) :
  e ∈ sort_desc l -> e ∈ l.
Proof.
  induction l as [|[k x] l IH]; simpl; intros H.
  - exact H.
  - apply insert_desc_elem in H as [-> | H]; [left | right; apply IH, H].
Qed.

Lemma sorted_by_score_elem (stocks ranked : list (gmap string value)) (x : gmap string value) :
  sorted_by_score stocks = Ok ranked -> x ∈ ranked -> x ∈ stocks.
Proof.
  unfold sorted_by_score. intros H Hx. step_bind H. inversion H; subst.
  apply list_elem_of_fmap in Hx as ([k x'] & -> & Hx). simpl.
  apply sort_desc_elem in Hx.
  destruct (map_result_elem _ _ _ _ E Hx) as (x0 & Hx0 & Hf).
  step_bind Hf. step_bind Hf. inversion Hf; subst. exact Hx0.
Qed.

Lemma od_append_elem {V : Type} (k : string) (v : V) (d : list (string * list V))
    (s : string) (vs : list V) (x : V) :
  (s, vs) ∈ od_append k v d -> x ∈ vs ->
  x = v \/ exists vs', (s, vs') ∈ d /\ x ∈ vs'.
Proof.
  induction d as [|[k' ws] d IH]; simpl; intros H Hx.
  - inversion H.
  - destruct (String.eqb k k').
    + apply elem_of_cons in H as [[= -> ->] | H].
      * apply elem_of_app in Hx as [Hx | Hx].
        -- right. exists ws. split; [left | exact Hx].
        -- apply list_elem_of_singleton in Hx. left. exact Hx.
      * right. exists vs. split; [right; exact H | exact Hx].
    + apply elem_of_cons in H as [[= -> ->] | H].
      * right. exists ws. split; [left | exact Hx].
      * destruct (IH H Hx) as [-> | (vs' & H' & Hx')]; [left; reflexivity|].
        right. exists vs'. split; [right; exact H' | exact Hx'].
Qed.

Lemma od_set_nil_elem (k s : string) (d : list (string * list (gmap string value)))
    (vs : list (gmap string value)) :
  (forall s' vs', (s', vs') ∈ d -> vs' = []) ->
  (s, vs) ∈ DataFetcher.od_set k [] d -> vs = [].
Proof.
  induction d as [|[k' ws] d IH]; simpl; intros Hd H.
  - apply list_elem_of_singleton in H. injection H as _ ->. reflexivity.
  - destruct (String.eqb k k').
    + apply elem_of_cons in H as [[= _ ->] | H]; [reflexivity|].
      apply (Hd s vs). right. exact H.
    + apply elem_of_cons in H as [[= -> ->] | H].
      * apply (Hd k' ws). left.
      * apply IH; [|exact H]. intros s' vs' H'. apply (Hd s' vs'). right. exact H'.
Qed.

Lemma empty_groups_empty (prefs : list string) (s : string)
    (vs : list (gmap string value)) :
  (s, vs) ∈ empty_groups prefs -> vs = [].
Proof.
  unfold empty_groups.
  assert (G : forall d : list (string * list (gmap string value)),
             (forall s' vs', (s', vs') ∈ d -> vs' = []) ->
             forall s' vs',
               (s', vs') ∈ fold_left (fun g sector => DataFetcher.od_set sector [] g) prefs d
               -> vs' = []).
  { induction prefs as [|p prefs IH]; simpl; intros d Hd s' vs' H'.
    - exact (Hd _ _ H').
    - apply (IH (DataFetcher.od_set p [] d)) in H'; [exact H'|].
      intros s'' vs'' H''. exact (od_set_nil_elem _ _ _ _ Hd H''). }
  apply G. intros s' vs' H'. inversion H'.
Qed.

Lemma add_to_group_raise (outs : list (gmap string value)) (e : exn) :
  fold_left add_to_group outs (Raise e) = Raise e.
Proof. induction outs as [|o outs IH]; simpl; [reflexivity | exact IH]. Qed.

Lemma add_to_group_elem (universe outs : list (gmap string value))
    (g0 grouped : list (string * list (gmap string value))) :
  (forall s vs y, (s, vs) ∈ g0 -> y ∈ vs -> y ∈ universe) ->
  (forall y, y ∈ outs -> y ∈ universe) ->
  fold_left add_to_group outs (Ok g0) = Ok grouped ->
  forall s vs y, (s, vs) ∈ grouped -> y ∈ vs -> y ∈ universe.
Proof.
  revert g0. induction outs as [|o outs IH]; cbn [fold_left];
    intros g0 Hg Houts H s vs y Hs Hy.
  - inversion H; subst. exact (Hg _ _ _ Hs Hy).
  - destruct (getitem o "sector") as [sector|e] eqn:Esec.
    + assert (Hstep : add_to_group (Ok g0) o
                      = Ok (match sector with
                            | VStr s => od_append s o g0
                            | _ => g0
                            end)).
      { unfold add_to_group. rewrite bind_Ok, Esec. reflexivity. }
      rewrite Hstep in H. refine (IH _ _ _ H s vs y Hs Hy).
      * intros s1 vs1 y1 H1 Hy1. destruct sector; try exact (Hg _ _ _ H1 Hy1).
        destruct (od_append_elem _ _ _ _ _ _ H1 Hy1) as [-> | (vs2 & H2 & Hy2)].
        -- apply Houts. left.
        -- exact (Hg _ _ _ H2 Hy2).
      * intros y1 Hy1. apply Houts. right. exact Hy1.
    + assert (Hstep : add_to_group (Ok g0) o = Raise e).
      { unfold add_to_group. rewrite bind_Ok, Esec. reflexivity. }
      rewrite Hstep, add_to_group_raise in H. discriminate H.
Qed.

Lemma group_by_sector_elem (prefs : list string) (outputs : list (gmap string value))
    (grouped : list (string * list (gmap string value))) (s : string)
    (rows : list (gmap string value)) (x : gmap string value) :
  group_by_sector prefs outputs = Ok grouped -> (s, rows) ∈ grouped -> x ∈ rows ->
  x ∈ outputs.
Proof.
  unfold group_by_sector. intros H Hs Hx. step_bind H.
  destruct (map_result_elem _ _ _ _ H Hs) as ([s' rows'] & Hin & Hsort).
  step_bind Hsort. inversion Hsort; subst.
  apply (sorted_by_score_elem _ _ _ E0) in Hx.
  refine (add_to_group_elem outputs outputs _ _ _ _ E s rows' x Hin Hx).
  - intros s1 vs1 y H1 Hy. rewrite (empty_groups_empty _ _ _ H1) in Hy. inversion Hy.
  - auto.
Qed.

Lemma with_pe_ratio_inv (ticker : string) (data stock : gmap string value) :
  with_pe_ratio ticker data = Ok stock ->
  stock !! "ticker" = Some (VStr ticker)
  /\ is_Some (stock !! "pe_ratio")
  /\ (forall k, k <> "ticker" -> k <> "pe_ratio" -> stock !! k = data !! k).
Proof.
  unfold with_pe_ratio. intros H. step_bind H.
  assert (G : forall pe st, <["pe_ratio" := pe]> (<["ticker" := VStr ticker]> data) = st ->
              st !! "ticker" = Some (VStr ticker)
              /\ is_Some (st !! "pe_ratio")
              /\ (forall k, k <> "ticker" -> k <> "pe_ratio" -> st !! k = data !! k)).
  { intros pe st <-. split; [|split].
    - rewrite lookup_insert_ne by discriminate. apply lookup_insert_eq.
    - rewrite lookup_insert_eq. eauto.
    - intros k Hk1 Hk2. rewrite !lookup_insert_ne by congruence. reflexivity. }
  destruct a.
  - repeat step_bind H. injection H as H. exact (G _ _ H).
  - injection H as H. exact (G _ _ H).
Qed.

Lemma passes_filters_unvalued (stock filter_params : gmap string value) (iv : value) :
  stock !! "intrinsic_value" = Some iv ->
  iv = VNone \/ (exists q, iv = VNum q /\ q <= 0) ->
  passes_filters stock filter_params = Ok false.
Proof.
  intros Hiv Hbad. unfold passes_filters, getitem. rewrite Hiv, bind_Ok.
  destruct Hbad as [-> | (q & -> & Hq)].
  - reflexivity.
  - simpl negb. cbv iota. rewrite py_le_num.
    apply Qle_bool_iff in Hq. rewrite Hq. reflexivity.
Qed.

Lemma passes_filters_valued (stock filter_params : gmap string value) :
  passes_filters stock filter_params = Ok true ->
  exists iv, stock !! "intrinsic_value" = Some iv
             /\ iv <> VNone /\ py_le iv (VNum 0) = Ok false.
Proof.
  unfold passes_filters, getitem. intros H.
  destruct (stock !! "intrinsic_value") as [iv|]; [|discriminate H].
  rewrite bind_Ok in H. exists iv. split; [reflexivity|].
  step_bind H. destruct a; [discriminate H|].
  destruct iv; simpl in E; try discriminate E; (split; [discriminate | exact E]).
Qed.

Lemma with_score_inv (stock scored : gmap string value) :
  with_score stock = Ok scored ->
  exists p s,
    stock !! "price" = Some p
    /\ scored = <["score" := VNum s]> stock
    /\ (forall i, stock !! "intrinsic_value" = Some (VNum i) -> score_as_specified p i s).
Proof.
  unfold with_score, getitem. intros H.
  destruct (stock !! "price") as [p|] eqn:Ep; [|discriminate H].
  rewrite bind_Ok in H. step_bind H. destruct a.
  - destruct (stock !! "intrinsic_value") as [iv|] eqn:Eiv; [|discriminate H].
    rewrite bind_Ok in H. repeat step_bind H. inversion H; subst.
    apply py_div_inv in E2 as [-> _].
    exists p, (a / a0). split; [reflexivity|]. split; [reflexivity|].
    intros i [= ->]. exists true. split; [exact E|]. exists a0. split; [exact E1|].
    simpl in E0. inversion E0. reflexivity.
  - inversion H; subst. exists p, 0. split; [reflexivity|]. split; [reflexivity|].
    intros i _. exists false. split; [exact E | reflexivity].
Qed.

Lemma output_of_inv (stock row : gmap string value) :
  output_of stock = Ok row ->
  row !! "ticker" = stock !! "ticker"
  /\ row !! "score" = stock !! "score"
  /\ row !! "intrinsic_value" = stock !! "intrinsic_value"
  /\ row !! "price" = stock !! "price"
  /\ row !! "sector" = stock !! "sector".
Proof.
  unfold output_of, getitem. intros H.
  destruct (stock !! "ticker") eqn:E1; [|discriminate H]. rewrite bind_Ok in H.
  destruct (stock !! "score") eqn:E2; [|discriminate H]. rewrite bind_Ok in H.
  destruct (stock !! "intrinsic_value") eqn:E3; [|discriminate H]. rewrite bind_Ok in H.
  destruct (stock !! "price") eqn:E4; [|discriminate H]. rewrite bind_Ok in H.
  destruct (stock !! "sector") eqn:E5; [|discriminate H]. rewrite bind_Ok in H.
  injection H as <-. repeat split; reflexivity.
Qed.

Lemma rows_of_analysis (cm : ConfigManager.t) (stock_data : list (string * gmap string value))
    (filter_params : gmap string value) (sector_prefs : option (list string))
    (out : analysis) (row : gmap string value) :
  analyze cm stock_data filter_params sector_prefs = Ok out ->
  row ∈ rows_of out ->
  exists ticker data stock valued scored,
    (ticker, data) ∈ stock_data
    /\ with_pe_ratio ticker data = Ok stock
    /\ with_intrinsic_value cm stock = Ok valued
    /\ passes_filters valued filter_params = Ok true
    /\ with_score valued = Ok scored
    /\ output_of scored = Ok row.
Proof.
  unfold analyze. intros H Hrow.
  step_bind H. step_bind H. step_bind H. step_bind H. step_bind H.
  assert (Hin : row ∈ a3).
  { destruct sector_prefs as [[|s prefs]|].
    - step_bind H. inversion H; subst. exact (sorted_by_score_elem _ _ _ E4 Hrow).
    - step_bind H. inversion H; subst. simpl in Hrow.
      apply list_elem_of_In, in_concat in Hrow as (rows & Hrows & Hx).
      apply list_elem_of_In in Hx. apply list_elem_of_In, list_elem_of_fmap in Hrows.
      destruct Hrows as ([s' rows'] & -> & Hg).
      exact (group_by_sector_elem _ _ _ _ _ _ E4 Hg Hx).
    - step_bind H. inversion H; subst. exact (sorted_by_score_elem _ _ _ E4 Hrow). }
  destruct (map_result_elem _ _ _ _ E3 Hin) as (scored & Hscored & Hout).
  destruct (map_result_elem _ _ _ _ E2 Hscored) as (valued & Hvalued & Hscore).
  destruct (filter_result_elem _ _ _ _ E1 Hvalued) as (Hvalued' & Hpass).
  destruct (map_result_elem _ _ _ _ E0 Hvalued') as (stock & Hstock & Hiv).
  destruct (map_result_elem _ _ _ _ E Hstock) as ([ticker data] & Hdata & Hpe).
  exists ticker, data, stock, valued, scored. auto 10.
Qed.

(** C6. Whatever the filter settings, a record whose intrinsic value is
    [None] or not positive does not pass the filter; and every row of an
    analysis carries a positive intrinsic value, the one computed for its
    ticker, and the score [intrinsic_value / price] when its price is
    positive and [0] otherwise. *)
Theorem score_and_unvalued_exclusion :
  (forall (stock filter_params : gmap string value) (iv : value),
      stock !! "intrinsic_value" = Some iv ->
      iv = VNone \/ (exists q, iv = VNum q /\ q <= 0) ->
      passes_filters stock filter_params = Ok false)
  /\ (forall cm stock_data filter_params sector_prefs out row,
        analyze cm stock_data filter_params sector_prefs = Ok out ->
        row ∈ rows_of out ->
        exists ticker data stock i p s,
          (ticker, data) ∈ stock_data
          /\ with_pe_ratio ticker data = Ok stock
          /\ IntrinsicValueCalculator.get_intrinsic_value cm stock = Ok (VNum i)
          /\ 0 < i
          /\ row !! "ticker" = Some (VStr ticker)
          /\ row !! "intrinsic_value" = Some (VNum i)
          /\ data !! "price" = Some p
          /\ row !! "price" = Some p
          /\ row !! "score" = Some (VNum s)
          /\ score_as_specified p i s).
Proof.
  split; [exact passes_filters_unvalued|].
  intros cm stock_data fp prefs out row Hout Hrow.
  destruct (rows_of_analysis _ _ _ _ _ _ Hout Hrow)
    as (ticker & data & stock & valued & scored & Hin & Hpe & Hiv & Hpass & Hscore & Hrowof).
  unfold with_intrinsic_value in Hiv. step_bind Hiv. injection Hiv as <-.
  destruct (get_intrinsic_value_shape _ _ _ E) as [o ->].
  destruct (passes_filters_valued _ _ Hpass) as (iv & Hlook & Hnone & Hle).
  rewrite lookup_insert_eq in Hlook. injection Hlook as <-.
  destruct o as [i|]; [|contradiction]. simpl in Hle, E.
  rewrite py_le_num in Hle. injection Hle as Hle. apply Qle_bool_false_iff in Hle.
  destruct (with_pe_ratio_inv _ _ _ Hpe) as (Hticker & _ & Hrest).
  destruct (with_score_inv _ _ Hscore) as (p & s & Hprice & -> & Hspec).
  rewrite lookup_insert_ne in Hprice by discriminate.
  destruct (output_of_inv _ _ Hrowof) as (Rt & Rs & Ri & Rp & _).
  exists ticker, data, stock, i, p, s.
  split; [exact Hin|]. split; [exact Hpe|]. split; [exact E|]. split; [exact Hle|].
  split.
  { rewrite Rt, !lookup_insert_ne by discriminate. exact Hticker. }
  split.
  { rewrite Ri, lookup_insert_ne by discriminate. apply lookup_insert_eq. }
  split.
  { rewrite <- Hrest by discriminate. exact Hprice. }
  split.
  { rewrite Rp, !lookup_insert_ne by discriminate. exact Hprice. }
  split.
  { rewrite Rs. apply lookup_insert_eq. }
  apply Hspec. apply lookup_insert_eq.
Qed.

(** [test_analyze_stocks_basic] and [test_no_calculable_values]. *)
Lemma score_and_unvalued_exclusion_witness :
  passes_filters {[ "ticker" := VStr "XYZ"; "pe_ratio" := VNegInf;
                    "intrinsic_value" := VNone ]} Fixtures.basic_filters = Ok false
  /\ exists out,
       analyze Fixtures.config_manager Fixtures.stock_data Fixtures.basic_filters None = Ok out
       /\ Fixtures.tickers_of (rows_of out) = [Some (VStr "ZDGE"); Some (VStr "AAPL")]
       /\ forall row, row ∈ rows_of out ->
            exists i p s,
              0 < i /\ row !! "intrinsic_value" = Some (VNum i)
              /\ row !! "price" = Some p /\ row !! "score" = Some (VNum s)
              /\ score_as_specified p i s.
Proof.
  split.
  - apply (proj1 score_and_unvalued_exclusion _ _ VNone); [reflexivity | left; reflexivity].
  - eexists.
    assert (H : analyze Fixtures.config_manager Fixtures.stock_data Fixtures.basic_filters None
                = Ok ?[out]) by (vm_compute; reflexivity).
    split; [exact H|]. split; [vm_compute; reflexivity|].
    intros row Hrow.
    destruct (proj2 score_and_unvalued_exclusion _ _ _ _ _ row H Hrow)
      as (ticker & data & stock & i & p & s & _ & _ & _ & Hi & _ & Hiv & _ & Hp & Hs & Hspec).
    exists i, p, s. auto.
Defined.

(** C2 (as amended). A ticker whose EPS is a number not above zero (or
    missing from the record) gets the sentinel [-inf] as its P/E. With a
    positive intrinsic value such a ticker is never dropped by a [max_pe]
    bound ([-inf > max_pe] is false); it is dropped by [exclude_negative_pe]
    ([-inf <= 0] is true) unless it is one of the exempted AMEX tickers. *)
Theorem sentinel_pe_ratio_filtering
    (ticker : string) (data filter_params : gmap string value) (v : Q) :
  (data !! "eps" = None \/ exists e, data !! "eps" = Some (VNum e) /\ e <= 0) ->
  0 < v ->
  (forall max_pe, filter_params !! "max_pe" = Some max_pe -> exists x, as_ext max_pe = Ok x) ->
  exists stock,
    with_pe_ratio ticker data = Ok stock
    /\ stock !! "pe_ratio" = Some VNegInf
    /\ passes_filters (<["intrinsic_value" := VNum v]> stock) filter_params
       = Ok (negb (truthy (dict_get filter_params "exclude_negative_pe" (VBool false))
                   && negb (bool_decide (ticker ∈ AMEX_TICKERS)))).
Proof.
  intros Heps Hv Hmax.
  exists (<["pe_ratio" := VNegInf]> (<["ticker" := VStr ticker]> data)).
  split.
  { unfold with_pe_ratio, dict_get. rewrite lookup_insert_ne by discriminate.
    destruct Heps as [-> | (e & -> & He)]; simpl default; rewrite py_gt_num.
    - reflexivity.
    - apply Qlt_bool_false_iff in He. rewrite He. reflexivity. }
  split; [apply lookup_insert_eq|].
  unfold passes_filters, getitem.
  rewrite lookup_insert_eq, bind_Ok. simpl negb. cbv iota.
  rewrite py_le_num. apply Qle_bool_false_iff in Hv. rewrite Hv, bind_Ok. cbv iota.
  rewrite (lookup_insert_ne _ "intrinsic_value" "ticker") by discriminate.
  rewrite (lookup_insert_ne _ "pe_ratio" "ticker") by discriminate.
  rewrite lookup_insert_eq.
  rewrite (lookup_insert_ne _ "intrinsic_value" "pe_ratio") by discriminate.
  rewrite lookup_insert_eq.
  assert (Hbound :
            match filter_params !! "max_pe" with
            | Some max_pe => pe ← Ok VNegInf; py_gt pe max_pe
            | None => Ok false
            end = Ok false).
  { destruct (filter_params !! "max_pe") as [m|] eqn:Em; [|reflexivity].
    destruct (Hmax m eq_refl) as [x Hx]. rewrite bind_Ok. unfold py_gt. simpl as_ext.
    rewrite bind_Ok, Hx, bind_Ok. destruct x; reflexivity. }
  destruct (truthy (dict_get filter_params "exclude_negative_pe" (VBool false))).
  - rewrite bind_Ok. unfold not_in_amex.
    destruct (bool_decide (ticker ∈ AMEX_TICKERS)); simpl negb; cbv iota.
    + rewrite bind_Ok. cbv iota. rewrite Hbound. reflexivity.
    + reflexivity.
  - rewrite bind_Ok. cbv iota. rewrite Hbound. reflexivity.
Qed.

(** The TSLA and ZDGE records of [test_stock_analyzer.py], EPS -1 and -0.5. *)
Lemma sentinel_pe_ratio_filtering_witness :
  (exists stock,
      with_pe_ratio "TSLA" Fixtures.TSLA = Ok stock
      /\ stock !! "pe_ratio" = Some VNegInf
      /\ passes_filters (<["intrinsic_value" := VNum 100]> stock) Fixtures.basic_filters
         = Ok false)
  /\ (exists stock,
        with_pe_ratio "ZDGE" Fixtures.ZDGE = Ok stock
        /\ stock !! "pe_ratio" = Some VNegInf
        /\ passes_filters (<["intrinsic_value" := VNum 100]> stock) Fixtures.basic_filters
           = Ok true).
Proof.
  assert (Hmax : forall max_pe,
             Fixtures.basic_filters !! "max_pe" = Some max_pe -> exists x, as_ext max_pe = Ok x).
  { intros m Hm. vm_compute in Hm. injection Hm as <-. eexists. reflexivity. }
  assert (Hv : 0 < 100) by (unfold Qlt; simpl; lia).
  split.
  - destruct (sentinel_pe_ratio_filtering "TSLA" Fixtures.TSLA Fixtures.basic_filters 100)
      as (stock & H1 & H2 & H3); [| exact Hv | exact Hmax |].
    + right. exists (-1). split; [reflexivity|]. unfold Qle. simpl. lia.
    + exists stock. split; [exact H1|]. split; [exact H2|]. rewrite H3. reflexivity.
  - destruct (sentinel_pe_ratio_filtering "ZDGE" Fixtures.ZDGE Fixtures.basic_filters 100)
      as (stock & H1 & H2 & H3); [| exact Hv | exact Hmax |].
    + right. exists (-0.5). split; [reflexivity|]. unfold Qle. simpl. lia.
    + exists stock. split; [exact H1|]. split; [exact H2|]. rewrite H3. reflexivity.
Defined.

(** C2 as stated fails both ways on the TSLA record (EPS -1, P/E [-inf]):
    under [max_pe = 30] alone it is kept, and under [exclude_negative_pe]
    alone it is dropped ([test_analyze_stocks_no_passing]). *)
Lemma sentinel_kept_by_max_pe_dropped_by_negative_pe :
  (exists stock, with_pe_ratio "TSLA" Fixtures.TSLA = Ok stock
                 /\ stock !! "pe_ratio" = Some VNegInf)
  /\ (exists rows,
        analyze Fixtures.config_manager [("TSLA", Fixtures.TSLA)]
                {[ "max_pe" := VNum 30 ]} None = Ok (Ranked rows)
        /\ Fixtures.tickers_of rows = [Some (VStr "TSLA")])
  /\ analyze Fixtures.config_manager [("TSLA", Fixtures.TSLA)]
             {[ "exclude_negative_pe" := VBool true ]} None = Ok (Ranked []).
Proof.
  split; [|split].
  - eexists. split; [vm_compute; reflexivity | vm_compute; reflexivity].
  - eexists. split; [vm_compute; reflexivity | vm_compute; reflexivity].
  - vm_compute. reflexivity.
Qed.

(** C4 fails on the code: the fetcher delivers a record whose EPS is [None]
    (EPS is not a required field), and the comparison [None > 0] that decides
    the P/E raises [TypeError], which ends the analysis of the whole batch. *)
Theorem absent_eps_raises :
  fst (DataFetcher.fetch_data (data_fetcher Fixtures.analyzer_without_eps) ["XYZ"]
         DataFetcher.default_required_fields true Fixtures.empty_world)
  = Ok [("XYZ", Fixtures.record_without_eps)]
  /\ with_pe_ratio "XYZ" Fixtures.record_without_eps = Raise TypeError
  /\ fst (analyze_stocks Fixtures.analyzer_without_eps ["XYZ"] ∅ None Fixtures.empty_world)
     = Raise TypeError.
Proof.
  split; [vm_compute; reflexivity|].
  split; [vm_compute; reflexivity | vm_compute; reflexivity].
Qed.

(** The valuation itself does take an absent EPS: it leaves the PEG
    sub-estimate out. *)
Lemma absent_eps_valued :
  exists q, IntrinsicValueCalculator.get_intrinsic_value Fixtures.config_manager
              Fixtures.record_without_eps = Ok (VNum q).
Proof. eexists. vm_compute. reflexivity. Qed.

End Analyzer.

(** ** The cached fetcher *)

Section Fetcher.
Import DataFetcher.

Lemma io_bind_run {A B : Type} (m : io A) (k : A -> io B) (w : world) :
  (m ≫= k) w = match m w with
               | (Ok a, w') => k a w'
               | (Raise e, w') => (Raise e, w')
               end.
Proof. reflexivity. Qed.

Lemma sends_only_ret {A : Type} (P : string -> Prop) (a : A) : sends_only P (mret a : io A).
Proof.
  intros w r w' [= <- <-]. exists []. rewrite app_nil_r. split; [reflexivity | constructor].
Qed.

Lemma sends_only_lift {A : Type} (P : string -> Prop) (x : result A) : sends_only P (lift x).
Proof.
  intros w r w' [= <- <-]. exists []. rewrite app_nil_r. split; [reflexivity | constructor].
Qed.

Lemma sends_only_bind {A B : Type} (P : string -> Prop) (m : io A) (k : A -> io B) :
  sends_only P m -> (forall a, sends_only P (k a)) -> sends_only P (m ≫= k).
Proof.
  intros Hm Hk w r w' H. unfold mbind, io_bind in H.
  destruct (m w) as [[a|e] w1] eqn:E.
  - destruct (Hm _ _ _ E) as (n1 & R1 & F1). destruct (Hk a _ _ _ H) as (n2 & R2 & F2).
    exists (n1 ++ n2)%list. split.
    + rewrite R2, R1, app_assoc. reflexivity.
    + apply Forall_app. split; assumption.
  - injection H as <- <-. exact (Hm _ _ _ E).
Qed.

Lemma sends_only_mono {A : Type} (P Q : string -> Prop) (m : io A) :
  (forall t, P t -> Q t) -> sends_only P m -> sends_only Q m.
Proof.
  intros HPQ Hm w r w' H. destruct (Hm _ _ _ H) as (new & R & F).
  exists new. split; [exact R|]. eapply Forall_impl; [exact F|]. intros rq. apply HPQ.
Qed.

Lemma sends_only_http (P : string -> Prop) (self : t) (e : endpoint) (ticker : string) :
  P ticker -> sends_only P (http_get_json self e ticker).
Proof.
  intros HP w r w' H. exists [(e, ticker)]. unfold http_get_json in H.
  destruct (remote self e ticker); injection H as <- <-;
    (split; [reflexivity | constructor; [exact HP | constructor]]).
Qed.

Lemma sends_only_logger (P : string -> Prop) (entry : log_entry) :
  sends_only P (logger_info entry).
Proof.
  intros w r w' [= <- <-]. exists []. rewrite app_nil_r. split; [reflexivity | constructor].
Qed.

Lemma sends_only_save (P : string -> Prop) (ticker : string) (data : gmap string value) :
  sends_only P (db_save_stock_data ticker data).
Proof.
  intros w r w' H. unfold db_save_stock_data in H.
  destruct (DatabaseManager.save_stock_data (clock w) ticker data (db w));
    injection H as <- <-; exists []; rewrite app_nil_r;
    (split; [reflexivity | constructor]).
Qed.

Lemma sends_only_try {A : Type} (P : string -> Prop) (body : io A) (handler : exn -> io A) :
  sends_only P body -> (forall e, sends_only P (handler e)) ->
  sends_only P (try_except body handler).
Proof.
  intros Hb Hh w r w' H. unfold try_except in H.
  destruct (body w) as [[a|e] w1] eqn:E.
  - injection H as <- <-. exact (Hb _ _ _ E).
  - destruct (caught e).
    + destruct (Hb _ _ _ E) as (n1 & R1 & F1). destruct (Hh e _ _ _ H) as (n2 & R2 & F2).
      exists (n1 ++ n2)%list. split.
      * rewrite R2, R1, app_assoc. reflexivity.
      * apply Forall_app. split; assumption.
    + injection H as <- <-. exact (Hb _ _ _ E).
Qed.

Lemma sends_only_fetch_ticker (self : t) (ticker : string) :
  sends_only (fun t => t = ticker) (fetch_ticker self ticker).
Proof.
  unfold fetch_ticker.
  repeat first
    [ apply sends_only_bind; [|intros ?]
    | apply sends_only_http; reflexivity
    | apply sends_only_lift
    | apply sends_only_ret ].
Qed.

Lemma sends_only_fetch_from_api_loop (self : t) (tickers : list string)
    (result : list (string * gmap string value)) :
  sends_only (fun t => t ∈ tickers) (fetch_from_api_loop self tickers result).
Proof.
  revert result. induction tickers as [|ticker rest IH]; intros result; simpl.
  - apply sends_only_ret.
  - apply sends_only_bind.
    + apply sends_only_try.
      * apply sends_only_bind; [|intros ?; apply sends_only_ret].
        eapply sends_only_mono; [|apply sends_only_fetch_ticker].
        intros t ->. left.
      * intros e. apply sends_only_bind; [apply sends_only_logger|].
        intros ?. apply sends_only_ret.
    + intros r. eapply sends_only_mono; [|apply IH]. intros t Ht. right. exact Ht.
Qed.

Lemma sends_only_store_loop (P : string -> Prop) (required_fields : list string)
    (api_data result : list (string * gmap string value)) :
  sends_only P (store_loop required_fields api_data result).
Proof.
  revert result. induction api_data as [|[ticker data] rest IH]; intros result; simpl.
  - apply sends_only_ret.
  - destruct (validate_data data required_fields).
    + apply sends_only_bind; [apply sends_only_save | intros ?; apply IH].
    + apply sends_only_bind; [apply sends_only_logger | intros ?; apply IH].
Qed.

Lemma od_get_set_eq {V : Type} (k : string) (v : V) (d : list (string * V)) :
  od_get k (od_set k v d) = Some v.
Proof.
  induction d as [|[k' v'] d IH]; simpl.
  - rewrite String.eqb_refl. reflexivity.
  - destruct (String.eqb k k') eqn:E; simpl; rewrite ?String.eqb_refl, ?E; auto.
Qed.

Lemma od_get_set_ne {V : Type} (k k' : string) (v : V) (d : list (string * V)) :
  k <> k' -> od_get k (od_set k' v d) = od_get k d.
Proof.
  intros Hne. apply String.eqb_neq in Hne as Hb.
  induction d as [|[k0 v0] d IH]; simpl.
  - rewrite Hb. reflexivity.
  - destruct (String.eqb k' k0) eqn:E; simpl.
    + apply String.eqb_eq in E as <-. rewrite Hb. reflexivity.
    + rewrite IH. reflexivity.
Qed.

Lemma row_dict_lookups (ticker : string) (r : DatabaseManager.row) :
  DatabaseManager.row_dict ticker r !! "ticker" = Some (VStr ticker)
  /\ DatabaseManager.row_dict ticker r !! "timestamp" = Some (DatabaseManager.timestamp r)
  /\ DatabaseManager.row_dict ticker r !! "price" = Some (DatabaseManager.price r)
  /\ DatabaseManager.row_dict ticker r !! "shares" = Some (DatabaseManager.shares r)
  /\ DatabaseManager.row_dict ticker r !! "fcf" = Some (DatabaseManager.fcf r)
  /\ DatabaseManager.row_dict ticker r !! "sector" = Some (DatabaseManager.sector r)
  /\ DatabaseManager.row_dict ticker r !! "eps" = Some (DatabaseManager.eps r).
Proof. repeat split; reflexivity. Qed.

Lemma row_dict_nonempty (ticker : string) (r : DatabaseManager.row) :
  bool_decide (DatabaseManager.row_dict ticker r = ∅) = false.
Proof.
  apply bool_decide_eq_false_2. intros H.
  pose proof (proj1 (row_dict_lookups ticker r)) as Ht.
  rewrite H, lookup_empty in Ht. discriminate Ht.
Qed.

(** What the cache check answers for a record that carries a time stamp:
    the cached fields when nothing required is missing and the age is below
    the cache duration, a request to fetch otherwise. *)
Lemma cache_lookup_timestamped (self : t) (w : world) (required_fields : list string)
    (ticker : string) (r : DatabaseManager.row) (ts : Z) :
  db w !! ticker = Some r ->
  DatabaseManager.timestamp r = VTime ts ->
  cache_lookup self required_fields ticker w
  = (Ok (if forallb (fun field =>
                       is_not_None (dict_get (DatabaseManager.row_dict ticker r) field VNone))
                    required_fields
            && (clock w - ts <? cache_duration self)%Z
         then Some (cached_fields r) else None), w).
Proof.
  intros Hdb Hts.
  destruct (row_dict_lookups ticker r) as (_ & Lts & Lp & Ls & Lf & Lsec & Le).
  assert (Hget : db_get_cached_data ticker w
                 = (Ok (Some (DatabaseManager.row_dict ticker r)), w)).
  { unfold db_get_cached_data, DatabaseManager.get_cached_data. rewrite Hdb. reflexivity. }
  unfold cache_lookup. rewrite io_bind_run, Hget, row_dict_nonempty.
  destruct (forallb _ required_fields); [|reflexivity].
  rewrite andb_true_l.
  unfold lift, getitem. rewrite Lts, Hts. cbv iota beta.
  unfold is_cache_valid, mbind, io_bind, lift, get_clock, mret, io_ret. cbv iota beta.
  destruct (clock w - ts <? cache_duration self)%Z; [|reflexivity].
  rewrite Lp, Ls, Lf, Lsec, Le. reflexivity.
Qed.

Lemma cache_lookup_fresh (self : t) (w : world) (required_fields : list string)
    (ticker : string) (r : DatabaseManager.row) :
  complete_and_fresh self w required_fields ticker r ->
  cache_lookup self required_fields ticker w = (Ok (Some (cached_fields r)), w).
Proof.
  intros (Hdb & Hall & ts & Hts & Hage).
  rewrite (cache_lookup_timestamped self w required_fields ticker r ts Hdb Hts).
  apply Z.ltb_lt in Hage. rewrite Hage, andb_true_r.
  replace (forallb _ required_fields) with true; [reflexivity|].
  symmetry. apply forallb_forall. intros field Hin.
  rewrite Forall_forall in Hall. specialize (Hall field (proj2 (list_elem_of_In _ _) Hin)).
  destruct (dict_get _ field VNone); try reflexivity. contradiction.
Qed.

(** The cache check only reads. *)
Lemma reads_only_ret {A : Type} (a : A) : reads_only (mret a : io A).
Proof. intros w r w' [= _ <-]. reflexivity. Qed.

Lemma reads_only_lift {A : Type} (x : result A) : reads_only (lift x).
Proof. intros w r w' [= _ <-]. reflexivity. Qed.

Lemma reads_only_bind {A B : Type} (m : io A) (k : A -> io B) :
  reads_only m -> (forall a, reads_only (k a)) -> reads_only (m ≫= k).
Proof.
  intros Hm Hk w r w' H. rewrite io_bind_run in H.
  destruct (m w) as [[a|e] w1] eqn:E.
  - rewrite (Hk a _ _ _ H). exact (Hm _ _ _ E).
  - injection H as _ <-. exact (Hm _ _ _ E).
Qed.

Lemma reads_only_is_cache_valid (self : t) (timestamp_str : value) :
  reads_only (is_cache_valid self timestamp_str).
Proof.
  unfold is_cache_valid.
  apply reads_only_bind; [apply reads_only_lift|]. intros ts.
  apply reads_only_bind; [intros w r w' [= _ <-]; reflexivity|]. intros now.
  apply reads_only_ret.
Qed.

Lemma reads_only_cache_lookup (self : t) (required_fields : list string) (ticker : string) :
  reads_only (cache_lookup self required_fields ticker).
Proof.
  unfold cache_lookup.
  apply reads_only_bind; [intros w r w' [= _ <-]; reflexivity|].
  intros [cached_data|]; [|apply reads_only_ret].
  destruct (bool_decide (cached_data = ∅)); [apply reads_only_ret|].
  destruct (forallb _ required_fields); [|apply reads_only_ret].
  apply reads_only_bind; [apply reads_only_lift|]. intros ts.
  apply reads_only_bind; [apply reads_only_is_cache_valid|].
  intros [|]; [|apply reads_only_ret].
  repeat (apply reads_only_bind; [apply reads_only_lift|]; intros ?).
  apply reads_only_ret.
Qed.

Lemma reads_only_cache_loop (self : t) (required_fields tickers : list string)
    (result : list (string * gmap string value)) (to_fetch : list string) :
  reads_only (cache_loop self required_fields tickers result to_fetch).
Proof.
  revert result to_fetch. induction tickers as [|ticker rest IH]; intros result to_fetch; simpl.
  - apply reads_only_ret.
  - apply reads_only_bind; [apply reads_only_cache_lookup|].
    intros [fields|]; apply IH.
Qed.

(** A record that is complete and fresh is served from the cache: the loop
    enters it in the result and does not queue its ticker. *)
Lemma cache_loop_serves (self : t) (w : world) (required_fields : list string)
    (ticker : string) (r : DatabaseManager.row) :
  complete_and_fresh self w required_fields ticker r ->
  forall tickers result to_fetch result' to_fetch' w',
    cache_loop self required_fields tickers result to_fetch w = (Ok (result', to_fetch'), w') ->
    (ticker ∉ to_fetch -> ticker ∉ to_fetch')
    /\ (ticker ∈ tickers \/ od_get ticker result = Some (cached_fields r) ->
        od_get ticker result' = Some (cached_fields r)).
Proof.
  intros Hfresh tickers.
  induction tickers as [|t rest IH]; intros result to_fetch result' to_fetch' w' H.
  - injection H as <- <- <-. split; [auto|].
    intros [Hin | Hget]; [inversion Hin | exact Hget].
  - simpl in H. rewrite io_bind_run in H.
    destruct (cache_lookup self required_fields t w) as [[entry|e] w1] eqn:E; [|discriminate H].
    pose proof (reads_only_cache_lookup _ _ _ _ _ _ E) as ->.
    destruct (decide (t = ticker)) as [-> | Hne].
    + rewrite (cache_lookup_fresh _ _ _ _ _ Hfresh) in E. injection E as <-.
      destruct (IH _ _ _ _ _ H) as [Hq Hr]. split; [exact Hq|].
      intros _. apply Hr. right. apply od_get_set_eq.
    + destruct entry as [fields|].
      * destruct (IH _ _ _ _ _ H) as [Hq Hr]. split; [exact Hq|].
        intros [Hin | Hget]; apply Hr.
        -- apply elem_of_cons in Hin as [-> | Hin]; [contradiction | left; exact Hin].
        -- right. rewrite od_get_set_ne by congruence. exact Hget.
      * destruct (IH _ _ _ _ _ H) as [Hq Hr]. split.
        -- intros Hnot. apply Hq. intros Hin. apply elem_of_app in Hin as [Hin | Hin].
           ++ contradiction.
           ++ apply list_elem_of_singleton in Hin. congruence.
        -- intros [Hin | Hget]; apply Hr.
           ++ apply elem_of_cons in Hin as [-> | Hin]; [contradiction | left; exact Hin].
           ++ right. exact Hget.
Qed.

(** When every record asked for is complete and fresh the loop returns and
    queues nothing. *)
Lemma cache_loop_all_fresh (self : t) (w : world) (required_fields tickers : list string)
    (result : list (string * gmap string value)) (to_fetch : list string) :
  (forall t, t ∈ tickers -> exists r, complete_and_fresh self w required_fields t r) ->
  exists result',
    cache_loop self required_fields tickers result to_fetch w = (Ok (result', to_fetch), w).
Proof.
  revert result. induction tickers as [|t rest IH]; intros result Hall; simpl.
  - eexists. reflexivity.
  - destruct (Hall t) as [r Hr]; [left|].
    rewrite io_bind_run, (cache_lookup_fresh _ _ _ _ _ Hr).
    apply IH. intros t' Ht'. apply Hall. right. exact Ht'.
Qed.

(** The remote fetch and the store loop leave the entries of the tickers
    they are not given as they are. *)
Lemma fetch_from_api_loop_other (self : t) (ticker : string) (tickers : list string) :
  ticker ∉ tickers ->
  forall result w result' w',
    fetch_from_api_loop self tickers result w = (Ok result', w') ->
    od_get ticker result' = od_get ticker result.
Proof.
  induction tickers as [|t rest IH]; intros Hnot result w result' w' H; simpl in H.
  - injection H as <- _. reflexivity.
  - rewrite io_bind_run in H.
    match type of H with
    | match ?c with _ => _ end = _ => destruct c as [[entry|e] w1]; [|discriminate H]
    end.
    assert (Hne : ticker <> t) by (intros ->; apply Hnot; left).
    assert (Hrest : ticker ∉ rest) by (intros Hin; apply Hnot; right; exact Hin).
    rewrite (IH Hrest _ _ _ _ H). destruct entry; [apply od_get_set_ne, Hne | reflexivity].
Qed.

Lemma store_loop_other (required_fields : list string) (ticker : string)
    (api_data : list (string * gmap string value)) :
  od_get ticker api_data = None ->
  forall result w result' w',
    store_loop required_fields api_data result w = (Ok result', w') ->
    od_get ticker result' = od_get ticker result.
Proof.
  induction api_data as [|[t data] rest IH]; intros Hnone result w result' w' H; simpl in H.
  - injection H as <- _. reflexivity.
  - simpl in Hnone. destruct (String.eqb ticker t) eqn:Et; [discriminate Hnone|].
    apply String.eqb_neq in Et.
    destruct (validate_data data required_fields); rewrite io_bind_run in H.
    + destruct (db_save_stock_data t data w) as [[u|e] w1]; [|discriminate H].
      rewrite (IH Hnone _ _ _ _ H). apply od_get_set_ne, Et.
    + simpl in H. exact (IH Hnone _ _ _ _ H).
Qed.

(** C7. A ticker whose cached record has every required field and is
    younger than the cache duration is served from the cache: [fetch_data]
    with [use_cache] sends no request for it and, when the batch returns,
    the entry of the ticker holds the cached fields as they are. When every
    ticker asked for is such, [fetch_data] returns and leaves the world
    untouched. *)
Theorem fresh_cache_served
    (self : t) (w : world) (tickers required_fields : list string)
    (ticker : string) (r : DatabaseManager.row) :
  ticker ∈ tickers ->
  complete_and_fresh self w required_fields ticker r ->
  exists out w' new,
    fetch_data self tickers required_fields true w = (out, w')
    /\ requests w' = (requests w ++ new)%list
    /\ (forall e, (e, ticker) ∉ new)
    /\ (forall result, out = Ok result -> od_get ticker result = Some (cached_fields r))
    /\ ((forall t, t ∈ tickers -> exists r', complete_and_fresh self w required_fields t r') ->
        w' = w /\ exists result, out = Ok result).
Proof.
  intros Hin Hfresh. unfold fetch_data. rewrite io_bind_run.
  destruct (cache_loop self required_fields tickers [] [] w) as [[[res tf]|e] w1] eqn:E.
  - pose proof (reads_only_cache_loop _ _ _ _ _ _ _ _ E) as ->.
    destruct (cache_loop_serves _ _ _ _ _ Hfresh _ _ _ _ _ _ E) as [Hq Hr].
    assert (Hnot : ticker ∉ tf) by (apply Hq; inversion 1).
    assert (Hres : od_get ticker res = Some (cached_fields r)) by (apply Hr; left; exact Hin).
    case_bool_decide as Htf.
    + exists (Ok res), w, []. split; [reflexivity|]. split; [rewrite app_nil_r; reflexivity|].
      split; [intros e He; inversion He|]. split; [intros result [= <-]; exact Hres|].
      intros _. split; [reflexivity | eexists; reflexivity].
    + destruct ((fetch_from_api self tf ≫= fun api_data =>
                   store_loop required_fields api_data res) w) as [out w'] eqn:Erun.
      assert (Hsend : sends_only (fun t => t ∈ tf)
                        (fetch_from_api self tf ≫= fun api_data =>
                           store_loop required_fields api_data res)).
      { apply sends_only_bind; [apply sends_only_fetch_from_api_loop|].
        intros api_data. apply sends_only_store_loop. }
      destruct (Hsend _ _ _ Erun) as (new & Hreq & Hall).
      exists out, w', new. split; [reflexivity|]. split; [exact Hreq|]. split; [|split].
      * intros e He. rewrite Forall_forall in Hall. apply Hnot. exact (Hall _ He).
      * intros result ->. rewrite io_bind_run in Erun.
        destruct (fetch_from_api self tf w) as [[api_data|e] w2] eqn:Eapi; [|discriminate Erun].
        pose proof (fetch_from_api_loop_other self ticker tf Hnot _ _ _ _ Eapi) as Hkey.
        rewrite (store_loop_other required_fields ticker api_data Hkey _ _ _ _ Erun).
        exact Hres.
      * intros Hall'. exfalso.
        destruct (cache_loop_all_fresh self w required_fields tickers [] [] Hall')
          as [res' Hloop].
        rewrite Hloop in E. injection E as _ <-. apply Htf. reflexivity.
  - pose proof (reads_only_cache_loop _ _ _ _ _ _ _ _ E) as ->.
    exists (Raise e), w, []. split; [reflexivity|]. split; [rewrite app_nil_r; reflexivity|].
    split; [intros e' He; inversion He|]. split; [intros result [=]|].
    intros Hall'. exfalso.
    destruct (cache_loop_all_fresh self w required_fields tickers [] [] Hall') as [res' Hloop].
    rewrite Hloop in E. discriminate E.
Qed.

(** [test_caching]: the second fetch, half a day after the first, with the
    data source out of reach. *)
Lemma fresh_cache_served_witness :
  complete_and_fresh Fixtures.offline_fetcher (Fixtures.world_at 43200000000)
    default_required_fields "AAPL" Fixtures.cached_AAPL
  /\ fetch_data Fixtures.offline_fetcher ["AAPL"] default_required_fields true
       (Fixtures.world_at 43200000000)
     = (Ok [("AAPL", cached_fields Fixtures.cached_AAPL)], Fixtures.world_at 43200000000).
Proof.
  assert (Hfresh : complete_and_fresh Fixtures.offline_fetcher (Fixtures.world_at 43200000000)
                     default_required_fields "AAPL" Fixtures.cached_AAPL).
  { split; [reflexivity|]. split.
    - repeat constructor; discriminate.
    - exists 0%Z. split; [reflexivity|]. vm_compute. reflexivity. }
  split; [exact Hfresh|].
  destruct (fresh_cache_served Fixtures.offline_fetcher (Fixtures.world_at 43200000000)
              ["AAPL"] default_required_fields "AAPL" Fixtures.cached_AAPL)
    as (out & w' & new & Hrun & _ & _ & _ & Hall); [left | exact Hfresh |].
  destruct Hall as [-> [result ->]].
  - intros t Ht. apply list_elem_of_singleton in Ht as ->. eexists. exact Hfresh.
  - rewrite Hrun. vm_compute in Hrun. injection Hrun as <-. reflexivity.
Defined.

Lemma first_sends_bind {A B : Type} (rq : endpoint * string) (m : io A) (k : A -> io B) :
  first_sends rq m -> (forall a, sends_only (fun _ => True) (k a)) ->
  first_sends rq (m ≫= k).
Proof.
  intros Hm Hk w r w' H. rewrite io_bind_run in H.
  destruct (m w) as [[a|e] w1] eqn:E.
  - destruct (Hm _ _ _ E) as (rest & R1). destruct (Hk a _ _ _ H) as (new & R2 & _).
    exists (rest ++ new)%list. rewrite R2, R1, <- app_assoc. reflexivity.
  - injection H as _ <-. exact (Hm _ _ _ E).
Qed.

Lemma first_sends_http (self : t) (e : endpoint) (ticker : string) :
  first_sends (e, ticker) (http_get_json self e ticker).
Proof.
  intros w r w' H. exists []. unfold http_get_json in H.
  destruct (remote self e ticker); injection H as _ <-; reflexivity.
Qed.

Lemma first_sends_fetch_ticker (self : t) (ticker : string) :
  first_sends (Quote, ticker) (fetch_ticker self ticker).
Proof.
  unfold fetch_ticker. apply first_sends_bind; [apply first_sends_http|].
  intros price_data.
  repeat first
    [ apply sends_only_bind; [|intros ?]
    | apply sends_only_http; exact I
    | apply sends_only_lift
    | apply sends_only_ret ].
Qed.

Lemma first_sends_try_fetch (self : t) (ticker : string) :
  first_sends (Quote, ticker)
    (try_except (data ← fetch_ticker self ticker; mret (Some data))
                (fun e => _ ← logger_info (LogError ticker e); mret None)).
Proof.
  intros w r w' H. unfold try_except in H.
  destruct ((data ← fetch_ticker self ticker; mret (Some data)) w) as [[a|e] w1] eqn:E.
  - injection H as _ <-.
    refine (first_sends_bind _ _ _ (first_sends_fetch_ticker self ticker) _ _ _ _ E).
    intros a0. apply sends_only_ret.
  - assert (Hfirst : exists rest, requests w1 = (requests w ++ (Quote, ticker) :: rest)%list).
    { refine (first_sends_bind _ _ _ (first_sends_fetch_ticker self ticker) _ _ _ _ E).
      intros a0. apply sends_only_ret. }
    destruct (caught e).
    + destruct Hfirst as [rest R1].
      assert (Hlog : sends_only (fun _ => True)
                       (_ ← logger_info (LogError ticker e); mret (None : option (gmap string value)))).
      { apply sends_only_bind; [apply sends_only_logger | intros ?; apply sends_only_ret]. }
      destruct (Hlog _ _ _ H) as (new & R2 & _).
      exists (rest ++ new)%list. rewrite R2, R1, <- app_assoc. reflexivity.
    + injection H as _ <-. exact Hfirst.
Qed.

(** A remote fetch that returns has asked for the quote of each ticker. *)
Lemma fetch_from_api_loop_asks (self : t) (tickers : list string) :
  forall result w result' w',
    fetch_from_api_loop self tickers result w = (Ok result', w') ->
    exists new, requests w' = (requests w ++ new)%list
                /\ forall t, t ∈ tickers -> (Quote, t) ∈ new.
Proof.
  induction tickers as [|t rest IH]; intros result w result' w' H; simpl in H.
  - injection H as _ <-. exists []. rewrite app_nil_r. split; [reflexivity|]. inversion 1.
  - rewrite io_bind_run in H.
    match type of H with
    | match ?c with _ => _ end = _ => destruct c as [[entry|e] w1] eqn:E; [|discriminate H]
    end.
    destruct (first_sends_try_fetch self t _ _ _ E) as [rest1 R1].
    destruct (IH _ _ _ _ H) as (new2 & R2 & Hall).
    exists ((Quote, t) :: rest1 ++ new2)%list. split.
    + rewrite R2, R1, <- app_assoc. reflexivity.
    + intros t' Ht'. apply elem_of_cons in Ht' as [-> | Ht'].
      * left.
      * right. apply elem_of_app. right. apply Hall, Ht'.
Qed.

(** A ticker the cache check turns down is queued. *)
Lemma cache_loop_queues (self : t) (w : world) (required_fields : list string)
    (ticker : string) :
  cache_lookup self required_fields ticker w = (Ok None, w) ->
  forall tickers result to_fetch result' to_fetch' w',
    cache_loop self required_fields tickers result to_fetch w = (Ok (result', to_fetch'), w') ->
    ticker ∈ tickers \/ ticker ∈ to_fetch -> ticker ∈ to_fetch'.
Proof.
  intros Hmiss tickers.
  induction tickers as [|t rest IH]; intros result to_fetch result' to_fetch' w' H Hin.
  - injection H as _ <- _. destruct Hin as [Hin | Hin]; [inversion Hin | exact Hin].
  - simpl in H. rewrite io_bind_run in H.
    destruct (cache_lookup self required_fields t w) as [[entry|e] w1] eqn:E; [|discriminate H].
    pose proof (reads_only_cache_lookup _ _ _ _ _ _ E) as ->.
    destruct (decide (t = ticker)) as [-> | Hne].
    + rewrite Hmiss in E. injection E as <-.
      apply (IH _ _ _ _ _ H). right. apply elem_of_app. right. left.
    + assert (Hin' : ticker ∈ rest \/ ticker ∈ to_fetch).
      { destruct Hin as [Hin | Hin]; [|right; exact Hin].
        apply elem_of_cons in Hin as [-> | Hin]; [contradiction | left; exact Hin]. }
      destruct entry as [fields|].
      * apply (IH _ _ _ _ _ H). exact Hin'.
      * apply (IH _ _ _ _ _ H). destruct Hin' as [Hin' | Hin']; [left; exact Hin'|].
        right. apply elem_of_app. left. exact Hin'.
Qed.

(** C8. The freshness test is the strict comparison of the age with the
    cache duration. A cached record whose age equals the cache duration is
    expired: [is_cache_valid] answers [False], the cache check turns the
    ticker down, and [fetch_data] goes to the data source for it (alone in
    the batch: the request for its quote is the first one sent; in any batch
    that returns: the request for its quote has been sent). *)
Theorem cache_expires_at_the_boundary
    (self : t) (w : world) (required_fields : list string)
    (ticker : string) (r : DatabaseManager.row) (ts : Z) :
  db w !! ticker = Some r ->
  DatabaseManager.timestamp r = VTime ts ->
  (clock w - ts = cache_duration self)%Z ->
  is_cache_valid self (VTime ts) w = (Ok false, w)
  /\ cache_lookup self required_fields ticker w = (Ok None, w)
  /\ (exists out w' rest,
        fetch_data self [ticker] required_fields true w = (out, w')
        /\ requests w' = (requests w ++ (Quote, ticker) :: rest)%list)
  /\ (forall tickers result w',
        ticker ∈ tickers ->
        fetch_data self tickers required_fields true w = (Ok result, w') ->
        exists new, requests w' = (requests w ++ new)%list /\ (Quote, ticker) ∈ new).
Proof.
  intros Hdb Hts Hage.
  assert (Hvalid : is_cache_valid self (VTime ts) w = (Ok false, w)).
  { unfold is_cache_valid, mbind, io_bind, lift, get_clock, mret, io_ret.
    rewrite Hage, Z.ltb_irrefl. reflexivity. }
  assert (Hmiss : cache_lookup self required_fields ticker w = (Ok None, w)).
  { rewrite (cache_lookup_timestamped self w required_fields ticker r ts Hdb Hts).
    rewrite Hage, Z.ltb_irrefl, andb_false_r. reflexivity. }
  split; [exact Hvalid|]. split; [exact Hmiss|]. split.
  - unfold fetch_data. rewrite io_bind_run. simpl cache_loop.
    rewrite io_bind_run, Hmiss. simpl app.
    unfold mret at 1, io_ret. rewrite bool_decide_eq_false_2 by discriminate.
    destruct ((fetch_from_api self [ticker] ≫= fun api_data =>
                 store_loop required_fields api_data []) w) as [out w'] eqn:Erun.
    assert (Hfirst : first_sends (Quote, ticker)
                       (fetch_from_api self [ticker] ≫= fun api_data =>
                          store_loop required_fields api_data [])).
    { apply first_sends_bind; [|intros ?; apply sends_only_store_loop].
      unfold fetch_from_api. simpl fetch_from_api_loop.
      apply first_sends_bind; [apply first_sends_try_fetch|].
      intros entry. apply sends_only_ret. }
    destruct (Hfirst _ _ _ Erun) as [rest Hrest].
    exists out, w', rest. split; [reflexivity | exact Hrest].
  - intros tickers result w' Hin Hrun. unfold fetch_data in Hrun. rewrite io_bind_run in Hrun.
    destruct (cache_loop self required_fields tickers [] [] w) as [[[res tf]|e] w1] eqn:E;
      [|discriminate Hrun].
    pose proof (reads_only_cache_loop _ _ _ _ _ _ _ _ E) as ->.
    pose proof (cache_loop_queues _ _ _ _ Hmiss _ _ _ _ _ _ E (or_introl Hin)) as Hq.
    rewrite bool_decide_eq_false_2 in Hrun by (intros ->; inversion Hq).
    rewrite io_bind_run in Hrun.
    destruct (fetch_from_api self tf w) as [[api_data|e] w2] eqn:Eapi; [|discriminate Hrun].
    destruct (fetch_from_api_loop_asks _ _ _ _ _ _ Eapi) as (new1 & R1 & Hall).
    destruct (sends_only_store_loop (fun _ => True) _ _ _ _ _ _ Hrun) as (new2 & R2 & _).
    exists (new1 ++ new2)%list. split.
    + rewrite R2, R1, <- app_assoc. reflexivity.
    + apply elem_of_app. left. apply Hall, Hq.
Qed.

(** [test_cache_expiration], on the boundary: the record of AAPL is exactly
    one day old and the data source is out of reach. *)
Lemma cache_expires_at_the_boundary_witness :
  (DataFetcher.clock (Fixtures.world_at Fixtures.one_day) - 0
   = cache_duration Fixtures.offline_fetcher)%Z
  /\ is_cache_valid Fixtures.offline_fetcher (VTime 0) (Fixtures.world_at Fixtures.one_day)
     = (Ok false, Fixtures.world_at Fixtures.one_day)
  /\ exists out w' rest,
       fetch_data Fixtures.offline_fetcher ["AAPL"] default_required_fields true
         (Fixtures.world_at Fixtures.one_day) = (out, w')
       /\ requests w' = (Quote, "AAPL") :: rest.
Proof.
  assert (Hage : (DataFetcher.clock (Fixtures.world_at Fixtures.one_day) - 0
                  = cache_duration Fixtures.offline_fetcher)%Z) by reflexivity.
  destruct (cache_expires_at_the_boundary Fixtures.offline_fetcher
              (Fixtures.world_at Fixtures.one_day) default_required_fields
              "AAPL" Fixtures.cached_AAPL 0 eq_refl eq_refl Hage)
    as (Hvalid & _ & (out & w' & rest & Hrun & Hreq) & _).
  split; [exact Hage|]. split; [exact Hvalid|].
  exists out, w', rest. split; [exact Hrun | exact Hreq].
Defined.

(** One microsecond short of the boundary the record is still served. *)
Lemma cache_valid_below_the_boundary (self : t) (w : world) (ts : Z) :
  (clock w - ts < cache_duration self)%Z ->
  is_cache_valid self (VTime ts) w = (Ok true, w).
Proof.
  intros H. unfold is_cache_valid, mbind, io_bind, lift, get_clock, mret, io_ret.
  apply Z.ltb_lt in H. rewrite H. reflexivity.
Qed.

(** C9 fails on the code: a quote that comes back as the JSON body [[null]]
    makes ['price' in price_data[0]] raise [TypeError], which the [except]
    clause of [fetch_from_api] does not list; the exception leaves
    [fetch_data] after the first request and no ticker of the batch is
    served, although AAPL on its own is. *)
Theorem malformed_body_aborts_batch :
  extract "price" (JArray [IScalar SNull]) = Raise TypeError
  /\ caught TypeError = false
  /\ fetch_data (Fixtures.fetcher_of Fixtures.remote_with_null_quote) ["BAD"; "AAPL"]
       default_required_fields true Fixtures.empty_world
     = (Raise TypeError,
        {| db := ∅; clock := 0; requests := [(Quote, "BAD")]; log := [] |})
  /\ fst (fetch_data (Fixtures.fetcher_of Fixtures.remote_with_null_quote) ["AAPL"]
            default_required_fields true Fixtures.empty_world)
     = Ok [("AAPL", Fixtures.complete_record)].
Proof.
  split; [reflexivity|]. split; [reflexivity|].
  split; [vm_compute; reflexivity | vm_compute; reflexivity].
Qed.

(** A failure the [except] clause lists is contained: with an error object
    in place of the quote ([KeyError]) the batch goes on and serves AAPL. *)
Lemma error_object_skips_ticker :
  extract "price" (JObject {[ "Error Message" := SStr "Limit Reach" ]}) = Raise KeyError
  /\ exists w',
       fetch_data (Fixtures.fetcher_of Fixtures.remote_with_error_object) ["BAD"; "AAPL"]
         default_required_fields true Fixtures.empty_world
       = (Ok [("AAPL", Fixtures.complete_record)], w')
       /\ log w' = [LogError "BAD" KeyError]
       /\ db w' !! "BAD" = None.
Proof.
  split; [reflexivity|]. eexists.
  split; [vm_compute; reflexivity|]. split; [reflexivity | vm_compute; reflexivity].
Qed.

(** *** Failures the [except] clause lists are contained *)

Lemma oblivious_ret {A : Type} (a : A) : oblivious (mret a : io A).
Proof. intros w1 w2. reflexivity. Qed.

Lemma oblivious_lift {A : Type} (x : result A) : oblivious (lift x).
Proof. intros w1 w2. reflexivity. Qed.

Lemma oblivious_bind {A B : Type} (m : io A) (k : A -> io B) :
  oblivious m -> (forall a, oblivious (k a)) -> oblivious (m ≫= k).
Proof.
  intros Hm Hk w1 w2. rewrite !io_bind_run. specialize (Hm w1 w2).
  destruct (m w1) as [[a1|e1] w1'], (m w2) as [[a2|e2] w2']; simpl in Hm;
    try discriminate Hm.
  - injection Hm as <-. apply Hk.
  - injection Hm as <-. reflexivity.
Qed.

Lemma oblivious_http (self : t) (e : endpoint) (ticker : string) :
  oblivious (http_get_json self e ticker).
Proof. intros w1 w2. unfold http_get_json. destruct (remote self e ticker); reflexivity. Qed.

Lemma oblivious_try {A : Type} (body : io A) (handler : exn -> io A) :
  oblivious body -> (forall e, oblivious (handler e)) -> oblivious (try_except body handler).
Proof.
  intros Hb Hh w1 w2. unfold try_except. specialize (Hb w1 w2).
  destruct (body w1) as [[a1|e1] w1'], (body w2) as [[a2|e2] w2']; simpl in Hb;
    try discriminate Hb.
  - exact Hb.
  - injection Hb as <-. destruct (caught e1); [apply Hh | reflexivity].
Qed.

Lemma oblivious_fetch_ticker (self : t) (ticker : string) :
  oblivious (fetch_ticker self ticker).
Proof.
  unfold fetch_ticker.
  repeat first
    [ apply oblivious_bind; [|intros ?]
    | apply oblivious_http
    | apply oblivious_lift
    | apply oblivious_ret ].
Qed.

Lemma oblivious_try_fetch (self : t) (ticker : string) :
  oblivious (try_except (data ← fetch_ticker self ticker; mret (Some data))
                        (fun e => _ ← logger_info (LogError ticker e); mret None)).
Proof.
  apply oblivious_try.
  - apply oblivious_bind; [apply oblivious_fetch_ticker | intros ?; apply oblivious_ret].
  - intros e. apply oblivious_bind; [intros w1 w2; reflexivity | intros ?; apply oblivious_ret].
Qed.

(** Whether a record can be stored depends on the record alone. *)
Lemma oblivious_save (ticker : string) (data : gmap string value) :
  oblivious (db_save_stock_data ticker data).
Proof.
  intros w1 w2. unfold db_save_stock_data, DatabaseManager.save_stock_data.
  destruct (DatabaseManager.real_column (dict_get data "price" VNone)); [|reflexivity].
  destruct (DatabaseManager.real_column (dict_get data "shares" VNone)); [|reflexivity].
  destruct (DatabaseManager.real_column (dict_get data "fcf" VNone)); [|reflexivity].
  destruct (DatabaseManager.text_column (dict_get data "sector" VNone)); [|reflexivity].
  destruct (DatabaseManager.real_column (dict_get data "eps" VNone)); reflexivity.
Qed.

Lemma oblivious_store_loop (required_fields : list string)
    (api_data result : list (string * gmap string value)) :
  oblivious (store_loop required_fields api_data result).
Proof.
  revert result. induction api_data as [|[ticker data] rest IH]; intros result; simpl.
  - apply oblivious_ret.
  - destruct (validate_data data required_fields).
    + apply oblivious_bind; [apply oblivious_save | intros ?; apply IH].
    + apply oblivious_bind; [intros w1 w2; reflexivity | intros ?; apply IH].
Qed.

Lemma without_app (s : string) (l1 l2 : list string) :
  without s (l1 ++ l2) = (without s l1 ++ without s l2)%list.
Proof. apply List.filter_app. Qed.

(** The lookups of the failing ticker leave a line in the log and nothing in
    the result. *)
Lemma try_fetch_contained (self : t) (s : string) (e : exn) (w0 w : world) :
  fst (fetch_ticker self s w0) = Raise e -> caught e = true ->
  fst (try_except (data ← fetch_ticker self s; mret (Some data))
                  (fun e => _ ← logger_info (LogError s e); mret None) w) = Ok None.
Proof.
  intros Hfail Hcaught. unfold try_except. rewrite io_bind_run.
  pose proof (oblivious_fetch_ticker self s w w0) as Hsame. rewrite Hfail in Hsame.
  destruct (fetch_ticker self s w) as [[a|e'] w1]; simpl in Hsame; [discriminate Hsame|].
  injection Hsame as ->. rewrite Hcaught. reflexivity.
Qed.

Lemma fetch_from_api_loop_without (self : t) (s : string) (e : exn) (w0 : world) :
  fst (fetch_ticker self s w0) = Raise e -> caught e = true ->
  forall tickers result w w',
    fst (fetch_from_api_loop self tickers result w)
    = fst (fetch_from_api_loop self (without s tickers) result w').
Proof.
  intros Hfail Hcaught tickers.
  induction tickers as [|t rest IH]; intros result w w'; simpl.
  - reflexivity.
  - destruct (String.eqb t s) eqn:Ets; simpl negb; cbv iota.
    + apply String.eqb_eq in Ets as ->. rewrite io_bind_run.
      pose proof (try_fetch_contained self s e w0 w Hfail Hcaught) as Hskip.
      match type of Hskip with
      | fst ?c = _ => destruct c as [[entry|e'] w1]
      end; simpl in Hskip; [|discriminate Hskip].
      injection Hskip as ->. apply IH.
    + simpl. rewrite !io_bind_run.
      pose proof (oblivious_try_fetch self t w w') as Hsame.
      match type of Hsame with
      | fst ?c1 = fst ?c2 =>
          destruct c1 as [[entry1|e1] w1], c2 as [[entry2|e2] w2]
      end; simpl in Hsame; try discriminate Hsame.
      * injection Hsame as <-. apply IH.
      * injection Hsame as <-. reflexivity.
Qed.

Lemma cache_loop_without (self : t) (w : world) (required_fields : list string) (s : string) :
  cache_lookup self required_fields s w = (Ok None, w) ->
  forall tickers result to_fetch,
    fst (cache_loop self required_fields (without s tickers) result (without s to_fetch) w)
    = match fst (cache_loop self required_fields tickers result to_fetch w) with
      | Ok (result', to_fetch') => Ok (result', without s to_fetch')
      | Raise e => Raise e
      end.
Proof.
  intros Hmiss tickers.
  induction tickers as [|t rest IH]; intros result to_fetch; simpl.
  - reflexivity.
  - destruct (String.eqb t s) eqn:Ets; simpl negb; cbv iota.
    + apply String.eqb_eq in Ets as ->. rewrite io_bind_run, Hmiss.
      rewrite <- IH, without_app. simpl without. rewrite String.eqb_refl. simpl negb.
      cbv iota. rewrite app_nil_r. reflexivity.
    + simpl. rewrite !io_bind_run.
      destruct (cache_lookup self required_fields t w) as [[entry|e] w1] eqn:E.
      * pose proof (reads_only_cache_lookup _ _ _ _ _ _ E) as ->.
        destruct entry as [fields|].
        -- apply IH.
        -- rewrite <- IH, without_app. simpl without. rewrite Ets. reflexivity.
      * reflexivity.
Qed.

(** The failure of the lookups of a ticker [s], of a kind the [except]
    clause lists, takes [s] out of the batch and nothing else: [fetch_data]
    returns what it returns for the batch without [s] (and raises what it
    raises for that batch). *)
Lemma caught_failure_contained (self : t) (w w0 : world) (tickers required_fields : list string)
    (use_cache : bool) (s : string) (e : exn) :
  fst (fetch_ticker self s w0) = Raise e -> caught e = true ->
  (use_cache = true -> cache_lookup self required_fields s w = (Ok None, w)) ->
  fst (fetch_data self tickers required_fields use_cache w)
  = fst (fetch_data self (without s tickers) required_fields use_cache w).
Proof.
  intros Hfail Hcaught Hmiss.
  assert (Hapi : forall to_fetch result,
             fst ((if bool_decide (to_fetch = [])
                   then mret result
                   else api_data ← fetch_from_api self to_fetch;
                        store_loop required_fields api_data result) w)
             = fst ((if bool_decide (without s to_fetch = [])
                     then mret result
                     else api_data ← fetch_from_api self (without s to_fetch);
                          store_loop required_fields api_data result) w)).
  { intros to_fetch result.
    pose proof (fetch_from_api_loop_without self s e w0 Hfail Hcaught to_fetch [] w w) as Hsame.
    case_bool_decide as H1; case_bool_decide as H2.
    - reflexivity.
    - rewrite H1 in H2. contradiction.
    - rewrite io_bind_run. unfold fetch_from_api. rewrite H2 in Hsame. simpl in Hsame.
      destruct (fetch_from_api_loop self to_fetch [] w) as [[api_data|e'] w1];
        simpl in Hsame; [|discriminate Hsame].
      injection Hsame as ->. reflexivity.
    - rewrite !io_bind_run. unfold fetch_from_api.
      destruct (fetch_from_api_loop self to_fetch [] w) as [[d1|e1] w1],
               (fetch_from_api_loop self (without s to_fetch) [] w) as [[d2|e2] w2];
        simpl in Hsame; try discriminate Hsame.
      + injection Hsame as <-. apply oblivious_store_loop.
      + injection Hsame as <-. reflexivity. }
  unfold fetch_data. destruct use_cache.
  - rewrite !io_bind_run.
    pose proof (cache_loop_without self w required_fields s (Hmiss eq_refl) tickers [] [])
      as Hloop.
    simpl without in Hloop at 2.
    destruct (cache_loop self required_fields tickers [] [] w) as [[[res tf]|e1] w1] eqn:E1,
             (cache_loop self required_fields (without s tickers) [] [] w)
               as [[[res' tf']|e2] w2] eqn:E2;
      simpl in Hloop; try discriminate Hloop.
    + injection Hloop as -> ->.
      pose proof (reads_only_cache_loop _ _ _ _ _ _ _ _ E1) as ->.
      pose proof (reads_only_cache_loop _ _ _ _ _ _ _ _ E2) as ->.
      apply Hapi.
    + injection Hloop as ->. reflexivity.
  - rewrite !io_bind_run. unfold mret at 1 3, io_ret. apply Hapi.
Qed.
End Fetcher.

(** ** The repository's tests, run on the embedding *)

Example test_complete_data :
  exists q,
    IntrinsicValueCalculator.get_intrinsic_value Fixtures.config_manager
      Fixtures.AAPL_with_estimates = Ok (VNum q)
    /\ q == 181.25.
Proof. eexists. split; vm_compute; reflexivity. Qed.

Example test_no_calculable_values :
  IntrinsicValueCalculator.get_intrinsic_value Fixtures.config_manager
    Fixtures.XYZ_unvaluable = Ok VNone.
Proof. vm_compute. reflexivity. Qed.

Example test_analyze_stocks_no_filters :
  exists rows,
    StockAnalyzer.analyze Fixtures.config_manager Fixtures.stock_data ∅ None
    = Ok (StockAnalyzer.Ranked rows)
    /\ Fixtures.tickers_of rows
       = [Some (VStr "ZDGE"); Some (VStr "AAPL"); Some (VStr "MSFT"); Some (VStr "TSLA")].
Proof. eexists. split; vm_compute; reflexivity. Qed.

Example test_analyze_stocks_sector_grouping :
  exists rows,
    StockAnalyzer.analyze Fixtures.config_manager Fixtures.stock_data
      Fixtures.basic_filters (Some ["Technology"])
    = Ok (StockAnalyzer.Grouped [("Technology", rows)])
    /\ Fixtures.tickers_of rows = [Some (VStr "ZDGE"); Some (VStr "AAPL")].
Proof. eexists. split; vm_compute; reflexivity. Qed.

Example test_analyze_stocks_amex_negative_eps :
  exists rows,
    StockAnalyzer.analyze Fixtures.config_manager [("ZDGE", Fixtures.ZDGE)]
      {[ "exclude_negative_pe" := VBool true ]} None
    = Ok (StockAnalyzer.Ranked rows)
    /\ Fixtures.tickers_of rows = [Some (VStr "ZDGE")].
Proof. eexists. split; vm_compute; reflexivity. Qed.

Example test_set_sector_params :
  exists cm,
    ConfigManager.set_sector_params "t1" "Technology" (Some 0.09) (Some 26) None
      (ConfigManager.init "t0") = (Ok tt, cm)
    /\ ConfigManager.get_sector_params cm (VStr "Technology")
       = ConfigManager.sector_entry 0.09 26 0.10
    /\ ConfigManager.file cm
       = Some (ConfigManager.config
                 (ConfigManager.with_sectors
                    (ConfigManager.sectors (ConfigManager.config cm))
                    (ConfigManager.init "t0"))).
Proof.
  destruct (ConfigManager.set_sector_params "t1" "Technology" (Some 0.09) (Some 26) None
              (ConfigManager.init "t0")) as [r cm] eqn:E.
  assert (T : match ConfigManager.set_sector_params "t1" "Technology" (Some 0.09) (Some 26)
                      None (ConfigManager.init "t0") with
              | (Ok _, _) => true
              | _ => false
              end = true) by (vm_compute; reflexivity).
  rewrite E in T. destruct r as [[]|e]; [|discriminate T].
  exists cm. split; [reflexivity|].
  change cm with (snd (Ok tt, cm)). rewrite <- E.
  split; vm_compute; reflexivity.
Qed.

Example test_incomplete_data :
  DataFetcher.fetch_data (Fixtures.fetcher_of Fixtures.remote_without_fcf) ["AAPL"]
    DataFetcher.default_required_fields true Fixtures.empty_world
  = (Ok [],
     {| DataFetcher.db := ∅;
        DataFetcher.clock := 0;
        DataFetcher.requests :=
          [(DataFetcher.Quote, "AAPL"); (DataFetcher.Profile, "AAPL");
           (DataFetcher.CashFlowStatement, "AAPL"); (DataFetcher.IncomeStatement, "AAPL")];
        DataFetcher.log := [DataFetcher.LogMissing "AAPL" ["fcf"]] |}).
Proof. vm_compute. reflexivity. Qed.

Example test_api_error :
  DataFetcher.fetch_data (Fixtures.fetcher_of Fixtures.remote_not_found) ["AAPL"]
    DataFetcher.default_required_fields true Fixtures.empty_world
  = (Ok [],
     {| DataFetcher.db := ∅;
        DataFetcher.clock := 0;
        DataFetcher.requests := [(DataFetcher.Quote, "AAPL")];
        DataFetcher.log := [DataFetcher.LogError "AAPL" RequestException] |}).
Proof. vm_compute. reflexivity. Qed.

Example test_caching :
  exists w1,
    DataFetcher.fetch_data (Fixtures.fetcher_of Fixtures.complete_remote) ["AAPL"]
      DataFetcher.default_required_fields true Fixtures.empty_world
    = (Ok [("AAPL", Fixtures.complete_record)], w1)
    /\ length (DataFetcher.requests w1) = 4%nat
    /\ exists w2,
         DataFetcher.fetch_data (Fixtures.fetcher_of Fixtures.complete_remote) ["AAPL"]
           DataFetcher.default_required_fields true w1
         = (Ok [("AAPL", Fixtures.complete_record)], w2)
         /\ length (DataFetcher.requests w2) = 4%nat.
Proof.
  eexists. split; [vm_compute; reflexivity|]. split; [reflexivity|].
  eexists. split; [vm_compute; reflexivity | reflexivity].
Qed.

(** * Further properties *)

(** ** The configuration store: accepted updates, seeds, persistence *)

Section ConfigManagerMore.
Import ConfigManager.

Lemma save_config_saved (now : string) (cm : t) : saved (save_config now cm).
Proof. exists (config cm). repeat split. Qed.

Lemma supplied_cases (g pe d : option Q) (k : string) :
  (k = "growth_rate" /\ supplied g pe d k = g)
  \/ (k = "pe_ratio" /\ supplied g pe d k = pe)
  \/ (k = "discount_rate" /\ supplied g pe d k = d)
  \/ (k <> "growth_rate" /\ k <> "pe_ratio" /\ k <> "discount_rate"
      /\ supplied g pe d k = None).
Proof.
  unfold supplied.
  destruct (String.eqb k "growth_rate") eqn:E1; [apply String.eqb_eq in E1; auto|].
  destruct (String.eqb k "pe_ratio") eqn:E2; [apply String.eqb_eq in E2; auto|].
  destruct (String.eqb k "discount_rate") eqn:E3; [apply String.eqb_eq in E3; auto 6|].
  apply String.eqb_neq in E1, E2, E3. auto 10.
Qed.

(** One optional assignment [params[key] = v] of [set_sector_params]. *)
Lemma set_param_lookup_present (sector key : string) (v : Q) (cm : t) (k : string) :
  is_Some (sectors (config cm) !! sector) ->
  get_sector_params (set_param sector key v cm) (VStr sector) !! k
  = if decide (key = k) then Some (VNum v) else get_sector_params cm (VStr sector) !! k.
Proof. intros [p Hp]. rewrite set_param_lookup, Hp. reflexivity. Qed.

Lemma set_param_other_sector (sector key : string) (v : Q) (cm : t) (s : string) :
  s <> sector ->
  sectors (config (set_param sector key v cm)) !! s = sectors (config cm) !! s.
Proof. intros Hs. apply set_param_frame. exact Hs. Qed.

(** X1. An update of sector parameters whose supplied values are all valid
    returns; afterwards the sector reads back every supplied value and, under
    every other key, what it held before; the other sectors and the seed
    settings are as before, and the file holds the sectors and seed settings
    that are in memory. *)
Theorem valid_update_stored
    (now sector : string) (g pe d : option Q) (cm : t) :
  (forall x, g = Some x -> 0 <= x /\ x <= 1) ->
  (forall x, pe = Some x -> 0 < x) ->
  (forall x, d = Some x -> 0 <= x /\ x <= 1) ->
  exists cm',
    set_sector_params now sector g pe d cm = (Ok tt, cm')
    /\ (forall k,
          get_sector_params cm' (VStr sector) !! k
          = match supplied g pe d k with
            | Some x => Some (VNum x)
            | None => get_sector_params cm (VStr sector) !! k
            end)
    /\ (forall s, s <> sector -> sectors (config cm') !! s = sectors (config cm) !! s)
    /\ random_seed (config cm') = random_seed (config cm)
    /\ last_updated (config cm') = now
    /\ saved cm'.
Proof.
  intros Hg Hpe Hd. unfold set_sector_params.
  pose proof (ensure_sector_frame sector cm) as (_ & R0 & _ & S0).
  pose proof (ensure_sector_present sector cm) as P0.
  pose proof (ensure_sector_params sector cm) as L0.
  set (cm0 := ensure_sector sector cm) in *.
  (* growth rate *)
  set (cm1 := match g with Some x => set_param sector "growth_rate" x cm0 | None => cm0 end).
  assert (H1 : (match g with
                | Some x =>
                    if negb (in_unit_interval x)
                    then (Raise (ValueError "Growth rate must be between 0 and 1."), cm0)
                    else (Ok tt, set_param sector "growth_rate" x cm0)
                | None => (Ok tt, cm0)
                end) = (Ok tt, cm1)).
  { subst cm1. destruct g as [x|]; [|reflexivity].
    rewrite (proj2 (in_unit_interval_iff x) (Hg x eq_refl)). reflexivity. }
  rewrite H1. cbv iota beta.
  assert (P1 : is_Some (sectors (config cm1) !! sector)).
  { subst cm1. destruct g; [apply set_param_present|]; exact P0. }
  (* P/E ratio *)
  set (cm2 := match pe with Some x => set_param sector "pe_ratio" x cm1 | None => cm1 end).
  assert (H2 : (match pe with
                | Some x =>
                    if Qle_bool x 0
                    then (Raise (ValueError "P/E ratio must be positive."), cm1)
                    else (Ok tt, set_param sector "pe_ratio" x cm1)
                | None => (Ok tt, cm1)
                end) = (Ok tt, cm2)).
  { subst cm2. destruct pe as [x|]; [|reflexivity].
    rewrite (proj2 (Qle_bool_false_iff x 0) (Hpe x eq_refl)). reflexivity. }
  rewrite H2. cbv iota beta.
  assert (P2 : is_Some (sectors (config cm2) !! sector)).
  { subst cm2. destruct pe; [apply set_param_present|]; exact P1. }
  (* discount rate *)
  set (cm3 := match d with Some x => set_param sector "discount_rate" x cm2 | None => cm2 end).
  assert (H3 : (match d with
                | Some x =>
                    if negb (in_unit_interval x)
                    then (Raise (ValueError "Discount rate must be between 0 and 1."), cm2)
                    else (Ok tt, set_param sector "discount_rate" x cm2)
                | None => (Ok tt, cm2)
                end) = (Ok tt, cm3)).
  { subst cm3. destruct d as [x|]; [|reflexivity].
    rewrite (proj2 (in_unit_interval_iff x) (Hd x eq_refl)). reflexivity. }
  rewrite H3. cbv iota beta.
  exists (save_config now cm3). split; [reflexivity|].
  assert (L1 : forall k, get_sector_params cm1 (VStr sector) !! k
                         = match g with
                           | Some x => if decide ("growth_rate" = k) then Some (VNum x)
                                       else get_sector_params cm (VStr sector) !! k
                           | None => get_sector_params cm (VStr sector) !! k
                           end).
  { intros k. subst cm1. destruct g as [x|].
    - rewrite (set_param_lookup_present _ _ _ _ _ P0), L0. reflexivity.
    - rewrite L0. reflexivity. }
  assert (L2 : forall k, get_sector_params cm2 (VStr sector) !! k
                         = match pe with
                           | Some x => if decide ("pe_ratio" = k) then Some (VNum x)
                                       else get_sector_params cm1 (VStr sector) !! k
                           | None => get_sector_params cm1 (VStr sector) !! k
                           end).
  { intros k. subst cm2. destruct pe as [x|]; [|reflexivity].
    apply (set_param_lookup_present _ _ _ _ _ P1). }
  assert (L3 : forall k, get_sector_params cm3 (VStr sector) !! k
                         = match d with
                           | Some x => if decide ("discount_rate" = k) then Some (VNum x)
                                       else get_sector_params cm2 (VStr sector) !! k
                           | None => get_sector_params cm2 (VStr sector) !! k
                           end).
  { intros k. subst cm3. destruct d as [x|]; [|reflexivity].
    apply (set_param_lookup_present _ _ _ _ _ P2). }
  split.
  { intros k. change (get_sector_params (save_config now cm3) (VStr sector))
      with (get_sector_params cm3 (VStr sector)).
    rewrite L3.
    destruct (supplied_cases g pe d k) as
      [[-> ->] | [[-> ->] | [[-> ->] | (N1 & N2 & N3 & ->)]]].
    - destruct d; [rewrite decide_False by discriminate|]; rewrite L2;
        (destruct pe; [rewrite decide_False by discriminate|]); rewrite L1;
        (destruct g; [rewrite decide_True by reflexivity|]); reflexivity.
    - destruct d; [rewrite decide_False by discriminate|]; rewrite L2;
        (destruct pe; [rewrite decide_True by reflexivity; reflexivity|]); rewrite L1;
        (destruct g; [rewrite decide_False by discriminate|]); reflexivity.
    - destruct d; [rewrite decide_True by reflexivity; reflexivity|]. rewrite L2.
      destruct pe; [rewrite decide_False by discriminate|]; rewrite L1;
        (destruct g; [rewrite decide_False by discriminate|]); reflexivity.
    - destruct d; [rewrite decide_False by congruence|]; rewrite L2;
        (destruct pe; [rewrite decide_False by congruence|]); rewrite L1;
        (destruct g; [rewrite decide_False by congruence|]); reflexivity. }
  split.
  { intros s Hs. change (sectors (config (save_config now cm3))) with (sectors (config cm3)).
    subst cm3 cm2 cm1.
    destruct d; [rewrite set_param_other_sector by exact Hs|];
      (destruct pe; [rewrite set_param_other_sector by exact Hs|]);
      (destruct g; [rewrite set_param_other_sector by exact Hs|]); apply S0, Hs. }
  split.
  { change (random_seed (config (save_config now cm3))) with (random_seed (config cm3)).
    subst cm3 cm2 cm1. destruct d, pe, g; exact R0. }
  split; [reflexivity | apply save_config_saved].
Qed.

(** [test_set_sector_params] *)
Lemma valid_update_stored_witness :
  exists cm',
    set_sector_params "t1" "Technology" (Some 0.09) (Some 26) None (init "t0") = (Ok tt, cm')
    /\ get_sector_params cm' (VStr "Technology") !! "growth_rate" = Some (VNum 0.09)
    /\ get_sector_params cm' (VStr "Technology") !! "pe_ratio" = Some (VNum 26)
    /\ get_sector_params cm' (VStr "Technology") !! "discount_rate" = Some (VNum 0.10).
Proof.
  destruct (valid_update_stored "t1" "Technology" (Some 0.09) (Some 26) None (init "t0"))
    as (cm' & Hrun & Hk & _).
  - intros x [= <-]. split; unfold Qle; simpl; lia.
  - intros x [= <-]. unfold Qlt. simpl. lia.
  - intros x [=].
  - exists cm'. split; [exact Hrun|].
    split; [rewrite Hk; reflexivity|]. split; [rewrite Hk; reflexivity|].
    rewrite Hk. reflexivity.
Defined.

(** X2. Asking for the mode [specify] without a value raises, but only
    after the mode has been switched in memory: nothing else changes and the
    file is not written; if no value had been stored before, every later
    [get_random_seed] raises. *)
Theorem specify_without_value_switches_mode (now : string) (cm : t) :
  exists cm',
    set_random_seed_mode now "specify" None cm
    = (Raise (ValueError "Value must be provided when mode is 'specify'."), cm')
    /\ mode (random_seed (config cm')) = "specify"
    /\ seed_value (random_seed (config cm')) = seed_value (random_seed (config cm))
    /\ last_used (random_seed (config cm')) = last_used (random_seed (config cm))
    /\ sectors (config cm') = sectors (config cm)
    /\ file cm' = file cm
    /\ (seed_value (random_seed (config cm)) = None ->
        forall now' draw,
          get_random_seed now' draw cm'
          = (Raise (ValueError "Random seed value is not specified."), cm')).
Proof.
  eexists. split; [reflexivity|]. repeat split.
  intros Hnone now' draw. unfold get_random_seed. simpl. rewrite Hnone. reflexivity.
Qed.

Lemma specify_without_value_switches_mode_witness :
  exists cm',
    set_random_seed_mode "t1" "specify" None (init "t0")
    = (Raise (ValueError "Value must be provided when mode is 'specify'."), cm')
    /\ get_random_seed "t2" 7 cm'
       = (Raise (ValueError "Random seed value is not specified."), cm').
Proof.
  destruct (specify_without_value_switches_mode "t1" (init "t0"))
    as (cm' & Hrun & _ & _ & _ & _ & _ & Hlater).
  exists cm'. split; [exact Hrun|]. apply Hlater. reflexivity.
Defined.

(** X3. In the mode [reuse], [get_random_seed] returns the seed last used
    and changes nothing, unless that seed is [None] or [0]: then it returns
    the fresh draw, records it as last used and saves. *)
Theorem reuse_returns_last_used (now : string) (draw : Z) (cm : t) :
  mode (random_seed (config cm)) = "reuse" ->
  (forall seed, last_used (random_seed (config cm)) = Some seed -> seed <> 0%Z ->
                get_random_seed now draw cm = (Ok seed, cm))
  /\ (last_used (random_seed (config cm)) = None
      \/ last_used (random_seed (config cm)) = Some 0%Z ->
      exists cm',
        get_random_seed now draw cm = (Ok draw, cm')
        /\ last_used (random_seed (config cm')) = Some draw
        /\ mode (random_seed (config cm')) = "reuse"
        /\ seed_value (random_seed (config cm')) = seed_value (random_seed (config cm))
        /\ sectors (config cm') = sectors (config cm)
        /\ saved cm').
Proof.
  intros Hmode. unfold get_random_seed. rewrite Hmode. simpl String.eqb. cbv iota. split.
  - intros seed -> Hseed. apply Z.eqb_neq in Hseed. rewrite Hseed. reflexivity.
  - intros [-> | ->]; simpl; (eexists; split; [reflexivity|]);
      (repeat split; try exact Hmode; apply save_config_saved).
Qed.

Lemma reuse_returns_last_used_witness :
  exists cm,
    mode (random_seed (config cm)) = "reuse"
    /\ last_used (random_seed (config cm)) = Some 42%Z
    /\ get_random_seed "t2" 7 cm = (Ok 42%Z, cm).
Proof.
  exists (with_random_seed {| mode := "reuse"; seed_value := None; last_used := Some 42%Z |}
            (init "t0")).
  split; [reflexivity|]. split; [reflexivity|].
  apply (proj1 (reuse_returns_last_used "t2" 7
                  (with_random_seed
                     {| mode := "reuse"; seed_value := None; last_used := Some 42%Z |}
                     (init "t0")) eq_refl));
    [reflexivity | discriminate].
Defined.

(** X4. A seed generated in the mode [generate] is the one a later
    [get_random_seed] returns once the mode is switched to [reuse], whatever
    is drawn then, provided the seed is not [0]; a generated seed [0] is not
    reused: the later call returns its own draw. *)
Theorem generated_seed_reused
    (now1 now2 now3 : string) (draw draw' : Z) (v : option Z) (cm : t) :
  mode (random_seed (config cm)) = "generate" ->
  exists cm1 cm2,
    get_random_seed now1 draw cm = (Ok draw, cm1)
    /\ set_random_seed_mode now2 "reuse" v cm1 = (Ok tt, cm2)
    /\ (draw <> 0%Z -> get_random_seed now3 draw' cm2 = (Ok draw, cm2))
    /\ (draw = 0%Z -> exists cm3, get_random_seed now3 draw' cm2 = (Ok draw', cm3)).
Proof.
  intros Hmode. unfold get_random_seed at 1. rewrite Hmode. simpl String.eqb. cbv iota.
  eexists. eexists. split; [reflexivity|]. split; [reflexivity|]. split.
  - intros Hd. unfold get_random_seed. simpl. apply Z.eqb_neq in Hd. rewrite Hd. reflexivity.
  - intros ->. eexists. reflexivity.
Qed.

(** [test_random_seed_reuse] *)
Lemma generated_seed_reused_witness :
  exists cm1 cm2,
    get_random_seed "t1" 123456 (init "t0") = (Ok 123456%Z, cm1)
    /\ set_random_seed_mode "t2" "reuse" None cm1 = (Ok tt, cm2)
    /\ get_random_seed "t3" 654321 cm2 = (Ok 123456%Z, cm2).
Proof.
  destruct (generated_seed_reused "t1" "t2" "t3" 123456 654321 None (init "t0") eq_refl)
    as (cm1 & cm2 & H1 & H2 & H3 & _).
  exists cm1, cm2. split; [exact H1|]. split; [exact H2|]. apply H3. discriminate.
Defined.

(** X5. A seed given with the mode [specify] is the one [get_random_seed]
    returns, [0] included, without drawing or changing anything. *)
Theorem specified_seed_returned (now now' : string) (v draw : Z) (cm : t) :
  exists cm1,
    set_random_seed_mode now "specify" (Some v) cm = (Ok tt, cm1)
    /\ get_random_seed now' draw cm1 = (Ok v, cm1).
Proof. eexists. split; reflexivity. Qed.

(** X6. Every update that returns has written the file: loading the
    configuration again gives the sectors and the seed settings that are in
    memory. (An update that raises has not: see the failed updates above.) *)
Theorem returned_update_is_on_disk :
  (forall now sector g pe d cm cm',
      set_sector_params now sector g pe d cm = (Ok tt, cm') -> saved cm')
  /\ (forall now m v cm cm',
        set_random_seed_mode now m v cm = (Ok tt, cm') -> saved cm')
  /\ (forall now draw cm seed cm',
        get_random_seed now draw cm = (Ok seed, cm') -> cm' = cm \/ saved cm')
  /\ (forall cm now,
        saved cm ->
        sectors (config (load_config now (file cm))) = sectors (config cm)
        /\ random_seed (config (load_config now (file cm))) = random_seed (config cm)
        /\ saved (load_config now (file cm))).
Proof.
  split; [|split; [|split]].
  - intros now sector g pe d cm cm'. unfold set_sector_params.
    destruct g as [x|]; [destruct (negb (in_unit_interval x)); [discriminate|]|];
      (destruct pe as [y|]; [destruct (Qle_bool y 0); [discriminate|]|]);
      (destruct d as [z|]; [destruct (negb (in_unit_interval z)); [discriminate|]|]);
      intros [= <-]; apply save_config_saved.
  - intros now m v cm cm'. unfold set_random_seed_mode.
    destruct (negb (bool_decide (m ∈ known_modes))); [discriminate|].
    destruct (String.eqb m "specify"), v; try discriminate;
      intros [= <-]; apply save_config_saved.
  - intros now draw cm seed cm'. unfold get_random_seed, _generate_and_save_seed.
    destruct (String.eqb (mode (random_seed (config cm))) "reuse").
    + destruct (last_used (random_seed (config cm))) as [s|].
      * destruct (s =? 0)%Z; intros [= _ <-]; [right; apply save_config_saved | left; reflexivity].
      * intros [= _ <-]. right. apply save_config_saved.
    + destruct (String.eqb (mode (random_seed (config cm))) "specify").
      * destruct (seed_value (random_seed (config cm))); [|discriminate].
        intros [= _ <-]. left. reflexivity.
      * intros [= _ <-]. right. apply save_config_saved.
  - intros cm now (c & Hfile & Hs & Hr). rewrite Hfile. simpl.
    split; [exact Hs|]. split; [exact Hr|]. exists c. repeat split.
Qed.

Lemma returned_update_is_on_disk_witness :
  exists cm',
    set_sector_params "t1" "Energy" None (Some 13) None (init "t0") = (Ok tt, cm')
    /\ saved cm'
    /\ sectors (config (load_config "t2" (file cm'))) = sectors (config cm').
Proof.
  eexists.
  assert (H : set_sector_params "t1" "Energy" None (Some 13) None (init "t0") = (Ok tt, ?[cm']))
    by reflexivity.
  pose proof (proj1 returned_update_is_on_disk _ _ _ _ _ _ _ H) as Hsaved.
  split; [exact H|]. split; [exact Hsaved|].
  exact (proj1 (proj2 (proj2 (proj2 returned_update_is_on_disk)) _ "t2" Hsaved)).
Defined.

End ConfigManagerMore.

(** ** The valuation engine: the DCF formula, failures, degraded inputs *)

Section ValuationMore.
Import IntrinsicValueCalculator.

Lemma combine_map_self {A B : Type} (h : A -> B) (l : list A) :
  combine l (map h l) = map (fun x => (x, h x)) l.
Proof. induction l as [|x l IH]; simpl; [reflexivity | rewrite IH; reflexivity]. Qed.

Lemma enumerate1_map_seq {A : Type} (h : nat -> A) (n : nat) :
  enumerate1 (map h (seq 1 n)) = map (fun t => (t, h t)) (seq 1 n).
Proof.
  unfold enumerate1. rewrite length_map, length_seq. apply combine_map_self.
Qed.

Lemma fold_left_Qplus (l : list Q) (a : Q) :
  fold_left Qplus l a == a + fold_right Qplus 0 l.
Proof.
  revert a. induction l as [|x l IH]; intros a; simpl.
  - ring.
  - rewrite IH. ring.
Qed.

Lemma py_sum_fold_right (l : list Q) : py_sum l == fold_right Qplus 0 l.
Proof. unfold py_sum. rewrite fold_left_Qplus. ring. Qed.

Lemma sum_scaled {A : Type} (f : Q) (h k : A -> Q) (l : list A) :
  fold_right Qplus 0 (map (fun t => f * h t / k t) l)
  == f * fold_right Qplus 0 (map (fun t => h t / k t) l).
Proof.
  induction l as [|x l IH]; simpl.
  - ring.
  - rewrite IH. unfold Qdiv. ring.
Qed.

(** The value [calculate_dcf] returns, as one unit's value times the free
    cash flow. *)
Lemma calculate_dcf_value (f g d tg : Q) (years : nat) :
  (0 < years)%nat -> ~ d == tg -> ~ d == -1 ->
  exists total,
    calculate_dcf f g d years tg = Ok total /\ total == f * dcf_factor g d tg years.
Proof.
  intros Hy Hd H1. destruct years as [|n]; [lia|].
  assert (Hbase : ~ 1 + d == 0) by (intros E; apply H1; lra).
  assert (Hden : ~ d - tg == 0) by (intros E; apply Hd; lra).
  unfold calculate_dcf. rewrite last_map_seq, bind_Ok.
  rewrite (py_div_ok _ _ Hden), bind_Ok.
  rewrite (map_result_ok _ (fun '(t, cf) => cf / py_pow (1 + d) t)).
  2:{ apply Forall_forall. intros [t cf] _. apply py_div_ok, py_pow_nonzero, Hbase. }
  rewrite bind_Ok, py_div_ok by (apply py_pow_nonzero, Hbase).
  rewrite bind_Ok. eexists. split; [reflexivity|].
  rewrite py_sum_fold_right, enumerate1_map_seq, map_map.
  unfold dcf_factor, py_pow.
  rewrite (sum_scaled f (fun t => (1 + g) ^ Z.of_nat t) (fun t => (1 + d) ^ Z.of_nat t)).
  unfold Qdiv. ring.
Qed.

Lemma dcf_factor_positive (g d tg : Q) (years : nat) :
  -1 < g -> -1 < tg -> tg < d -> 0 < dcf_factor g d tg years.
Proof.
  intros Hg Htg Hd. unfold dcf_factor.
  assert (Hg' : 0 < 1 + g) by lra. assert (Hd' : 0 < 1 + d) by lra.
  assert (Hterm : forall t : nat, 0 < (1 + g) ^ Z.of_nat t / (1 + d) ^ Z.of_nat t).
  { intros t. unfold Qdiv. apply Qmult_lt_0_compat.
    - apply Qpower_0_lt, Hg'.
    - apply Qinv_lt_0_compat, Qpower_0_lt, Hd'. }
  assert (Hsum : forall l : list nat,
             0 <= fold_right Qplus 0
                    (map (fun t => (1 + g) ^ Z.of_nat t / (1 + d) ^ Z.of_nat t) l)).
  { induction l as [|t l IH]; simpl; [lra|]. specialize (Hterm t). lra. }
  assert (Htv : 0 < (1 + g) ^ Z.of_nat years * (1 + tg) / (d - tg) / (1 + d) ^ Z.of_nat years).
  { unfold Qdiv. repeat apply Qmult_lt_0_compat.
    - apply Qpower_0_lt, Hg'.
    - lra.
    - apply Qinv_lt_0_compat. lra.
    - apply Qinv_lt_0_compat, Qpower_0_lt, Hd'. }
  specialize (Hsum (seq 1 years)). lra.
Qed.

(** X7. What [calculate_dcf] does: with no projection year it raises
    [IndexError]; with the discount rate at the terminal growth rate, or at
    -1, it raises [ZeroDivisionError]; in every other case it returns the free
    cash flow times the value of one unit: the sum over the years [t] of
    [(1+g)^t / (1+d)^t], plus [(1+g)^n (1+tg) / (d-tg) / (1+d)^n]. *)
Theorem calculate_dcf_outcome (f g d tg : Q) (years : nat) :
  (years = 0%nat -> calculate_dcf f g d years tg = Raise IndexError)
  /\ ((0 < years)%nat -> d == tg -> calculate_dcf f g d years tg = Raise ZeroDivisionError)
  /\ ((0 < years)%nat -> ~ d == tg -> d == -1 ->
      calculate_dcf f g d years tg = Raise ZeroDivisionError)
  /\ ((0 < years)%nat -> ~ d == tg -> ~ d == -1 ->
      exists total,
        calculate_dcf f g d years tg = Ok total /\ total == f * dcf_factor g d tg years).
Proof.
  split; [|split; [|split]].
  - intros ->. reflexivity.
  - intros Hy Hd. apply calculate_dcf_at_terminal_growth; assumption.
  - intros Hy Hd H1. destruct years as [|n]; [lia|].
    assert (Hden : ~ d - tg == 0) by (intros E; apply Hd; lra).
    unfold calculate_dcf. rewrite last_map_seq, bind_Ok.
    rewrite (py_div_ok _ _ Hden), bind_Ok, enumerate1_map_seq.
    cbn [seq map map_result].
    rewrite (py_div_zero (f * py_pow (1 + g) 1) (py_pow (1 + d) 1)); [reflexivity|].
    unfold py_pow. simpl Z.of_nat. simpl Qpower. lra.
  - apply calculate_dcf_value.
Qed.

Lemma calculate_dcf_outcome_witness :
  calculate_dcf 1000 0.02 0.02 10 0.02 = Raise ZeroDivisionError
  /\ exists total,
       calculate_dcf 10000000000 0.10 0.10 10 0.02 = Ok total
       /\ total == 10000000000 * dcf_factor 0.10 0.10 0.02 10.
Proof.
  destruct (calculate_dcf_outcome 1000 0.02 0.02 0.02 10) as (_ & Hz & _ & _).
  destruct (calculate_dcf_outcome 10000000000 0.10 0.10 0.02 10) as (_ & _ & _ & Hok).
  split.
  - apply Hz; [lia | reflexivity].
  - apply Hok; [lia | |]; intros E; vm_compute in E; discriminate E.
Defined.

(** X8. With growth and terminal growth above -1 and the discount rate
    above the terminal growth rate, the DCF value has the sign of the free
    cash flow: a negative free cash flow, which is truthy and therefore
    valued, gives a negative value. *)
Theorem calculate_dcf_sign (f g d tg : Q) (years : nat) :
  (0 < years)%nat -> -1 < g -> -1 < tg -> tg < d ->
  exists total,
    calculate_dcf f g d years tg = Ok total
    /\ (0 < f -> 0 < total) /\ (f < 0 -> total < 0).
Proof.
  intros Hy Hg Htg Hd.
  destruct (calculate_dcf_value f g d tg years Hy) as (total & Hrun & Hval); [lra | lra |].
  pose proof (dcf_factor_positive g d tg years Hg Htg Hd) as Hpos.
  exists total. split; [exact Hrun|]. rewrite Hval. split; intros Hf; nra.
Qed.

Lemma calculate_dcf_sign_witness :
  exists total, calculate_dcf (-5000) 0.08 0.10 10 0.02 = Ok total /\ total < 0.
Proof.
  destruct (calculate_dcf_sign (-5000) 0.08 0.10 0.02 10) as (total & Hrun & _ & Hneg).
  - lia.
  - unfold Qlt. simpl. lia.
  - unfold Qlt. simpl. lia.
  - unfold Qlt. simpl. lia.
  - exists total. split; [exact Hrun|]. apply Hneg. unfold Qlt. simpl. lia.
Defined.

(** X9. A record with truthy free cash flow and positive shares whose
    sector discounts at the terminal growth rate 0.02 cannot be valued at
    all: [get_intrinsic_value] raises [ZeroDivisionError], whatever EPS and
    supplied estimate the record carries. *)
Theorem valuation_raises_at_terminal_growth
    (cm : ConfigManager.t) (sd : gmap string value) (i : inputs) (f s g d : Q) :
  resolve cm sd = Ok i ->
  fcf i = VNum f -> ~ f == 0 ->
  shares i = VNum s -> 0 < s ->
  growth_rate i = VNum g ->
  discount_rate i = VNum d -> d == 0.02 ->
  get_intrinsic_value cm sd = Raise ZeroDivisionError.
Proof.
  intros Hi Hf Hf0 Hs Hs0 Hg Hd Hd2.
  unfold get_intrinsic_value. rewrite Hi, bind_Ok, Hf, Hs, Hg, Hd.
  unfold dcf_per_share. rewrite (truthy_num _ Hf0), py_gt_num.
  apply Qlt_bool_iff in Hs0. rewrite Hs0, bind_Ok. simpl as_num. rewrite !bind_Ok.
  rewrite calculate_dcf_at_terminal_growth;
    [reflexivity | unfold years_default; lia | exact Hd2].
Qed.

(** X10. [get_intrinsic_value] raises [KeyError] on a record without the
    key [sector], [price] or [shares]; yet the price it insists on plays no
    part in the value: two records that differ in the price alone are valued
    alike. *)
Theorem price_required_but_unused (cm : ConfigManager.t) (sd : gmap string value) :
  (sd !! "sector" = None \/ sd !! "price" = None \/ sd !! "shares" = None ->
   get_intrinsic_value cm sd = Raise KeyError)
  /\ (forall p p',
        get_intrinsic_value cm (<["price" := p]> sd)
        = get_intrinsic_value cm (<["price" := p']> sd)).
Proof.
  split.
  - intros H. unfold get_intrinsic_value, resolve, getitem.
    destruct (sd !! "sector"); [|reflexivity].
    destruct (sd !! "price"); [|reflexivity].
    destruct (sd !! "shares"); [|reflexivity].
    destruct H as [H | [H | H]]; discriminate H.
  - intros p p'. unfold get_intrinsic_value, resolve, getitem, dict_get.
    rewrite !lookup_insert_eq.
    rewrite !(lookup_insert_ne _ "price" "sector") by discriminate.
    rewrite !(lookup_insert_ne _ "price" "shares") by discriminate.
    rewrite !(lookup_insert_ne _ "price" "fcf") by discriminate.
    rewrite !(lookup_insert_ne _ "price" "eps") by discriminate.
    rewrite !(lookup_insert_ne _ "price" "growth_rate") by discriminate.
    rewrite !(lookup_insert_ne _ "price" "fmp_dcf") by discriminate.
    destruct (sd !! "sector"); [|reflexivity].
    rewrite !bind_Ok. destruct (sd !! "shares"); reflexivity.
Qed.

Lemma price_required_but_unused_witness :
  get_intrinsic_value Fixtures.config_manager (delete "price" Fixtures.AAPL) = Raise KeyError.
Proof.
  apply (proj1 (price_required_but_unused Fixtures.config_manager
                  (delete "price" Fixtures.AAPL))).
  right. left. vm_compute. reflexivity.
Defined.

Lemma py_gt_zero_as_num (v : value) :
  py_gt v (VNum 0) = Ok true -> exists q, as_num v = Ok q /\ 0 < q.
Proof.
  destruct v as [|b|q| |s|t]; simpl; try discriminate.
  - destruct b; [|discriminate]. intros _. exists 1. split; [reflexivity | lra].
  - intros [= H]. apply Qlt_bool_iff in H. exists q. split; [reflexivity | exact H].
Qed.

(** X11. The PEG sub-estimate never divides by zero: the ratio of the
    growth rates is formed only under [sector_growth > 0], and the sector P/E
    stands alone otherwise (a sector growth rate of [0] is a valid setting). *)
Theorem peg_never_divides_by_zero
    (defaults : gmap string value) (eps g pe : value) :
  peg_intrinsic defaults eps g pe <> Raise ZeroDivisionError.
Proof.
  unfold peg_intrinsic.
  destruct (if truthy eps
            then (b ← py_gt eps (VNum 0);
                  if b : bool then py_gt g (VNum 0) else Ok false)
            else Ok false) as [[|]|e] eqn:Econd.
  - rewrite bind_Ok.
    destruct (py_gt (dict_get defaults "growth_rate" g) (VNum 0)) as [[|]|e] eqn:Epos.
    + rewrite bind_Ok.
      destruct (py_gt_zero_as_num _ Epos) as (sg & Hsg & Hpos).
      destruct (as_num g) as [gq|e] eqn:Eg.
      2:{ rewrite !bind_Raise. destruct g; simpl in Eg; try discriminate;
            injection Eg as <-; discriminate. }
      rewrite bind_Ok, Hsg, bind_Ok, py_div_ok by lra. rewrite bind_Ok.
      destruct (as_num pe) as [pq|e] eqn:Ep.
      2:{ rewrite !bind_Raise. destruct pe; simpl in Ep; try discriminate;
            injection Ep as <-; discriminate. }
      rewrite !bind_Ok.
      destruct (as_num eps) as [eq|e] eqn:Ee; [discriminate|].
      rewrite bind_Raise. destruct eps; simpl in Ee; try discriminate; injection Ee as <-;
        discriminate.
    + rewrite bind_Ok.
      destruct (as_num pe) as [pq|e] eqn:Ep.
      * rewrite bind_Ok.
        destruct (as_num eps) as [eq|e] eqn:Ee; [discriminate|].
        rewrite bind_Raise. destruct eps; simpl in Ee; try discriminate; injection Ee as <-;
          discriminate.
      * rewrite bind_Raise. destruct pe; simpl in Ep; try discriminate; injection Ep as <-;
          discriminate.
    + rewrite bind_Raise.
      destruct (dict_get defaults "growth_rate" g); simpl in Epos; try discriminate;
        injection Epos as <-; discriminate.
  - discriminate.
  - rewrite bind_Raise. intros [= ->].
    destruct (truthy eps); [|discriminate Econd].
    destruct eps; simpl in Econd; try discriminate Econd.
    + destruct (Qlt_bool 0 (if b then 1 else 0)); [|discriminate Econd].
      destruct g; simpl in Econd; discriminate Econd.
    + destruct (Qlt_bool 0 q); [|discriminate Econd].
      destruct g; simpl in Econd; discriminate Econd.
Qed.

(** X12. When the DCF has no free cash flow to start from and the EPS is
    absent or not positive, the blended value is the supplied estimate
    itself, and [None] when there is none. *)
Theorem supplied_estimate_alone
    (cm : ConfigManager.t) (sd : gmap string value) (i : inputs) (f : option Q) :
  resolve cm sd = Ok i ->
  truthy (fcf i) = false ->
  (eps i = VNone \/ exists e, eps i = VNum e /\ e <= 0) ->
  fmp_dcf i = of_option f ->
  exists r,
    get_intrinsic_value cm sd = Ok (of_option r) /\ option_Forall2 Qeq r f.
Proof.
  intros Hi Hfcf Heps Hfmp.
  unfold get_intrinsic_value. rewrite Hi, bind_Ok.
  unfold dcf_per_share. rewrite Hfcf, !bind_Ok.
  assert (Hpeg : peg_intrinsic (sector_defaults i) (eps i) (growth_rate i) (sector_pe i)
                 = Ok VNone).
  { unfold peg_intrinsic. destruct Heps as [-> | (e & -> & He)].
    - reflexivity.
    - destruct (truthy (VNum e)); [|reflexivity].
      rewrite py_gt_num. apply Qlt_bool_false_iff in He. rewrite He. reflexivity. }
  rewrite Hpeg, bind_Ok, Hfmp.
  destruct f as [x|].
  - eexists (Some _). split; [reflexivity|]. constructor.
    unfold py_sum, py_len. simpl. field.
  - exists None. split; [reflexivity | constructor].
Qed.

Lemma supplied_estimate_alone_witness :
  exists r,
    get_intrinsic_value Fixtures.config_manager (<["fmp_dcf" := VNum 12]> Fixtures.XYZ_unvaluable)
    = Ok (of_option r)
    /\ option_Forall2 Qeq r (Some 12).
Proof.
  assert (Hi : exists i, resolve Fixtures.config_manager
                           (<["fmp_dcf" := VNum 12]> Fixtures.XYZ_unvaluable) = Ok i
                         /\ truthy (fcf i) = false
                         /\ eps i = VNum (-1) /\ fmp_dcf i = of_option (Some 12)).
  { eexists. split; [vm_compute; reflexivity|]. repeat split. }
  destruct Hi as (i & Hi & Hf & He & Hm).
  apply (supplied_estimate_alone _ _ i (Some 12) Hi Hf); [|exact Hm].
  right. exists (-1). split; [exact He|]. unfold Qle. simpl. lia.
Defined.

Lemma valuation_raises_at_terminal_growth_witness :
  exists cm,
    ConfigManager.set_sector_params "t1" "Utilities" None None (Some 0.02)
      (ConfigManager.init "t0") = (Ok tt, cm)
    /\ get_intrinsic_value cm (<["eps" := VNum 3]> (<["fmp_dcf" := VNum 40]> Fixtures.utility))
       = Raise ZeroDivisionError.
Proof.
  eexists. split; [reflexivity|].
  match goal with
  | |- get_intrinsic_value ?cm ?sd = _ =>
      assert (Hi : exists i, resolve cm sd = Ok i
                             /\ fcf i = VNum 1000 /\ shares i = VNum 100
                             /\ growth_rate i = VNum 0.02 /\ discount_rate i = VNum 0.02)
  end.
  { eexists. split; [vm_compute; reflexivity|]. repeat split. }
  destruct Hi as (i & Hi & Hf & Hs & Hg & Hd).
  apply (valuation_raises_at_terminal_growth _ _ i 1000 100 0.02 0.02 Hi Hf);
    [| exact Hs | | exact Hg | exact Hd | reflexivity].
  - intros E. vm_compute in E. discriminate E.
  - unfold Qlt. simpl. lia.
Defined.

End ValuationMore.

(** ** The analyzer: ranking, grouping, filters, failures *)

Section AnalyzerMore.
Import StockAnalyzer.

Lemma insert_desc_perm {A : Type} (k : Q) (x : A) (l : list (Q * A)) :
  insert_desc k x l ≡ₚ (k, x) :: l.
Proof.
  induction l as [|[k' y] l IH]; simpl; [reflexivity|].
  destruct (Qlt_bool k k'); [|reflexivity].
  rewrite IH. apply Permutation_swap.
Qed.

Lemma sort_desc_perm {A : Type} (l : list (Q * A)) : sort_desc l ≡ₚ l.
Proof.
  induction l as [|[k x] l IH]; simpl; [reflexivity|].
  rewrite insert_desc_perm, IH. reflexivity.
Qed.

Lemma insert_desc_sorted {A : Type} (k : Q) (x : A) (l : list (Q * A)) :
  StronglySorted (fun a b => fst b <= fst a) l ->
  StronglySorted (fun a b => fst b <= fst a) (insert_desc k x l).
Proof.
  induction 1 as [|[k' y] l Hl IH Hall]; simpl.
  - repeat constructor.
  - destruct (Qlt_bool k k') eqn:E.
    + apply Qlt_bool_iff in E. constructor; [exact IH|].
      rewrite insert_desc_perm. constructor; [simpl; lra | exact Hall].
    + apply Qlt_bool_false_iff in E. constructor; [constructor; assumption|].
      constructor; [exact E|].
      eapply Forall_impl; [exact Hall|]. intros [k'' z]. simpl. intros H. lra.
Qed.

Lemma sort_desc_sorted {A : Type} (l : list (Q * A)) :
  StronglySorted (fun a b => fst b <= fst a) (sort_desc l).
Proof.
  induction l as [|[k x] l IH]; simpl; [constructor | apply insert_desc_sorted, IH].
Qed.

Lemma insert_desc_stable {A : Type} (k0 k : Q) (x : A) (l : list (Q * A)) :
  List.filter (fun e => Qeq_bool (fst e) k0) (insert_desc k x l)
  = List.filter (fun e => Qeq_bool (fst e) k0) ((k, x) :: l).
Proof.
  induction l as [|[k' y] l IH]; [reflexivity|].
  cbn [insert_desc]. destruct (Qlt_bool k k') eqn:E; [|reflexivity].
  cbn [List.filter fst] in *. rewrite IH.
  destruct (Qeq_bool k' k0) eqn:E1, (Qeq_bool k k0) eqn:E2; try reflexivity.
  exfalso. apply Qeq_bool_iff in E1, E2. apply Qlt_bool_iff in E. lra.
Qed.

Lemma sort_desc_stable {A : Type} (k0 : Q) (l : list (Q * A)) :
  List.filter (fun e => Qeq_bool (fst e) k0) (sort_desc l)
  = List.filter (fun e => Qeq_bool (fst e) k0) l.
Proof.
  induction l as [|[k x] l IH]; [reflexivity|].
  cbn [sort_desc fold_right]. change (fold_right _ [] l) with (sort_desc l).
  rewrite insert_desc_stable. cbn [List.filter]. rewrite IH. reflexivity.
Qed.

(** The keys [sorted] computes are the scores of the rows. *)
Lemma keyed_rows (stocks : list (gmap string value))
    (keyed : list (Q * gmap string value)) :
  map_result (fun x => v ← getitem x "score"; k ← as_num v; Ok (k, x)) stocks = Ok keyed ->
  map snd keyed = stocks
  /\ Forall (fun e => score_key (snd e) = Some (fst e)) keyed.
Proof.
  revert keyed. induction stocks as [|x stocks IH]; intros keyed H; simpl in H.
  - injection H as <-. split; constructor.
  - step_bind H. step_bind H. injection H as <-.
    destruct (IH _ eq_refl) as [Hmap Hall]. split; [simpl|constructor; [|exact Hall]].
    + step_bind E. step_bind E. injection E as <-. simpl. rewrite Hmap. reflexivity.
    + unfold getitem in E. unfold score_key.
      destruct (x !! "score") as [v|] eqn:Ex; [|discriminate E]. rewrite bind_Ok in E.
      step_bind E. injection E as <-. cbn [fst snd]. rewrite Ex, E1. reflexivity.
Qed.

Lemma sorted_by_score_spec (stocks ranked : list (gmap string value)) :
  sorted_by_score stocks = Ok ranked ->
  ranked ≡ₚ stocks
  /\ StronglySorted outranks ranked
  /\ (forall q, List.filter (has_score q) ranked = List.filter (has_score q) stocks).
Proof.
  unfold sorted_by_score. intros H. step_bind H. injection H as <-.
  destruct (keyed_rows _ _ E) as [Hmap Hall].
  assert (Hall' : Forall (fun e : Q * gmap string value => score_key (snd e) = Some (fst e))
                         (sort_desc a)).
  { rewrite sort_desc_perm. exact Hall. }
  split; [|split].
  - rewrite <- Hmap. apply Permutation_map, sort_desc_perm.
  - pose proof (sort_desc_sorted a) as Hs.
    induction Hs as [|e l Hl IH Hle]; simpl; [constructor|].
    apply Forall_cons in Hall' as [He Hl'].
    constructor; [apply IH, Hl'|].
    rewrite Forall_forall in Hle, Hl'. apply Forall_forall. intros r Hr.
    apply list_elem_of_fmap in Hr as (e' & -> & He').
    exists (fst e), (fst e'). split; [exact He|]. split; [apply Hl', He' | apply Hle, He'].
  - intros q.
    assert (Hf : forall l : list (Q * gmap string value),
               Forall (fun e => score_key (snd e) = Some (fst e)) l ->
               List.filter (has_score q) (map snd l)
               = map snd (List.filter (fun e => Qeq_bool (fst e) q) l)).
    { induction 1 as [|e l He _ IH]; [reflexivity|].
      cbn [map List.filter]. unfold has_score at 1. rewrite He.
      destruct (Qeq_bool (fst e) q); simpl; rewrite IH; reflexivity. }
    rewrite <- Hmap, (Hf _ Hall'), (Hf _ Hall), sort_desc_stable. reflexivity.
Qed.

(** X13. [sorted(..., key=score, reverse=True)] as the analyzer uses it:
    the ranked list holds the same rows, in descending order of score, and
    the rows of equal score keep the order they came in. *)
Theorem ranking_is_stable_descending_sort (stocks ranked : list (gmap string value)) :
  sorted_by_score stocks = Ok ranked ->
  ranked ≡ₚ stocks
  /\ StronglySorted outranks ranked
  /\ (forall q, List.filter (has_score q) ranked = List.filter (has_score q) stocks).
Proof. apply sorted_by_score_spec. Qed.

Lemma ranking_is_stable_descending_sort_witness :
  exists ranked,
    sorted_by_score [ {[ "ticker" := VStr "A"; "score" := VNum 1 ]};
                      {[ "ticker" := VStr "B"; "score" := VNum 2 ]};
                      {[ "ticker" := VStr "C"; "score" := VNum 1 ]};
                      {[ "ticker" := VStr "D"; "score" := VNum 2 ]} ] = Ok ranked
    /\ Fixtures.tickers_of ranked
       = [Some (VStr "B"); Some (VStr "D"); Some (VStr "A"); Some (VStr "C")]
    /\ StronglySorted outranks ranked.
Proof.
  match goal with
  | |- exists r, ?run = Ok r /\ _ => destruct run as [ranked|e] eqn:E
  end.
  - exists ranked. split; [reflexivity|]. split.
    + match type of E with
      | ?run = _ =>
          assert (T : match run with Ok r => Fixtures.tickers_of r | Raise _ => [] end
                      = [Some (VStr "B"); Some (VStr "D"); Some (VStr "A"); Some (VStr "C")])
            by (vm_compute; reflexivity)
      end.
      rewrite E in T. exact T.
    + exact (proj1 (proj2 (ranking_is_stable_descending_sort _ _ E))).
  - exfalso.
    match type of E with
    | ?run = _ =>
        assert (T : match run with Ok _ => true | Raise _ => false end = true)
          by (vm_compute; reflexivity)
    end.
    rewrite E in T. discriminate T.
Defined.

Lemma map_result_Forall {A B : Type} (f : A -> result B) (P : B -> Prop)
    (l : list A) (l' : list B) :
  map_result f l = Ok l' -> (forall x y, x ∈ l -> f x = Ok y -> P y) -> Forall P l'.
Proof.
  intros H HP. apply Forall_forall. intros y Hy.
  destruct (map_result_elem _ _ _ _ H Hy) as (x & Hx & Hf). exact (HP x y Hx Hf).
Qed.

(** X14. Every list an analysis returns is in descending order of score:
    the one ranked list, or the list of each requested sector. *)
Theorem analysis_is_ranked
    (cm : ConfigManager.t) (stock_data : list (string * gmap string value))
    (filter_params : gmap string value) (sector_prefs : option (list string))
    (out : analysis) :
  analyze cm stock_data filter_params sector_prefs = Ok out ->
  match out with
  | Ranked rows => StronglySorted outranks rows
  | Grouped by_sector => Forall (fun g => StronglySorted outranks (snd g)) by_sector
  end.
Proof.
  unfold analyze. intros H.
  step_bind H. step_bind H. step_bind H. step_bind H. step_bind H.
  destruct sector_prefs as [[|s prefs]|].
  - step_bind H. injection H as <-. exact (proj1 (proj2 (sorted_by_score_spec _ _ E4))).
  - step_bind H. injection H as <-. unfold group_by_sector in E4. step_bind E4.
    apply (map_result_Forall _ _ _ _ E4). intros [s' stocks] [s'' ranked] _ Hf.
    step_bind Hf. injection Hf as <- <-. simpl.
    exact (proj1 (proj2 (sorted_by_score_spec _ _ E6))).
  - step_bind H. injection H as <-. exact (proj1 (proj2 (sorted_by_score_spec _ _ E4))).
Qed.

(** [test_analyze_stocks_no_filters] *)
Lemma analysis_is_ranked_witness :
  exists rows,
    analyze Fixtures.config_manager Fixtures.stock_data ∅ None = Ok (Ranked rows)
    /\ length rows = 4%nat
    /\ StronglySorted outranks rows.
Proof.
  assert (T : match analyze Fixtures.config_manager Fixtures.stock_data ∅ None with
              | Ok (Ranked rows) => Some (length rows)
              | _ => None
              end = Some 4%nat) by (vm_compute; reflexivity).
  destruct (analyze Fixtures.config_manager Fixtures.stock_data ∅ None)
    as [[rows|by_sector]|e] eqn:E; try discriminate T.
  exists rows. split; [reflexivity|]. split; [congruence|].
  exact (analysis_is_ranked _ _ _ _ _ E).
Defined.

(** *** Grouping by sector *)

Lemma od_set_keys {V : Type} (k : string) (v : V) (d : list (string * V)) :
  NoDup (map fst d) ->
  NoDup (map fst (DataFetcher.od_set k v d))
  /\ (forall s, s ∈ map fst (DataFetcher.od_set k v d) <-> s = k \/ s ∈ map fst d).
Proof.
  induction d as [|[k' v'] d IH]; simpl; intros Hnd.
  - split; [repeat constructor; inversion 1|].
    intros s. rewrite list_elem_of_singleton. split; [auto | intros [H | H]; [exact H | inversion H]].
  - apply NoDup_cons in Hnd as [Hk' Hnd]. destruct (String.eqb k k') eqn:E; simpl.
    + apply String.eqb_eq in E as ->. split; [apply NoDup_cons; split; assumption|].
      intros s. rewrite elem_of_cons. tauto.
    + apply String.eqb_neq in E. destruct (IH Hnd) as [Hnd' Hin]. split.
      * apply NoDup_cons. split; [|exact Hnd']. rewrite Hin. intros [-> | H]; auto.
      * intros s. rewrite !elem_of_cons, Hin. tauto.
Qed.

Lemma empty_groups_keys (prefs : list string) :
  NoDup (map fst (empty_groups prefs))
  /\ (forall s, s ∈ map fst (empty_groups prefs) <-> s ∈ prefs).
Proof.
  unfold empty_groups.
  assert (G : forall d : list (string * list (gmap string value)),
             NoDup (map fst d) ->
             NoDup (map fst (fold_left (fun g sector => DataFetcher.od_set sector [] g) prefs d))
             /\ (forall s,
                   s ∈ map fst (fold_left (fun g sector => DataFetcher.od_set sector [] g) prefs d)
                   <-> s ∈ prefs \/ s ∈ map fst d)).
  { induction prefs as [|p prefs IH]; simpl; intros d Hd.
    - split; [exact Hd|]. intros s. split; [auto | intros [H | H]; [inversion H | exact H]].
    - destruct (od_set_keys p [] d Hd) as [Hnd Hin].
      destruct (IH _ Hnd) as [Hnd' Hin']. split; [exact Hnd'|].
      intros s. rewrite Hin', Hin, elem_of_cons. tauto. }
  destruct (G [] (NoDup_nil_2)) as [Hnd Hin]. split; [exact Hnd|].
  intros s. rewrite Hin. split; [intros [H | H]; [exact H | inversion H] | auto].
Qed.

Lemma od_append_keys {V : Type} (k : string) (v : V) (d : list (string * list V)) :
  map fst (od_append k v d) = map fst d.
Proof.
  induction d as [|[k' vs] d IH]; simpl; [reflexivity|].
  destruct (String.eqb k k'); simpl; [reflexivity | rewrite IH; reflexivity].
Qed.

Lemma od_append_from {V : Type} (k : string) (v : V) (d : list (string * list V))
    (s : string) (vs : list V) (x : V) :
  (s, vs) ∈ od_append k v d -> x ∈ vs ->
  (s = k /\ x = v) \/ exists vs', (s, vs') ∈ d /\ x ∈ vs'.
Proof.
  induction d as [|[k' ws] d IH]; simpl; intros H Hx.
  - inversion H.
  - destruct (String.eqb k k') eqn:E.
    + apply String.eqb_eq in E as <-.
      apply elem_of_cons in H as [[= -> ->] | H].
      * apply elem_of_app in Hx as [Hx | Hx].
        -- right. exists ws. split; [left | exact Hx].
        -- apply list_elem_of_singleton in Hx. left. auto.
      * right. exists vs. split; [right; exact H | exact Hx].
    + apply elem_of_cons in H as [[= -> ->] | H].
      * right. exists ws. split; [left | exact Hx].
      * destruct (IH H Hx) as [Heq | (vs' & H' & Hx')]; [left; exact Heq|].
        right. exists vs'. split; [right; exact H' | exact Hx'].
Qed.

Lemma od_append_keeps {V : Type} (k : string) (v : V) (d : list (string * list V))
    (s : string) (vs : list V) (x : V) :
  (s, vs) ∈ d -> x ∈ vs -> exists vs', (s, vs') ∈ od_append k v d /\ x ∈ vs'.
Proof.
  induction d as [|[k' ws] d IH]; simpl; intros H Hx.
  - inversion H.
  - destruct (String.eqb k k') eqn:E.
    + apply elem_of_cons in H as [[= -> ->] | H].
      * exists (ws ++ [v])%list. split; [left | apply elem_of_app; left; exact Hx].
      * exists vs. split; [right; exact H | exact Hx].
    + apply elem_of_cons in H as [[= -> ->] | H].
      * exists ws. split; [left | exact Hx].
      * destruct (IH H Hx) as (vs' & H' & Hx'). exists vs'. split; [right; exact H' | exact Hx'].
Qed.

Lemma od_append_adds {V : Type} (k : string) (v : V) (d : list (string * list V)) :
  k ∈ map fst d -> exists vs, (k, vs) ∈ od_append k v d /\ v ∈ vs.
Proof.
  induction d as [|[k' ws] d IH]; simpl; intros H.
  - inversion H.
  - destruct (String.eqb k k') eqn:E.
    + apply String.eqb_eq in E as <-. exists (ws ++ [v])%list.
      split; [left | apply elem_of_app; right; left].
    + apply String.eqb_neq in E. apply elem_of_cons in H as [-> | H]; [contradiction|].
      destruct (IH H) as (vs & Hvs & Hv). exists vs. split; [right; exact Hvs | exact Hv].
Qed.

(** The groups after the loop over the rows: same sectors, and each holds
    exactly the rows of its sector. *)
Lemma add_to_group_spec (outs : list (gmap string value)) :
  forall g0 grouped : list (string * list (gmap string value)),
    fold_left add_to_group outs (Ok g0) = Ok grouped ->
    map fst grouped = map fst g0
    /\ (forall s vs y, (s, vs) ∈ grouped -> y ∈ vs ->
          (y ∈ outs /\ y !! "sector" = Some (VStr s)) \/ exists vs', (s, vs') ∈ g0 /\ y ∈ vs')
    /\ (forall s vs y, (s, vs) ∈ g0 -> y ∈ vs -> exists vs', (s, vs') ∈ grouped /\ y ∈ vs')
    /\ (forall s y, y ∈ outs -> y !! "sector" = Some (VStr s) -> s ∈ map fst g0 ->
          exists vs', (s, vs') ∈ grouped /\ y ∈ vs').
Proof.
  induction outs as [|o outs IH]; cbn [fold_left]; intros g0 grouped H.
  - injection H as <-. split; [reflexivity|]. split; [|split].
    + intros s vs y Hs Hy. right. exists vs. auto.
    + intros s vs y Hs Hy. exists vs. auto.
    + intros s y Hy. inversion Hy.
  - destruct (getitem o "sector") as [sector|e] eqn:Esec.
    2:{ assert (Hstep : add_to_group (Ok g0) o = Raise e).
        { unfold add_to_group. rewrite bind_Ok, Esec. reflexivity. }
        rewrite Hstep, add_to_group_raise in H. discriminate H. }
    set (g1 := match sector with
               | VStr s => od_append s o g0
               | _ => g0
               end).
    assert (Hstep : add_to_group (Ok g0) o = Ok g1).
    { unfold add_to_group. rewrite bind_Ok, Esec. reflexivity. }
    rewrite Hstep in H. destruct (IH _ _ H) as (Hkeys & Hfrom & Hkeep & Hadd).
    assert (Hk1 : map fst g1 = map fst g0).
    { subst g1. destruct sector; try reflexivity. apply od_append_keys. }
    assert (Hlook : o !! "sector" = Some sector).
    { unfold getitem in Esec. destruct (o !! "sector"); [injection Esec as ->; reflexivity
                                                        | discriminate Esec]. }
    split; [rewrite Hkeys; exact Hk1|]. split; [|split].
    + intros s vs y Hs Hy. destruct (Hfrom s vs y Hs Hy) as [[Hy' Hsec] | (vs' & Hs' & Hy')].
      * left. split; [right; exact Hy' | exact Hsec].
      * subst g1. destruct sector; try (right; exists vs'; split; assumption).
        destruct (od_append_from _ _ _ _ _ _ Hs' Hy') as [[-> ->] | Hold].
        -- left. split; [left | exact Hlook].
        -- right. exact Hold.
    + intros s vs y Hs Hy.
      assert (H1 : exists vs1, (s, vs1) ∈ g1 /\ y ∈ vs1).
      { subst g1. destruct sector; try (exists vs; split; assumption).
        apply (od_append_keeps _ _ _ _ _ _ Hs Hy). }
      destruct H1 as (vs1 & Hs1 & Hy1). exact (Hkeep s vs1 y Hs1 Hy1).
    + intros s y Hy Hsec Hin. apply elem_of_cons in Hy as [-> | Hy].
      * rewrite Hlook in Hsec. injection Hsec as ->.
        destruct (od_append_adds s o g0 Hin) as (vs1 & Hs1 & Ho).
        exact (Hkeep s vs1 o Hs1 Ho).
      * apply (Hadd s y Hy Hsec). rewrite Hk1. exact Hin.
Qed.

Lemma rank_groups_spec (grouped ranked : list (string * list (gmap string value))) :
  map_result (fun '(sector, stocks) => r ← sorted_by_score stocks; Ok (sector, r)) grouped
  = Ok ranked ->
  map fst ranked = map fst grouped
  /\ (forall s rows, (s, rows) ∈ ranked -> exists vs, (s, vs) ∈ grouped /\ rows ≡ₚ vs)
  /\ (forall s vs, (s, vs) ∈ grouped -> exists rows, (s, rows) ∈ ranked /\ rows ≡ₚ vs).
Proof.
  revert ranked. induction grouped as [|[s0 vs0] grouped IH]; intros ranked H; simpl in H.
  - injection H as <-. split; [reflexivity|]. split; intros s x Hx; inversion Hx.
  - step_bind H. step_bind H. injection H as <-. step_bind E. injection E as <-.
    destruct (IH _ eq_refl) as (Hk & Hfrom & Hto).
    pose proof (proj1 (sorted_by_score_spec _ _ E1)) as Hperm.
    split; [simpl; rewrite Hk; reflexivity|]. split.
    + intros s rows Hs. apply elem_of_cons in Hs as [[= -> ->] | Hs].
      * exists vs0. split; [left | exact Hperm].
      * destruct (Hfrom s rows Hs) as (vs & Hvs & Hp). exists vs. split; [right|]; assumption.
    + intros s vs Hs. apply elem_of_cons in Hs as [[= -> ->] | Hs].
      * exists a1. split; [left | exact Hperm].
      * destruct (Hto s vs Hs) as (rows & Hr & Hp). exists rows. split; [right|]; assumption.
Qed.

(** X15. Grouping by sector: the result has one list for each requested
    sector, no other, none twice; the list of a sector holds rows of the
    analysis whose sector it is, and every row of a requested sector is in
    the list of its sector. So rows of other sectors are dropped and a
    requested sector without rows has an empty list. *)
Theorem grouping_by_requested_sectors
    (sector_prefs : list string) (output_stocks : list (gmap string value))
    (grouped : list (string * list (gmap string value))) :
  group_by_sector sector_prefs output_stocks = Ok grouped ->
  NoDup (map fst grouped)
  /\ (forall s, s ∈ map fst grouped <-> s ∈ sector_prefs)
  /\ (forall s rows row,
        (s, rows) ∈ grouped -> row ∈ rows ->
        row ∈ output_stocks /\ row !! "sector" = Some (VStr s))
  /\ (forall s row,
        row ∈ output_stocks -> row !! "sector" = Some (VStr s) -> s ∈ sector_prefs ->
        exists rows, (s, rows) ∈ grouped /\ row ∈ rows).
Proof.
  unfold group_by_sector. intros H. step_bind H.
  destruct (add_to_group_spec _ _ _ E) as (Hkeys & Hfrom & _ & Hadd).
  destruct (rank_groups_spec _ _ H) as (Hk & Hback & Hforth).
  destruct (empty_groups_keys sector_prefs) as [Hnd Hin].
  split; [rewrite Hk, Hkeys; exact Hnd|].
  split; [intros s; rewrite Hk, Hkeys; apply Hin|]. split.
  - intros s rows row Hs Hrow. destruct (Hback s rows Hs) as (vs & Hvs & Hp).
    rewrite Hp in Hrow. destruct (Hfrom s vs row Hvs Hrow) as [Hok | (vs' & Hs' & Hy')].
    + exact Hok.
    + rewrite (empty_groups_empty _ _ _ Hs') in Hy'. inversion Hy'.
  - intros s row Hrow Hsec Hpref.
    destruct (Hadd s row Hrow Hsec (proj2 (Hin s) Hpref)) as (vs & Hvs & Hy).
    destruct (Hforth s vs Hvs) as (rows & Hr & Hp).
    exists rows. split; [exact Hr|]. rewrite Hp. exact Hy.
Qed.

Lemma grouping_by_requested_sectors_witness :
  exists grouped,
    group_by_sector ["Technology"; "Energy"; "Technology"]
      [ {[ "ticker" := VStr "A"; "score" := VNum 1; "sector" := VStr "Technology" ]};
        {[ "ticker" := VStr "B"; "score" := VNum 2; "sector" := VStr "Healthcare" ]} ]
    = Ok grouped
    /\ map fst grouped = ["Technology"; "Energy"]
    /\ NoDup (map fst grouped).
Proof.
  match goal with
  | |- exists g, ?run = Ok g /\ _ =>
      assert (T : match run with Ok g => Some (map fst g) | Raise _ => None end
                  = Some ["Technology"; "Energy"]) by (vm_compute; reflexivity);
      destruct run as [grouped|e] eqn:E; [|discriminate T]
  end.
  exists grouped. split; [reflexivity|]. split; [congruence|].
  exact (proj1 (grouping_by_requested_sectors _ _ _ E)).
Defined.

(** X16. A ticker with positive EPS and positive price gets the P/E
    [price / eps]; with a positive intrinsic value it passes the filters
    exactly when that P/E does not exceed [max_pe] (always, when no [max_pe]
    is set), whether or not [exclude_negative_pe] is set. *)
Theorem positive_pe_filtering
    (ticker : string) (data filter_params : gmap string value) (p e v : Q) :
  data !! "price" = Some (VNum p) -> 0 < p ->
  data !! "eps" = Some (VNum e) -> 0 < e ->
  0 < v ->
  (forall max_pe, filter_params !! "max_pe" = Some max_pe -> exists m, max_pe = VNum m) ->
  exists stock,
    with_pe_ratio ticker data = Ok stock
    /\ stock !! "pe_ratio" = Some (VNum (p / e))
    /\ passes_filters (<["intrinsic_value" := VNum v]> stock) filter_params
       = Ok (match filter_params !! "max_pe" with
             | Some (VNum m) => Qle_bool (p / e) m
             | _ => true
             end).
Proof.
  intros Hp Hp0 He He0 Hv Hmax.
  exists (<["pe_ratio" := VNum (p / e)]> (<["ticker" := VStr ticker]> data)).
  split.
  { unfold with_pe_ratio, dict_get, getitem.
    rewrite !(lookup_insert_ne _ "ticker" "eps") by discriminate.
    rewrite (lookup_insert_ne _ "ticker" "price") by discriminate.
    rewrite He, Hp. simpl default. rewrite py_gt_num.
    apply Qlt_bool_iff in He0 as He0'. rewrite He0', !bind_Ok. simpl as_num.
    rewrite !bind_Ok, py_div_ok by lra. reflexivity. }
  split; [apply lookup_insert_eq|].
  assert (Hpe : 0 < p / e).
  { unfold Qdiv. apply Qmult_lt_0_compat; [exact Hp0 | apply Qinv_lt_0_compat, He0]. }
  unfold passes_filters, getitem.
  rewrite lookup_insert_eq, bind_Ok. simpl negb. cbv iota.
  rewrite py_le_num. apply Qle_bool_false_iff in Hv. rewrite Hv, bind_Ok. cbv iota.
  rewrite (lookup_insert_ne _ "intrinsic_value" "ticker") by discriminate.
  rewrite (lookup_insert_ne _ "pe_ratio" "ticker") by discriminate.
  rewrite lookup_insert_eq.
  rewrite (lookup_insert_ne _ "intrinsic_value" "pe_ratio") by discriminate.
  rewrite lookup_insert_eq.
  assert (Hneg : (if truthy (dict_get filter_params "exclude_negative_pe" (VBool false))
                  then ticker0 ← Ok (VStr ticker);
                       if not_in_amex ticker0
                       then pe ← Ok (VNum (p / e)); py_le pe (VNum 0)
                       else Ok false
                  else Ok false) = Ok false).
  { destruct (truthy _); [|reflexivity]. rewrite bind_Ok.
    destruct (not_in_amex (VStr ticker)); [|reflexivity].
    rewrite bind_Ok, py_le_num. apply Qle_bool_false_iff in Hpe. rewrite Hpe. reflexivity. }
  rewrite Hneg, bind_Ok. cbv iota.
  destruct (filter_params !! "max_pe") as [mv|] eqn:Em; [|reflexivity].
  destruct (Hmax mv eq_refl) as [m ->]. rewrite bind_Ok, py_gt_num, bind_Ok.
  unfold Qlt_bool. destruct (Qle_bool (p / e) m); reflexivity.
Qed.

(** The AAPL record of [test_stock_analyzer.py]: P/E 150 / 5 = 30. *)
Lemma positive_pe_filtering_witness :
  exists stock,
    with_pe_ratio "AAPL" Fixtures.AAPL = Ok stock
    /\ stock !! "pe_ratio" = Some (VNum (150 / 5))
    /\ passes_filters (<["intrinsic_value" := VNum 160]> stock) Fixtures.basic_filters = Ok true
    /\ passes_filters (<["intrinsic_value" := VNum 160]> stock) {[ "max_pe" := VNum 29 ]}
       = Ok false.
Proof.
  assert (Hpos : forall z : Z, (0 < z)%Z -> 0 < inject_Z z).
  { intros z Hz. unfold Qlt. simpl. lia. }
  destruct (positive_pe_filtering "AAPL" Fixtures.AAPL Fixtures.basic_filters 150 5 160)
    as (stock & H1 & H2 & H3);
    [reflexivity | apply (Hpos 150%Z); lia | reflexivity | apply (Hpos 5%Z); lia
     | apply (Hpos 160%Z); lia | |].
  { intros mv Hm. vm_compute in Hm. injection Hm as <-. eexists. reflexivity. }
  destruct (positive_pe_filtering "AAPL" Fixtures.AAPL {[ "max_pe" := VNum 29 ]} 150 5 160)
    as (stock' & H1' & _ & H3');
    [reflexivity | apply (Hpos 150%Z); lia | reflexivity | apply (Hpos 5%Z); lia
     | apply (Hpos 160%Z); lia | |].
  { intros mv Hm. vm_compute in Hm. injection Hm as <-. eexists. reflexivity. }
  rewrite H1 in H1'. injection H1' as <-.
  exists stock. split; [exact H1|]. split; [exact H2|].
  split; [rewrite H3 | rewrite H3']; reflexivity.
Defined.

Lemma map_result_raises {A B : Type} (f : A -> result B) (l : list A) (x : A) (e : exn) :
  x ∈ l -> f x = Raise e -> exists e', map_result f l = Raise e'.
Proof.
  induction l as [|y l IH]; intros Hx Hf.
  - inversion Hx.
  - simpl. apply elem_of_cons in Hx as [<- | Hx].
    + rewrite Hf. eexists. reflexivity.
    + destruct (f y) as [b|e0]; [|eexists; reflexivity].
      rewrite bind_Ok. destruct (IH Hx Hf) as [e' ->]. eexists. reflexivity.
Qed.

Lemma map_result_elem_of {A B : Type} (f : A -> result B) (l : list A) (l' : list B)
    (x : A) (y : B) :
  map_result f l = Ok l' -> x ∈ l -> f x = Ok y -> y ∈ l'.
Proof.
  revert l'. induction l as [|z l IH]; intros l' H Hx Hf; simpl in H.
  - inversion Hx.
  - step_bind H. step_bind H. injection H as <-.
    apply elem_of_cons in Hx as [<- | Hx].
    + rewrite Hf in E. injection E as <-. left.
    + right. exact (IH _ eq_refl Hx Hf).
Qed.

(** X17. One record that cannot be prepared or valued ends the analysis:
    when the P/E or the intrinsic value of any fetched record raises,
    [analyze_stocks] raises and returns no row for any ticker. *)
Theorem one_bad_record_aborts_analysis
    (cm : ConfigManager.t) (stock_data : list (string * gmap string value))
    (filter_params : gmap string value) (sector_prefs : option (list string))
    (ticker : string) (data : gmap string value) (e : exn) :
  (ticker, data) ∈ stock_data ->
  with_pe_ratio ticker data = Raise e
  \/ (exists stock, with_pe_ratio ticker data = Ok stock
                    /\ IntrinsicValueCalculator.get_intrinsic_value cm stock = Raise e) ->
  exists e', analyze cm stock_data filter_params sector_prefs = Raise e'.
Proof.
  intros Hin Hbad. unfold analyze.
  destruct (map_result (fun '(ticker, data) => with_pe_ratio ticker data) stock_data)
    as [stock_list|e1] eqn:E1; [|eexists; reflexivity].
  rewrite bind_Ok. destruct Hbad as [Hpe | (stock & Hpe & Hiv)].
  - destruct (map_result_raises (fun '(ticker, data) => with_pe_ratio ticker data)
                stock_data (ticker, data) e Hin Hpe) as [e' He'].
    rewrite He' in E1. discriminate E1.
  - pose proof (map_result_elem_of (fun '(ticker, data) => with_pe_ratio ticker data)
                  _ _ (ticker, data) stock E1 Hin Hpe) as Hstock.
    destruct (map_result_raises (with_intrinsic_value cm) stock_list stock e Hstock)
      as [e' He'].
    + unfold with_intrinsic_value. rewrite Hiv. reflexivity.
    + rewrite He'. eexists. reflexivity.
Qed.

(** A record with free cash flow and no share count, among good ones. *)
Lemma one_bad_record_aborts_analysis_witness :
  exists e',
    analyze Fixtures.config_manager
      (Fixtures.stock_data
       ++ [("NOSH", <["shares" := VNone]> Fixtures.AAPL)])%list ∅ None = Raise e'.
Proof.
  apply (one_bad_record_aborts_analysis Fixtures.config_manager _ ∅ None
           "NOSH" (<["shares" := VNone]> Fixtures.AAPL) TypeError).
  - apply elem_of_app. right. left.
  - assert (T : match with_pe_ratio "NOSH" (<["shares" := VNone]> Fixtures.AAPL) with
                | Ok stock =>
                    match IntrinsicValueCalculator.get_intrinsic_value
                            Fixtures.config_manager stock with
                    | Raise TypeError => true
                    | _ => false
                    end
                | Raise _ => false
                end = true) by (vm_compute; reflexivity).
    destruct (with_pe_ratio "NOSH" (<["shares" := VNone]> Fixtures.AAPL))
      as [stock|e0] eqn:E; [|discriminate T].
    right. exists stock. split; [reflexivity|].
    destruct (IntrinsicValueCalculator.get_intrinsic_value Fixtures.config_manager stock)
      as [v|e1]; [discriminate T|].
    destruct e1; try discriminate T. reflexivity.
Defined.

End AnalyzerMore.

(** ** The table: writes, derived values, the retention sweep *)

Section DatabaseMore.
Import DatabaseManager.

Lemma save_stock_data_Ok (now : Z) (ticker : string) (data : gmap string value)
    (db db' : gmap string row) :
  save_stock_data now ticker data db = Ok db' ->
  exists r,
    db' = <[ticker := r]> db /\ stored_as data r
    /\ intrinsic_value r = VNone /\ score r = VNone /\ timestamp r = VTime now.
Proof.
  unfold save_stock_data. intros H.
  destruct (real_column (dict_get data "price" VNone)) as [p|] eqn:E1; [|discriminate H].
  destruct (real_column (dict_get data "shares" VNone)) as [sh|] eqn:E2; [|discriminate H].
  destruct (real_column (dict_get data "fcf" VNone)) as [f|] eqn:E3; [|discriminate H].
  destruct (text_column (dict_get data "sector" VNone)) as [sec|] eqn:E4; [|discriminate H].
  destruct (real_column (dict_get data "eps" VNone)) as [e|] eqn:E5; [|discriminate H].
  injection H as <-. eexists. split; [reflexivity|].
  split; [repeat split; assumption|]. repeat split.
Qed.

Lemma real_column_Ok (v v' : value) :
  real_column v = Ok v' ->
  (v = VNone <-> v' = VNone)
  /\ (forall b, v = VBool b -> v' = VNum (if b then 1 else 0))
  /\ ((forall b, v <> VBool b) -> v' = v).
Proof.
  destruct v as [|b|q| |s|t]; simpl; try discriminate.
  3: destruct (kept_by_real_column q); [|discriminate].
  all: intros [= <-]; (split; [split; intros H; try discriminate H; reflexivity|]);
    (split; [intros b' H; try discriminate H; try (injection H as ->); reflexivity|]);
    intros H; try reflexivity; exfalso; eapply H; reflexivity.
Qed.

Lemma text_column_Ok (v v' : value) :
  text_column v = Ok v' ->
  (v = VNone <-> v' = VNone)
  /\ (forall b, v = VBool b -> v' = VStr (if b then "1" else "0"))
  /\ ((forall b, v <> VBool b) -> v' = v).
Proof.
  destruct v as [|b|q| |s|t]; simpl; try discriminate.
  all: intros [= <-]; (split; [split; intros H; try discriminate H; reflexivity|]);
    (split; [intros b' H; try discriminate H; try (injection H as ->); reflexivity|]);
    intros H; try reflexivity; exfalso; eapply H; reflexivity.
Qed.

(** X18. When [save_stock_data] returns, the row of the ticker is replaced.
    Read back, it gives each number and the sector text of the data as they
    were given, a [bool] in a numeric field as [0] or [1], [None] for a
    field that the data lacks or has as [None], the time of the write, and
    no intrinsic value and no score, even when an intrinsic value and a
    score had been stored for the ticker before. The rows of other tickers
    are as they were. *)
Theorem save_then_read_back
    (now : Z) (ticker : string) (data : gmap string value) (db db' : gmap string row) :
  save_stock_data now ticker data db = Ok db' ->
  (exists back,
     get_cached_data ticker db' = Some back
     /\ back !! "timestamp" = Some (VTime now)
     /\ back !! "intrinsic_value" = Some VNone
     /\ back !! "score" = Some VNone
     /\ (forall k, k ∈ ["price"; "shares"; "fcf"; "eps"] ->
           (forall q, data !! k = Some (VNum q) -> back !! k = Some (VNum q))
           /\ (forall b, data !! k = Some (VBool b) ->
                 back !! k = Some (VNum (if b then 1 else 0)))
           /\ (dict_get data k VNone = VNone -> back !! k = Some VNone))
     /\ (forall s, data !! "sector" = Some (VStr s) -> back !! "sector" = Some (VStr s))
     /\ (dict_get data "sector" VNone = VNone -> back !! "sector" = Some VNone))
  /\ (forall v s now1 now2 db1,
        save_stock_data now ticker data
          (save_score now2 ticker s (save_intrinsic_value now1 ticker v db)) = Ok db1 ->
        get_cached_data ticker db1 = get_cached_data ticker db')
  /\ (forall other, other <> ticker ->
        get_cached_data other db' = get_cached_data other db).
Proof.
  intros H. destruct (save_stock_data_Ok _ _ _ _ _ H) as (r & -> & Hst & Hiv & Hsc & Hts).
  unfold get_cached_data. split; [|split].
  - exists (row_dict ticker r). rewrite lookup_insert_eq. split; [reflexivity|].
    destruct (row_dict_lookups ticker r) as (_ & Lts & Lp & Ls & Lf & Lsec & Le).
    split; [rewrite Lts, Hts; reflexivity|].
    split; [rewrite <- Hiv; reflexivity|]. split; [rewrite <- Hsc; reflexivity|].
    destruct Hst as (Hp & Hsh & Hf & Hsec & He).
    assert (Hreal : forall k x,
               real_column (dict_get data k VNone) = Ok x ->
               (forall q, data !! k = Some (VNum q) -> x = VNum q)
               /\ (forall b, data !! k = Some (VBool b) -> x = VNum (if b then 1 else 0))
               /\ (dict_get data k VNone = VNone -> x = VNone)).
    { intros k x Hx. destruct (real_column_Ok _ _ Hx) as (Hnone & Hbool & Hsame).
      unfold dict_get in *. split; [|split].
      - intros q Hq. rewrite Hq in Hsame. apply Hsame. discriminate.
      - intros b Hb. rewrite Hb in Hbool. exact (Hbool b eq_refl).
      - intros Hn. exact (proj1 Hnone Hn). }
    split; [|split].
    + intros k Hk.
      repeat (apply elem_of_cons in Hk as [->|Hk]); [| | | |inversion Hk].
      * rewrite Lp. destruct (Hreal _ _ Hp) as (A & B & C).
        split; [intros q Hq; rewrite (A q Hq); reflexivity|].
        split; [intros b Hb; rewrite (B b Hb); reflexivity|].
        intros Hn; rewrite (C Hn); reflexivity.
      * rewrite Ls. destruct (Hreal _ _ Hsh) as (A & B & C).
        split; [intros q Hq; rewrite (A q Hq); reflexivity|].
        split; [intros b Hb; rewrite (B b Hb); reflexivity|].
        intros Hn; rewrite (C Hn); reflexivity.
      * rewrite Lf. destruct (Hreal _ _ Hf) as (A & B & C).
        split; [intros q Hq; rewrite (A q Hq); reflexivity|].
        split; [intros b Hb; rewrite (B b Hb); reflexivity|].
        intros Hn; rewrite (C Hn); reflexivity.
      * rewrite Le. destruct (Hreal _ _ He) as (A & B & C).
        split; [intros q Hq; rewrite (A q Hq); reflexivity|].
        split; [intros b Hb; rewrite (B b Hb); reflexivity|].
        intros Hn; rewrite (C Hn); reflexivity.
    + intros s Hs. rewrite Lsec. destruct (text_column_Ok _ _ Hsec) as (_ & _ & Hsame).
      unfold dict_get in Hsame. rewrite Hs in Hsame. rewrite Hsame; [reflexivity|discriminate].
    + intros Hn. rewrite Lsec. destruct (text_column_Ok _ _ Hsec) as (Hnone & _).
      rewrite (proj1 Hnone Hn). reflexivity.
  - intros v s now1 now2 db1 H1.
    destruct (save_stock_data_Ok _ _ _ _ _ H1) as (r1 & -> & Hst1 & Hiv1 & Hsc1 & Hts1).
    rewrite !lookup_insert_eq. f_equal. f_equal.
    destruct Hst as (Hp & Hsh & Hf & Hsec & He).
    destruct Hst1 as (Hp1 & Hsh1 & Hf1 & Hsec1 & He1).
    destruct r, r1. simpl in *. congruence.
  - intros other Hne. rewrite lookup_insert_ne by congruence. reflexivity.
Qed.

(** A record with [eps] given as [true] and without [fcf]. *)
Lemma save_then_read_back_witness :
  exists db' back,
    save_stock_data 5 "AAPL"
      {[ "price" := VNum 10; "shares" := VNum 100; "sector" := VStr "Technology";
         "eps" := VBool true ]}
      {[ "AAPL" := Fixtures.cached_AAPL ]} = Ok db'
    /\ get_cached_data "AAPL" db' = Some back
    /\ back !! "price" = Some (VNum 10) /\ back !! "eps" = Some (VNum 1)
    /\ back !! "fcf" = Some VNone /\ back !! "score" = Some VNone.
Proof.
  assert (T : match save_stock_data 5 "AAPL"
                      {[ "price" := VNum 10; "shares" := VNum 100;
                         "sector" := VStr "Technology"; "eps" := VBool true ]}
                      {[ "AAPL" := Fixtures.cached_AAPL ]} with
              | Ok _ => true
              | Raise _ => false
              end = true) by (vm_compute; reflexivity).
  destruct (save_stock_data 5 "AAPL"
              {[ "price" := VNum 10; "shares" := VNum 100; "sector" := VStr "Technology";
                 "eps" := VBool true ]}
              {[ "AAPL" := Fixtures.cached_AAPL ]}) as [db'|e] eqn:E; [|discriminate T].
  destruct (save_then_read_back _ _ _ _ _ E)
    as ((back & Hget & _ & _ & Hscore & Hreal & _ & _) & _).
  exists db', back. split; [reflexivity|]. split; [exact Hget|].
  assert (Hprice : "price" ∈ ["price"; "shares"; "fcf"; "eps"]) by left.
  assert (Hfcf : "fcf" ∈ ["price"; "shares"; "fcf"; "eps"]) by (do 2 right; left).
  assert (Heps : "eps" ∈ ["price"; "shares"; "fcf"; "eps"]) by (do 3 right; left).
  split; [apply (proj1 (Hreal "price" Hprice)); reflexivity|].
  split; [apply (proj1 (proj2 (Hreal "eps" Heps)) true); reflexivity|].
  split; [apply (proj2 (proj2 (Hreal "fcf" Hfcf))); reflexivity | exact Hscore].
Defined.



(** X20. The retention sweep deletes the rows stamped before [now - max_age]
    and nothing else: a stamped row stays exactly when its age is at most
    [max_age] (the boundary stays), a row without a time stamp stays, and no
    row is added or altered. *)
Theorem sweep_keeps_the_recent (now max_age : Z) (db : gmap string row) :
  (forall t r ts, db !! t = Some r -> timestamp r = VTime ts ->
     (now - ts <= max_age)%Z -> clear_outdated_data now max_age db !! t = Some r)
  /\ (forall t r ts, db !! t = Some r -> timestamp r = VTime ts ->
       (max_age < now - ts)%Z -> clear_outdated_data now max_age db !! t = None)
  /\ (forall t r, db !! t = Some r -> timestamp r = VNone ->
       clear_outdated_data now max_age db !! t = Some r)
  /\ (forall t r, clear_outdated_data now max_age db !! t = Some r -> db !! t = Some r).
Proof.
  unfold clear_outdated_data. split; [|split; [|split]].
  - intros t r ts Hr Hts Hage. apply map_lookup_filter_Some. split; [exact Hr|].
    simpl. unfold outdated. rewrite Hts. apply Z.ltb_ge. lia.
  - intros t r ts Hr Hts Hage. apply map_lookup_filter_None. right.
    intros r' Hr'. rewrite Hr in Hr'. injection Hr' as <-.
    simpl. unfold outdated. rewrite Hts.
    assert (H : (ts <? now - max_age)%Z = true) by (apply Z.ltb_lt; lia).
    rewrite H. discriminate.
  - intros t r Hr Hts. apply map_lookup_filter_Some. split; [exact Hr|].
    simpl. unfold outdated. rewrite Hts. reflexivity.
  - intros t r H. apply map_lookup_filter_Some in H as [H _]. exact H.
Qed.

(** [test_clear_outdated_data]: rows of 1 and 15 December, swept on the 30th
    with 15 days. *)
Lemma sweep_keeps_the_recent_witness :
  let day := 86400000000%Z in
  let row_at (ts : Z) :=
    {| price := VNum 100; shares := VNone; fcf := VNone; sector := VNone; eps := VNone;
       intrinsic_value := VNone; score := VNone; timestamp := VTime ts |} in
  let db : gmap string row := {[ "AAPL" := row_at 0%Z; "MSFT" := row_at (14 * day)%Z ]} in
  clear_outdated_data (29 * day)%Z (15 * day)%Z db !! "AAPL" = None
  /\ clear_outdated_data (29 * day)%Z (15 * day)%Z db !! "MSFT" = Some (row_at (14 * day)%Z).
Proof.
  intros day row_at db.
  destruct (sweep_keeps_the_recent (29 * day)%Z (15 * day)%Z db) as (Hkeep & Hdrop & _ & _).
  split.
  - apply (Hdrop "AAPL" (row_at 0%Z) 0%Z); [vm_compute; reflexivity | reflexivity|].
    vm_compute. reflexivity.
  - apply (Hkeep "MSFT" (row_at (14 * day)%Z) (14 * day)%Z);
      [vm_compute; reflexivity | reflexivity|].
    vm_compute. discriminate.
Defined.

(** X21. Every write stamps its row: a table in which every row carries a
    time stamp stays so under [save_stock_data], [save_intrinsic_value],
    [save_score] and the retention sweep. *)
Theorem writes_keep_rows_stamped (db : gmap string row) :
  stamped db ->
  forall now ticker,
    (forall data db', save_stock_data now ticker data db = Ok db' -> stamped db')
    /\ (forall v, stamped (save_intrinsic_value now ticker v db))
    /\ (forall v, stamped (save_score now ticker v db))
    /\ (forall max_age, stamped (clear_outdated_data now max_age db)).
Proof.
  intros Hst now ticker. split; [|split; [|split]].
  - intros data db' Hsave t r.
    destruct (save_stock_data_Ok _ _ _ _ _ Hsave) as (r0 & -> & _ & _ & _ & Hts).
    rewrite lookup_insert.
    case_decide; [intros [= <-]; eexists; exact Hts | apply Hst].
  - intros v t r. unfold save_intrinsic_value. rewrite lookup_alter.
    case_decide; [|apply Hst].
    destruct (db !! ticker); [intros [= <-]; eexists; reflexivity | discriminate].
  - intros v t r. unfold save_score. rewrite lookup_alter.
    case_decide; [|apply Hst].
    destruct (db !! ticker); [intros [= <-]; eexists; reflexivity | discriminate].
  - intros max_age t r H. unfold clear_outdated_data in H.
    apply map_lookup_filter_Some in H as [H _]. exact (Hst t r H).
Qed.

Lemma writes_keep_rows_stamped_witness :
  stamped (save_score 7 "AAPL" (VNum 2) {[ "AAPL" := Fixtures.cached_AAPL ]}).
Proof.
  apply (writes_keep_rows_stamped {[ "AAPL" := Fixtures.cached_AAPL ]}).
  intros t r H. apply lookup_singleton_Some in H as [_ <-]. eexists. reflexivity.
Defined.

End DatabaseMore.

(** ** The fetcher: what escapes, what is written, what is served again *)

Section FetcherMore.
Import DataFetcher.

(** *** The lookups of one ticker *)

Lemma lookups_only_ret {A : Type} (P : A -> Prop) (a : A) :
  P a -> lookups_only P (mret a : io A).
Proof. intros Ha w r w' [= <- <-]. auto. Qed.

Lemma lookups_only_bind {A B : Type} (P : A -> Prop) (Q : B -> Prop)
    (m : io A) (k : A -> io B) :
  lookups_only P m -> (forall a, P a -> lookups_only Q (k a)) -> lookups_only Q (m ≫= k).
Proof.
  intros Hm Hk w r w' H. rewrite io_bind_run in H.
  destruct (m w) as [[a|e] w1] eqn:E.
  - destruct (Hm _ _ _ E) as (D1 & C1 & L1 & Pa).
    destruct (Hk a Pa _ _ _ H) as (D2 & C2 & L2 & R).
    rewrite D2, C2, L2. auto.
  - injection H as <- <-. exact (Hm _ _ _ E).
Qed.

Lemma lookups_only_http (self : t) (e : endpoint) (ticker : string) :
  lookups_only (fun _ => True) (http_get_json self e ticker).
Proof.
  intros w r w' H. unfold http_get_json in H.
  destruct (remote self e ticker); injection H as <- <-; simpl; auto.
Qed.

Lemma json_first_raises (j : json) (e : exn) :
  json_first j = Raise e -> caught e = true \/ e = TypeError.
Proof.
  destruct j as [[|x l]|o|[| | |[|c s]]]; simpl; intros H; try discriminate H;
    injection H as <-; auto.
Qed.

Lemma item_contains_raises (key : string) (x : item) (e : exn) :
  item_contains key x = Raise e -> e = TypeError.
Proof.
  destruct x as [o|[| | |s]]; simpl; intros H; try discriminate H;
    injection H as <-; reflexivity.
Qed.

Lemma item_getitem_raises (key : string) (x : item) (e : exn) :
  item_getitem key x = Raise e -> caught e = true \/ e = TypeError.
Proof.
  destruct x as [o|s]; simpl; [destruct (o !! key)|]; intros H; try discriminate H;
    injection H as <-; auto.
Qed.

(** What a malformed body can make the extraction of a field raise. *)
Lemma extract_raises (key : string) (j : json) (e : exn) :
  extract key j = Raise e -> caught e = true \/ e = TypeError.
Proof.
  unfold extract. destruct (json_truthy j); [|discriminate].
  destruct (json_first j) as [x|e1] eqn:E1.
  - rewrite bind_Ok. destruct (item_contains key x) as [[|]|e2] eqn:E2.
    + rewrite !bind_Ok. apply item_getitem_raises.
    + rewrite bind_Ok. discriminate.
    + rewrite bind_Raise. intros [= <-]. right. exact (item_contains_raises _ _ _ E2).
  - rewrite bind_Raise. intros [= <-]. exact (json_first_raises _ _ E1).
Qed.

Lemma lookups_only_extract (key : string) (j : json) :
  lookups_only (fun _ => True) (lift (extract key j)).
Proof.
  intros w r w' [= <- <-]. repeat split.
  destruct (extract key j) eqn:E; [trivial | exact (extract_raises _ _ _ E)].
Qed.

Lemma lookups_only_fetch_ticker (self : t) (ticker : string) :
  lookups_only five_fields (fetch_ticker self ticker).
Proof.
  unfold fetch_ticker.
  repeat (eapply (lookups_only_bind (fun _ => True));
          [first [apply lookups_only_http | apply lookups_only_extract] | intros ? _]).
  apply lookups_only_ret. do 5 eexists. reflexivity.
Qed.

(** One turn of the loop of [fetch_from_api]: an entry, or a line in the
    log, or a [TypeError]; the table and the clock are not touched. *)
Lemma try_fetch_outcome (self : t) (ticker : string) (w : world)
    (r : result (option (gmap string value))) (w1 : world) :
  try_except (data ← fetch_ticker self ticker; mret (Some data))
             (fun e => _ ← logger_info (LogError ticker e); mret None) w = (r, w1) ->
  db w1 = db w /\ clock w1 = clock w
  /\ match r with
     | Ok (Some d) => five_fields d /\ log w1 = log w
     | Ok None => exists e, caught e = true /\ log w1 = (log w ++ [LogError ticker e])%list
     | Raise e => e = TypeError /\ log w1 = log w
     end.
Proof.
  unfold try_except. rewrite io_bind_run.
  destruct (fetch_ticker self ticker w) as [[d|e] w0] eqn:E;
    destruct (lookups_only_fetch_ticker self ticker _ _ _ E) as (D & C & L & R).
  - intros [= <- <-]. auto.
  - destruct (caught e) eqn:Ec.
    + rewrite io_bind_run. unfold logger_info. intros [= <- <-]. simpl.
      repeat split; auto. exists e. rewrite L. auto.
    + intros [= <- <-]. destruct R as [R|R]; [congruence|]. auto.
Qed.

Lemma od_get_elem {V : Type} (k : string) (v : V) (d : list (string * V)) :
  od_get k d = Some v -> (k, v) ∈ d.
Proof.
  induction d as [|[k' v'] d IH]; simpl; [discriminate|].
  destruct (String.eqb k k') eqn:E.
  - apply String.eqb_eq in E as <-. intros [= <-]. left.
  - intros H. right. exact (IH H).
Qed.

Lemma od_set_Forall {V : Type} (P : string * V -> Prop) (k : string) (v : V)
    (d : list (string * V)) :
  Forall P d -> P (k, v) -> Forall P (od_set k v d).
Proof.
  intros Hd Hv. induction Hd as [|[k' v'] d Hx Hd IH]; simpl.
  - constructor; [exact Hv | constructor].
  - destruct (String.eqb k k'); constructor; auto.
Qed.

Lemma od_get_set_cases {V : Type} (t k : string) (v : V) (d : list (string * V)) :
  od_get t (od_set k v d) = (if String.eqb t k then Some v else od_get t d).
Proof.
  destruct (String.eqb t k) eqn:E.
  - apply String.eqb_eq in E as ->. apply od_get_set_eq.
  - apply od_get_set_ne. intros ->. rewrite String.eqb_refl in E. discriminate E.
Qed.

Lemma fetch_from_api_loop_outcome (self : t) (tickers : list string) :
  forall result w r w',
    fetch_from_api_loop self tickers result w = (r, w') ->
    db w' = db w /\ clock w' = clock w
    /\ (exists new, log w' = (log w ++ new)%list)
    /\ match r with
       | Raise e => e = TypeError
       | Ok result' =>
           (forall t, is_Some (od_get t result) -> is_Some (od_get t result'))
           /\ (forall t, t ∈ tickers ->
                 is_Some (od_get t result')
                 \/ exists e, caught e = true /\ LogError t e ∈ log w')
           /\ (Forall (fun kv => five_fields (snd kv)) result ->
               Forall (fun kv => five_fields (snd kv)) result')
           /\ (forall t, is_Some (od_get t result') ->
                 is_Some (od_get t result) \/ t ∈ tickers)
       end.
Proof.
  induction tickers as [|t rest IH]; intros result w r w' H; simpl in H.
  - injection H as <- <-. split; [reflexivity|]. split; [reflexivity|].
    split; [exists []; rewrite app_nil_r; reflexivity|].
    split; [auto|]. split; [intros t Ht; inversion Ht|]. split; auto.
  - rewrite io_bind_run in H.
    match type of H with
    | match ?c with _ => _ end = _ => destruct c as [[entry|e] w1] eqn:E
    end.
    + destruct (try_fetch_outcome _ _ _ _ _ E) as (D1 & C1 & R1).
      destruct (IH _ _ _ _ H) as (D2 & C2 & [new L2] & R2).
      split; [congruence|]. split; [congruence|].
      assert (Hlog : exists new1, log w1 = (log w ++ new1)%list).
      { destruct entry as [d|].
        - exists []. rewrite app_nil_r. apply R1.
        - destruct R1 as (e & _ & L1). eexists. exact L1. }
      destruct Hlog as [new1 L1].
      split; [exists (new1 ++ new)%list; rewrite L2, L1, app_assoc; reflexivity|].
      destruct r as [result'|e]; [|exact R2].
      destruct R2 as (Hmono & Hacc & Hfive & Horigin).
      split; [|split; [|split]].
      * intros t0 Ht0. apply Hmono. destruct entry as [d|]; [|exact Ht0].
        rewrite od_get_set_cases. destruct (String.eqb t0 t); [eexists; reflexivity|exact Ht0].
      * intros t0 Ht0. apply elem_of_cons in Ht0 as [->|Ht0]; [|apply Hacc, Ht0].
        destruct entry as [d|].
        -- left. apply Hmono. rewrite od_get_set_eq. eexists. reflexivity.
        -- right. destruct R1 as (e & Hc & L1'). exists e. split; [exact Hc|].
           rewrite L2, L1'. apply elem_of_app. left. apply elem_of_app. right. left.
      * intros Hres. apply Hfive. destruct entry as [d|]; [|exact Hres].
        apply od_set_Forall; [exact Hres | apply R1].
      * intros t0 Ht0. destruct (Horigin t0 Ht0) as [Hin|Hin].
        -- destruct entry as [d|]; [|left; exact Hin].
           rewrite od_get_set_cases in Hin. destruct (String.eqb t0 t) eqn:Et.
           ++ apply String.eqb_eq in Et as ->. right. left.
           ++ left. exact Hin.
        -- right. right. exact Hin.
    + injection H as <- <-.
      destruct (try_fetch_outcome _ _ _ _ _ E) as (D1 & C1 & -> & L1).
      split; [exact D1|]. split; [exact C1|].
      split; [exists []; rewrite app_nil_r; exact L1 | reflexivity].
Qed.


(** *** The cache pass *)

Lemma complete_and_fresh_frame (self : t) (w w' : world) (required_fields : list string)
    (ticker : string) (r : DatabaseManager.row) :
  db w' !! ticker = db w !! ticker -> clock w' = clock w ->
  complete_and_fresh self w required_fields ticker r ->
  complete_and_fresh self w' required_fields ticker r.
Proof.
  intros Hdb Hclock (H1 & H2 & ts & H3 & H4).
  split; [congruence|]. split; [exact H2|]. exists ts. split; [exact H3|]. congruence.
Qed.

(** What the cache check can answer: the fields of a row that is complete
    and fresh, or a request to fetch; it raises on a row without a time
    stamp and on no other. *)
Lemma cache_lookup_outcome (self : t) (required_fields : list string) (ticker : string)
    (w : world) (r : result (option (gmap string value))) (w' : world) :
  cache_lookup self required_fields ticker w = (r, w') ->
  w' = w
  /\ match r with
     | Ok (Some fields) =>
         exists row, complete_and_fresh self w required_fields ticker row
                     /\ cached_fields row = fields
     | Ok None => True
     | Raise _ => ~ stamped (db w)
     end.
Proof.
  intros H. split; [exact (reads_only_cache_lookup _ _ _ _ _ _ H)|].
  destruct (db w !! ticker) as [row|] eqn:Hdb.
  - destruct (DatabaseManager.timestamp row) as [| | | | |ts] eqn:Hts.
    6: { rewrite (cache_lookup_timestamped self w required_fields ticker row ts Hdb Hts) in H.
         injection H as <- _.
         destruct (forallb _ required_fields) eqn:Hall; [|exact I].
         destruct (clock w - ts <? cache_duration self)%Z eqn:Hage; [|exact I].
         simpl. exists row. split; [|reflexivity].
         split; [exact Hdb|]. split.
         - apply Forall_forall. intros field Hin.
           rewrite forallb_forall in Hall.
           specialize (Hall field (proj1 (list_elem_of_In _ _) Hin)).
           intros Hnone. rewrite Hnone in Hall. discriminate Hall.
         - exists ts. split; [exact Hts|]. apply Z.ltb_lt. exact Hage. }
    all: destruct r as [[fields|]|e]; [exfalso|exact I|
           intros Hst; destruct (Hst _ _ Hdb) as [ts Hts']; congruence].
    all: destruct (row_dict_lookups ticker row) as (_ & Lts & _);
         assert (Hget : db_get_cached_data ticker w
                        = (Ok (Some (DatabaseManager.row_dict ticker row)), w))
           by (unfold db_get_cached_data, DatabaseManager.get_cached_data;
               rewrite Hdb; reflexivity);
         unfold cache_lookup in H; rewrite io_bind_run, Hget, row_dict_nonempty in H;
         destruct (forallb _ required_fields); [|discriminate H];
         rewrite io_bind_run in H; unfold lift, getitem in H;
         rewrite Lts, Hts in H; discriminate H.
  - unfold cache_lookup in H. rewrite io_bind_run in H.
    unfold db_get_cached_data, DatabaseManager.get_cached_data in H.
    rewrite Hdb in H. injection H as <- _. exact I.
Qed.

Lemma cache_loop_outcome (self : t) (required_fields tickers : list string) :
  forall result to_fetch w r w',
    cache_loop self required_fields tickers result to_fetch w = (r, w') ->
    w' = w
    /\ match r with
       | Ok (result', to_fetch') =>
           (served self w required_fields result -> served self w required_fields result')
           /\ (forall t, is_Some (od_get t result') ->
                 is_Some (od_get t result) \/ t ∈ tickers)
           /\ (forall t, t ∈ to_fetch' -> t ∈ to_fetch \/ t ∈ tickers)
       | Raise _ => ~ stamped (db w)
       end.
Proof.
  induction tickers as [|t rest IH]; intros result to_fetch w r w' H; simpl in H.
  - injection H as <- <-. split; [reflexivity|]. auto.
  - rewrite io_bind_run in H.
    destruct (cache_lookup self required_fields t w) as [[entry|e] w1] eqn:E;
      destruct (cache_lookup_outcome _ _ _ _ _ _ E) as [-> R1].
    + destruct entry as [fields|];
        destruct (IH _ _ _ _ _ H) as [-> R2]; (split; [reflexivity|]);
        (destruct r as [[result' to_fetch']|e]; [|exact R2]);
        destruct R2 as (Hserved & Hkeys & Hqueue).
      * split; [|split].
        -- intros Hres. apply Hserved. intros t0 d0. rewrite od_get_set_cases.
           destruct (String.eqb t0 t) eqn:Et; [|apply Hres].
           apply String.eqb_eq in Et as ->. intros [= <-].
           destruct R1 as (row & Hrow & Hfields). exists row. split; [exact Hrow|].
           left. exact Hfields.
        -- intros t0 Ht0. destruct (Hkeys t0 Ht0) as [Hin|Hin]; [|right; right; exact Hin].
           rewrite od_get_set_cases in Hin. destruct (String.eqb t0 t) eqn:Et.
           ++ apply String.eqb_eq in Et as ->. right. left.
           ++ left. exact Hin.
        -- intros t0 Ht0. destruct (Hqueue t0 Ht0) as [Hin|Hin]; [left|right; right]; exact Hin.
      * split; [exact Hserved|]. split.
        -- intros t0 Ht0. destruct (Hkeys t0 Ht0) as [Hin|Hin]; [left|right; right]; exact Hin.
        -- intros t0 Ht0. destruct (Hqueue t0 Ht0) as [Hin|Hin]; [|right; right; exact Hin].
           apply elem_of_app in Hin as [Hin|Hin]; [left; exact Hin|].
           apply list_elem_of_singleton in Hin as ->. right. left.
    + injection H as <- <-. split; [reflexivity | exact R1].
Qed.

(** *** The store pass *)

Lemma stamped_save_stock_data (now : Z) (ticker : string) (data : gmap string value)
    (table table' : gmap string DatabaseManager.row) :
  DatabaseManager.save_stock_data now ticker data table = Ok table' ->
  stamped table -> stamped table'.
Proof.
  intros Hsave Hst t0 r.
  destruct (save_stock_data_Ok _ _ _ _ _ Hsave) as (r0 & -> & _ & _ & _ & Hts).
  rewrite lookup_insert.
  case_decide; [intros [= <-]; eexists; exact Hts | apply Hst].
Qed.

(** What [db_save_stock_data] does: it writes the row of the ticker and
    nothing else, or it fails, on a value that a column does not keep, and
    writes nothing. *)
Lemma db_save_stock_data_outcome (ticker : string) (data : gmap string value)
    (w : world) (r : result unit) (w' : world) :
  db_save_stock_data ticker data w = (r, w') ->
  match r with
  | Ok _ =>
      exists table',
        DatabaseManager.save_stock_data (clock w) ticker data (db w) = Ok table'
        /\ w' = {| db := table'; clock := clock w; requests := requests w; log := log w |}
  | Raise e => e = Unmodelled /\ w' = w
  end.
Proof.
  unfold db_save_stock_data. intros H.
  destruct (DatabaseManager.save_stock_data (clock w) ticker data (db w))
    as [table'|e] eqn:E; injection H as <- <-.
  - exists table'. split; reflexivity.
  - split; [|reflexivity]. unfold DatabaseManager.save_stock_data in E.
    repeat match type of E with
           | mbind _ ?c = _ =>
               let E' := fresh "E" in
               destruct c eqn:E';
               [rewrite bind_Ok in E
               |rewrite bind_Raise in E; injection E as <-;
                match type of E' with
                | _ ?v = _ => destruct v; simpl in E'; try discriminate E';
                              try (injection E' as <-; reflexivity)
                end;
                match type of E' with
                | (if ?c then _ else _) = _ => destruct c; [discriminate E'|];
                                               injection E' as <-; reflexivity
                end]
           end.
    discriminate E.
Qed.

(** A required field of a stored entry is there in the row. *)
Lemma stored_as_complete (ticker field : string) (d : gmap string value)
    (r : DatabaseManager.row) (v : value) :
  five_fields d -> stored_as d r -> d !! field = Some v -> v <> VNone ->
  dict_get (DatabaseManager.row_dict ticker r) field VNone <> VNone.
Proof.
  intros (p & sh & f & sec & e & ->) (Hp & Hsh & Hf & Hsec & He) Hv Hnot.
  destruct (row_dict_lookups ticker r) as (_ & _ & Lp & Ls & Lf & Lsec & Le).
  change (dict_get _ "price" VNone) with p in Hp.
  change (dict_get _ "shares" VNone) with sh in Hsh.
  change (dict_get _ "fcf" VNone) with f in Hf.
  change (dict_get _ "sector" VNone) with sec in Hsec.
  change (dict_get _ "eps" VNone) with e in He.
  unfold dict_get.
  apply lookup_insert_Some in Hv as [[<- <-]|[_ Hv]].
  { rewrite Lp. simpl. intros H. apply Hnot. exact (proj2 (proj1 (real_column_Ok _ _ Hp)) H). }
  apply lookup_insert_Some in Hv as [[<- <-]|[_ Hv]].
  { rewrite Ls. simpl. intros H. apply Hnot. exact (proj2 (proj1 (real_column_Ok _ _ Hsh)) H). }
  apply lookup_insert_Some in Hv as [[<- <-]|[_ Hv]].
  { rewrite Lf. simpl. intros H. apply Hnot. exact (proj2 (proj1 (real_column_Ok _ _ Hf)) H). }
  apply lookup_insert_Some in Hv as [[<- <-]|[_ Hv]].
  { rewrite Lsec. simpl. intros H. apply Hnot.
    exact (proj2 (proj1 (text_column_Ok _ _ Hsec)) H). }
  apply lookup_singleton_Some in Hv as [<- <-].
  rewrite Le. simpl. intros H. apply Hnot. exact (proj2 (proj1 (real_column_Ok _ _ He)) H).
Qed.


Lemma served_save (self : t) (w : world) (required_fields : list string)
    (ticker : string) (data : gmap string value)
    (result : list (string * gmap string value))
    (table' : gmap string DatabaseManager.row) :
  (0 < cache_duration self)%Z ->
  five_fields data ->
  validate_data data required_fields = true ->
  DatabaseManager.save_stock_data (clock w) ticker data (db w) = Ok table' ->
  served self w required_fields result ->
  served self {| db := table'; clock := clock w; requests := requests w; log := log w |}
    required_fields (od_set ticker data result).
Proof.
  intros Hpos Hfive Hvalid Hsave Hres t0 d0. rewrite od_get_set_cases.
  destruct (save_stock_data_Ok _ _ _ _ _ Hsave) as (r0 & -> & Hst & _ & _ & Hts).
  destruct (String.eqb t0 ticker) eqn:Et.
  - apply String.eqb_eq in Et as ->. intros [= <-].
    exists r0. split; [|right; split; assumption].
    split; [simpl; apply lookup_insert_eq|]. split.
    + apply Forall_forall. intros field Hin.
      unfold validate_data in Hvalid. rewrite forallb_forall in Hvalid.
      specialize (Hvalid field (proj1 (list_elem_of_In _ _) Hin)).
      destruct (data !! field) as [v|] eqn:Hv; [|discriminate Hvalid].
      apply (stored_as_complete ticker field data r0 v Hfive Hst Hv).
      intros ->. discriminate Hvalid.
    + exists (clock w). split; [exact Hts|]. simpl. lia.
  - intros Hd. destruct (Hres t0 d0 Hd) as (r & Hr & Hc). exists r. split; [|exact Hc].
    apply (complete_and_fresh_frame self w); [|reflexivity|exact Hr].
    simpl. apply lookup_insert_ne.
    intros ->. rewrite String.eqb_refl in Et. discriminate Et.
Qed.

Lemma store_loop_outcome (self : t) (required_fields : list string)
    (api_data : list (string * gmap string value)) :
  forall result w r w',
    store_loop required_fields api_data result w = (r, w') ->
    clock w' = clock w
    /\ (stamped (db w) -> stamped (db w'))
    /\ (forall t, od_get t api_data = None -> db w' !! t = db w !! t)
    /\ match r with
       | Ok result' =>
           (forall t, od_get t result' = None ->
              od_get t result = None /\ db w' !! t = db w !! t)
           /\ (forall t, is_Some (od_get t result') ->
                 is_Some (od_get t result) \/ is_Some (od_get t api_data))
           /\ ((0 < cache_duration self)%Z ->
               Forall (fun kv => five_fields (snd kv)) api_data ->
               served self w required_fields result ->
               served self w' required_fields result')
       | Raise e => e = Unmodelled
       end.
Proof.
  induction api_data as [|[ticker data] rest IH]; intros result w r w' H; simpl in H.
  - injection H as <- <-. split; [reflexivity|]. split; [auto|]. split; [auto|].
    split; [auto|]. split; auto.
  - destruct (validate_data data required_fields) eqn:Hvalid; rewrite io_bind_run in H.
    + destruct (db_save_stock_data ticker data w) as [[u|e] w1] eqn:Esave;
        pose proof (db_save_stock_data_outcome _ _ _ _ _ Esave) as Hsave.
      2:{ injection H as <- <-. destruct Hsave as [-> ->].
          split; [reflexivity|]. split; [auto|]. split; [auto | reflexivity]. }
      destruct Hsave as (table' & Hsave & ->).
      destruct (save_stock_data_Ok _ _ _ _ _ Hsave) as (r0 & Htable & _).
      destruct (IH _ _ _ _ H) as (C & Hst & Hother & R).
      split; [exact C|].
      split; [intros H0; apply Hst; simpl;
              exact (stamped_save_stock_data _ _ _ _ _ Hsave H0)|].
      split.
      { intros t0 Ht0. simpl in Ht0. destruct (String.eqb t0 ticker) eqn:Et;
          [discriminate Ht0|].
        rewrite (Hother t0 Ht0). simpl. rewrite Htable. apply lookup_insert_ne.
        intros ->. rewrite String.eqb_refl in Et. discriminate Et. }
      destruct r as [result'|e]; [|exact R].
      destruct R as (Hnone & Hkeys & Hserved). split; [|split].
      * intros t0 Ht0. destruct (Hnone t0 Ht0) as [Hr Hdb].
        rewrite od_get_set_cases in Hr. destruct (String.eqb t0 ticker) eqn:Et;
          [discriminate Hr|].
        split; [exact Hr|]. rewrite Hdb. simpl. rewrite Htable. apply lookup_insert_ne.
        intros ->. rewrite String.eqb_refl in Et. discriminate Et.
      * intros t0 Ht0. simpl. destruct (Hkeys t0 Ht0) as [Hin|Hin].
        -- rewrite od_get_set_cases in Hin. destruct (String.eqb t0 ticker);
             [right; eexists; reflexivity | left; exact Hin].
        -- right. destruct (String.eqb t0 ticker); [eexists; reflexivity | exact Hin].
      * intros Hpos Hfive Hres. apply Forall_cons in Hfive as [Hd Hrest].
        apply (Hserved Hpos Hrest).
        exact (served_save self w required_fields ticker data result table'
                 Hpos Hd Hvalid Hsave Hres).
    + simpl in H. destruct (IH _ _ _ _ H) as (C & Hst & Hother & R).
      split; [exact C|]. split; [exact Hst|].
      split.
      { intros t0 Ht0. simpl in Ht0. destruct (String.eqb t0 ticker);
          [discriminate Ht0 | exact (Hother t0 Ht0)]. }
      destruct r as [result'|e]; [|exact R].
      destruct R as (Hnone & Hkeys & Hserved). split; [exact Hnone|]. split.
      * intros t0 Ht0. simpl. destruct (Hkeys t0 Ht0) as [Hin|Hin]; [left; exact Hin|].
        right. destruct (String.eqb t0 ticker); [eexists; reflexivity | exact Hin].
      * intros Hpos Hfive Hres. apply Forall_cons in Hfive as [_ Hrest].
        apply (Hserved Hpos Hrest). intros t0 d0 Hd0.
        destruct (Hres t0 d0 Hd0) as (r0 & Hr0 & Hc0). exists r0. split; [|exact Hc0].
        apply (complete_and_fresh_frame self w); [reflexivity|reflexivity|exact Hr0].
Qed.

(** *** The three passes of [fetch_data] *)

Lemma fetch_data_cases (self : t) (tickers required_fields : list string)
    (use_cache : bool) (w : world) (out : result (list (string * gmap string value)))
    (w' : world) :
  fetch_data self tickers required_fields use_cache w = (out, w') ->
  (exists e, use_cache = true
             /\ cache_loop self required_fields tickers [] [] w = (Raise e, w)
             /\ out = Raise e /\ w' = w)
  \/ exists result0 to_fetch,
       (if use_cache
        then cache_loop self required_fields tickers [] [] w = (Ok (result0, to_fetch), w)
        else result0 = [] /\ to_fetch = tickers)
       /\ ((to_fetch = [] /\ out = Ok result0 /\ w' = w)
           \/ (to_fetch <> []
               /\ exists e, fetch_from_api self to_fetch w = (Raise e, w') /\ out = Raise e)
           \/ (to_fetch <> []
               /\ exists api_data w1,
                    fetch_from_api self to_fetch w = (Ok api_data, w1)
                    /\ store_loop required_fields api_data result0 w1 = (out, w'))).
Proof.
  intros H.
  assert (Hrest : forall result0 to_fetch,
             (if bool_decide (to_fetch = [])
              then mret result0
              else api_data ← fetch_from_api self to_fetch;
                   store_loop required_fields api_data result0) w = (out, w') ->
             (to_fetch = [] /\ out = Ok result0 /\ w' = w)
             \/ (to_fetch <> []
                 /\ exists e, fetch_from_api self to_fetch w = (Raise e, w') /\ out = Raise e)
             \/ (to_fetch <> []
                 /\ exists api_data w1,
                      fetch_from_api self to_fetch w = (Ok api_data, w1)
                      /\ store_loop required_fields api_data result0 w1 = (out, w'))).
  { intros result0 to_fetch H0. case_bool_decide as Hempty.
    - injection H0 as <- <-. left. auto.
    - right. rewrite io_bind_run in H0.
      destruct (fetch_from_api self to_fetch w) as [[api_data|e] w1].
      + right. split; [exact Hempty|]. exists api_data, w1. auto.
      + injection H0 as <- <-. left. split; [exact Hempty|]. exists e. auto. }
  unfold fetch_data in H. rewrite io_bind_run in H. destruct use_cache.
  - destruct (cache_loop self required_fields tickers [] [] w)
      as [[[result0 to_fetch]|e] w1] eqn:E;
      pose proof (reads_only_cache_loop _ _ _ _ _ _ _ _ E) as ->.
    + right. exists result0, to_fetch. split; [reflexivity | exact (Hrest _ _ H)].
    + injection H as <- <-. left. exists e. auto.
  - right. exists [], tickers. split; [auto | exact (Hrest _ _ H)].
Qed.

Lemma oblivious_fetch_from_api_loop (self : t) (tickers : list string) :
  forall result, oblivious (fetch_from_api_loop self tickers result).
Proof.
  induction tickers as [|t rest IH]; intros result; simpl.
  - apply oblivious_ret.
  - apply oblivious_bind; [apply oblivious_try_fetch | intros r; apply IH].
Qed.

Lemma without_not_elem (s : string) (tickers : list string) : s ∉ without s tickers.
Proof.
  intros H. apply list_elem_of_In, filter_In in H as [_ H].
  rewrite String.eqb_refl in H. discriminate H.
Qed.

(** What a call of [fetch_data] leaves behind: the clock is as before, the
    rows of the tickers that were not requested are as before, the keys of
    the result are requested tickers, the rows of the tickers that are not
    in the result are as before, and a call that raises ahead of the store
    pass has written nothing. *)
Lemma fetch_data_frame (self : t) (tickers required_fields : list string)
    (use_cache : bool) (w : world) (out : result (list (string * gmap string value)))
    (w' : world) :
  fetch_data self tickers required_fields use_cache w = (out, w') ->
  clock w' = clock w
  /\ (forall t, t ∉ tickers -> db w' !! t = db w !! t)
  /\ match out with
     | Ok result =>
         (forall t, is_Some (od_get t result) -> t ∈ tickers)
         /\ (forall t, od_get t result = None -> db w' !! t = db w !! t)
     | Raise e => e <> Unmodelled -> db w' = db w
     end.
Proof.
  intros H.
  destruct (fetch_data_cases _ _ _ _ _ _ _ H)
    as [(e & _ & _ & -> & ->) | (result0 & to_fetch & Hcache & Hrest)]; [auto|].
  assert (Hpass : (forall t, is_Some (od_get t result0) -> t ∈ tickers)
                  /\ (forall t, t ∈ to_fetch -> t ∈ tickers)).
  { destruct use_cache.
    - destruct (cache_loop_outcome _ _ _ _ _ _ _ _ Hcache) as (_ & _ & Hkeys & Hqueue).
      split.
      + intros t0 Ht0. destruct (Hkeys t0 Ht0) as [[x Hx]|Hin]; [discriminate Hx | exact Hin].
      + intros t0 Ht0. destruct (Hqueue t0 Ht0) as [Hin|Hin]; [inversion Hin | exact Hin].
    - destruct Hcache as [-> ->]. split; [intros t0 [x Hx]; discriminate Hx | auto]. }
  destruct Hpass as [Hkeys0 Hqueue0].
  destruct Hrest as [(_ & -> & ->) | [(_ & e & Hapi & ->) | (_ & api_data & w1 & Hapi & Hstore)]].
  - auto.
  - destruct (fetch_from_api_loop_outcome _ _ _ _ _ _ Hapi) as (D & C & _).
    split; [exact C|]. split; [intros t0 _; rewrite D; reflexivity | intros _; exact D].
  - destruct (fetch_from_api_loop_outcome _ _ _ _ _ _ Hapi)
      as (D & C & _ & _ & _ & _ & Horigin).
    destruct (store_loop_outcome self _ _ _ _ _ _ Hstore) as (C' & _ & Hother & R).
    split; [congruence|]. split.
    { intros t0 Ht0. rewrite <- D. apply Hother.
      destruct (od_get t0 api_data) as [d|] eqn:Hd; [|reflexivity].
      exfalso. apply Ht0.
      destruct (Horigin t0) as [[x Hx]|Hin];
        [eexists; exact Hd | discriminate Hx | exact (Hqueue0 t0 Hin)]. }
    destruct out as [result|e].
    + destruct R as (Hnone & Hkeys & _). split.
      * intros t0 Ht0. destruct (Hkeys t0 Ht0) as [Hin|Hin]; [exact (Hkeys0 t0 Hin)|].
        destruct (Horigin t0 Hin) as [[x Hx]|Hin'];
          [discriminate Hx | exact (Hqueue0 t0 Hin')].
      * intros t0 Ht0. destruct (Hnone t0 Ht0) as [_ Hdb]. congruence.
    + intros Hne. contradiction (Hne R).
Qed.

(** X22. [fetch_from_api] accounts for every ticker it is given: when it
    returns, each ticker either has an entry in the result or has left a line
    in the log with an exception the [except] clause lists. The result holds
    entries for requested tickers only, each with the five fields [price],
    [shares], [fcf], [sector], [eps] and no other, and the table has not been
    touched. *)
Theorem every_ticker_returned_or_logged
    (self : t) (tickers : list string) (w : world)
    (result : list (string * gmap string value)) (w' : world) :
  fetch_from_api self tickers w = (Ok result, w') ->
  (forall t, t ∈ tickers ->
     is_Some (od_get t result) \/ exists e, caught e = true /\ LogError t e ∈ log w')
  /\ (forall t d, od_get t result = Some d -> t ∈ tickers /\ five_fields d)
  /\ db w' = db w.
Proof.
  intros H.
  destruct (fetch_from_api_loop_outcome _ _ _ _ _ _ H)
    as (D & _ & _ & _ & Hacc & Hfive & Horigin).
  split; [exact Hacc|]. split; [|exact D].
  intros t0 d Hd. split.
  - destruct (Horigin t0) as [[x Hx]|Hin];
      [eexists; exact Hd | discriminate Hx | exact Hin].
  - specialize (Hfive (List.Forall_nil _)). rewrite Forall_forall in Hfive.
    exact (Hfive _ (od_get_elem _ _ _ Hd)).
Qed.

(** The quote of BAD is an error object: BAD is logged, AAPL returned. *)
Lemma every_ticker_returned_or_logged_witness :
  exists result w',
    fetch_from_api (Fixtures.fetcher_of Fixtures.remote_with_error_object) ["BAD"; "AAPL"]
      Fixtures.empty_world = (Ok result, w')
    /\ (forall t, t ∈ ["BAD"; "AAPL"] ->
          is_Some (od_get t result) \/ exists e, caught e = true /\ LogError t e ∈ log w').
Proof.
  assert (T : match fst (fetch_from_api (Fixtures.fetcher_of Fixtures.remote_with_error_object)
                           ["BAD"; "AAPL"] Fixtures.empty_world) with
              | Ok _ => true
              | Raise _ => false
              end = true) by (vm_compute; reflexivity).
  destruct (fetch_from_api (Fixtures.fetcher_of Fixtures.remote_with_error_object)
              ["BAD"; "AAPL"] Fixtures.empty_world) as [[result|e] w'] eqn:E;
    [|discriminate T].
  exists result, w'. split; [reflexivity|].
  exact (proj1 (every_ticker_returned_or_logged _ _ _ _ _ E)).
Defined.

(** X23. The exceptions that leave [fetch_data]. [fetch_from_api] lets
    nothing through but the [TypeError] of a malformed body, and has written
    nothing when it does. On a table whose rows all carry a time stamp the
    cache pass does not raise, so that a call of [fetch_data] that raises
    has either met such a body, and written nothing, or failed in the store
    pass, in [save_stock_data], on a value that a column does not keep as it
    is ([Unmodelled]: in the code, the [OverflowError] of an [int] beyond 64
    bits). Whatever happens, the rows of the table still all carry a time
    stamp afterwards. *)
Theorem only_type_error_escapes
    (self : t) (tickers required_fields : list string) (use_cache : bool)
    (w : world) (out : result (list (string * gmap string value))) (w' : world) :
  stamped (db w) ->
  fetch_data self tickers required_fields use_cache w = (out, w') ->
  stamped (db w')
  /\ (forall e, out = Raise e -> (e = TypeError /\ db w' = db w) \/ e = Unmodelled)
  /\ (forall to_fetch w0 e w1,
        fetch_from_api self to_fetch w0 = (Raise e, w1) -> e = TypeError /\ db w1 = db w0).
Proof.
  intros Hst H.
  assert (Hapi0 : forall to_fetch w0 e w1,
             fetch_from_api self to_fetch w0 = (Raise e, w1) ->
             e = TypeError /\ db w1 = db w0).
  { intros to_fetch w0 e w1 Hapi.
    destruct (fetch_from_api_loop_outcome _ _ _ _ _ _ Hapi) as (D & _ & _ & He).
    split; [exact He | exact D]. }
  split; [|split; [|exact Hapi0]].
  - destruct (fetch_data_cases _ _ _ _ _ _ _ H)
      as [(e & _ & _ & _ & ->) | (result0 & to_fetch & _ & Hrest)]; [exact Hst|].
    destruct Hrest
      as [(_ & _ & ->) | [(_ & e & Hapi & _) | (_ & api_data & w1 & Hapi & Hstore)]].
    + exact Hst.
    + rewrite (proj2 (Hapi0 _ _ _ _ Hapi)). exact Hst.
    + destruct (fetch_from_api_loop_outcome _ _ _ _ _ _ Hapi) as (D & _).
      destruct (store_loop_outcome self _ _ _ _ _ _ Hstore) as (_ & Hst' & _).
      apply Hst'. rewrite D. exact Hst.
  - intros e ->.
    destruct (fetch_data_cases _ _ _ _ _ _ _ H)
      as [(e' & _ & Hloop & _ & _) | (result0 & to_fetch & _ & Hrest)].
    + destruct (cache_loop_outcome _ _ _ _ _ _ _ _ Hloop) as [_ Hno]. contradiction (Hno Hst).
    + destruct Hrest
        as [(_ & Hout & _) | [(_ & e' & Hapi & [= <-]) | (_ & api_data & w1 & Hapi & Hstore)]].
      * discriminate Hout.
      * left. exact (Hapi0 _ _ _ _ Hapi).
      * right. destruct (store_loop_outcome self _ _ _ _ _ _ Hstore) as (_ & _ & _ & R).
        exact R.
Qed.

(** AAPL is served from the cache; the quote of BAD is the body [[null]]. *)
Lemma only_type_error_escapes_witness :
  exists w',
    fetch_data (Fixtures.fetcher_of Fixtures.remote_with_null_quote) ["AAPL"; "BAD"]
      default_required_fields true (Fixtures.world_at 0) = (Raise TypeError, w')
    /\ stamped (db w') /\ db w' = db (Fixtures.world_at 0).
Proof.
  assert (T : match fst (fetch_data (Fixtures.fetcher_of Fixtures.remote_with_null_quote)
                           ["AAPL"; "BAD"] default_required_fields true
                           (Fixtures.world_at 0)) with
              | Raise TypeError => true
              | _ => false
              end = true) by (vm_compute; reflexivity).
  destruct (fetch_data (Fixtures.fetcher_of Fixtures.remote_with_null_quote)
              ["AAPL"; "BAD"] default_required_fields true (Fixtures.world_at 0))
    as [[result|e] w'] eqn:E; [discriminate T|].
  assert (Hst : stamped (db (Fixtures.world_at 0))).
  { intros t0 r Hr. unfold Fixtures.world_at in Hr. cbn [db] in Hr.
    apply lookup_singleton_Some in Hr as [_ <-]. eexists. reflexivity. }
  destruct (only_type_error_escapes _ _ _ _ _ _ _ Hst E) as (Hst' & He & _).
  destruct (He e eq_refl) as [[-> Hdb] | ->]; [|discriminate T].
  exists w'. split; [reflexivity|]. split; [exact Hst' | exact Hdb].
Defined.

(** X24. With [use_cache=False] the table is not consulted: the outcome is
    the same whatever the table holds and whatever the time is, requests go
    out for the given tickers only, and when the call returns a quote has
    been requested for every one of them, fresh row or not. *)
Theorem table_ignored_without_cache
    (self : t) (tickers required_fields : list string)
    (w : world) (out : result (list (string * gmap string value))) (w' : world) :
  fetch_data self tickers required_fields false w = (out, w') ->
  (forall w2, fst (fetch_data self tickers required_fields false w2) = out)
  /\ exists new,
       requests w' = (requests w ++ new)%list
       /\ Forall (fun rq : endpoint * string => snd rq ∈ tickers) new
       /\ ((exists result, out = Ok result) -> forall t, t ∈ tickers -> (Quote, t) ∈ new).
Proof.
  intros H. split.
  - intros w2.
    assert (Hobl : oblivious (fetch_data self tickers required_fields false)).
    { unfold fetch_data. apply oblivious_bind; [apply oblivious_ret|].
      intros [result0 to_fetch]. case_bool_decide; [apply oblivious_ret|].
      apply oblivious_bind; [apply oblivious_fetch_from_api_loop|].
      intros api_data. apply oblivious_store_loop. }
    rewrite (Hobl w2 w), H. reflexivity.
  - destruct (fetch_data_cases _ _ _ _ _ _ _ H)
      as [(e & Hfalse & _) | (result0 & to_fetch & [-> ->] & Hrest)]; [discriminate Hfalse|].
    destruct Hrest
      as [(-> & -> & ->) | [(_ & e & Hapi & ->) | (_ & api_data & w1 & Hapi & Hstore)]].
    + exists []. rewrite app_nil_r. split; [reflexivity|]. split; [constructor|].
      intros _ t0 Ht0. inversion Ht0.
    + destruct (sends_only_fetch_from_api_loop self tickers [] _ _ _ Hapi) as (new & Hnew & Hall).
      exists new. split; [exact Hnew|]. split; [exact Hall|].
      intros [result Hres]. discriminate Hres.
    + destruct (fetch_from_api_loop_asks self tickers _ _ _ _ Hapi) as (new1 & Hnew1 & Hasks).
      destruct (sends_only_fetch_from_api_loop self tickers [] _ _ _ Hapi)
        as (new1' & Hnew1' & Hall1).
      assert (new1' = new1) as -> by (rewrite Hnew1 in Hnew1'; exact (app_inv_head _ _ _ (eq_sym Hnew1'))).
      destruct (sends_only_store_loop (fun t => t ∈ tickers) _ _ _ _ _ _ Hstore)
        as (new2 & Hnew2 & Hall2).
      exists (new1 ++ new2)%list. split; [rewrite Hnew2, Hnew1, app_assoc; reflexivity|].
      split; [apply Forall_app; split; assumption|].
      intros _ t0 Ht0. apply elem_of_app. left. exact (Hasks t0 Ht0).
Qed.

(** AAPL has a fresh row and is fetched all the same. *)
Lemma table_ignored_without_cache_witness :
  exists out w',
    fetch_data (Fixtures.fetcher_of Fixtures.complete_remote) ["AAPL"]
      default_required_fields false (Fixtures.world_at 0) = (out, w')
    /\ fst (fetch_data (Fixtures.fetcher_of Fixtures.complete_remote) ["AAPL"]
              default_required_fields false Fixtures.empty_world) = out.
Proof.
  destruct (fetch_data (Fixtures.fetcher_of Fixtures.complete_remote) ["AAPL"]
              default_required_fields false (Fixtures.world_at 0)) as [out w'] eqn:E.
  exists out, w'. split; [reflexivity|].
  exact (proj1 (table_ignored_without_cache _ _ _ _ _ _ E) Fixtures.empty_world).
Defined.



(** X26. A ticker whose lookups fail with an exception the [except] clause
    lists, and which the cache does not serve, is skipped and nothing else
    changes: [fetch_data] returns what it returns for the batch without that
    ticker (and raises what it raises for that batch); the ticker is not in
    the result and its row in the table, if any, is as it was. *)
Theorem failed_lookup_skips_only_that_ticker
    (self : t) (w w0 : world) (tickers required_fields : list string)
    (use_cache : bool) (s : string) (e : exn) :
  fst (fetch_ticker self s w0) = Raise e -> caught e = true ->
  (use_cache = true -> cache_lookup self required_fields s w = (Ok None, w)) ->
  fst (fetch_data self tickers required_fields use_cache w)
  = fst (fetch_data self (without s tickers) required_fields use_cache w)
  /\ forall result w',
       fetch_data self tickers required_fields use_cache w = (Ok result, w') ->
       od_get s result = None /\ db w' !! s = db w !! s.
Proof.
  intros Hfail Hcaught Hmiss.
  pose proof (caught_failure_contained self w w0 tickers required_fields use_cache s e
                Hfail Hcaught Hmiss) as Hsame.
  split; [exact Hsame|]. intros result w' H. rewrite H in Hsame. simpl in Hsame.
  destruct (fetch_data self (without s tickers) required_fields use_cache w)
    as [out2 w2] eqn:E2. simpl in Hsame. subst out2.
  destruct (fetch_data_frame _ _ _ _ _ _ _ E2) as (_ & _ & Hkeys & _).
  assert (Hnone : od_get s result = None).
  { destruct (od_get s result) as [d|] eqn:Hd; [|reflexivity].
    exfalso. apply (without_not_elem s tickers). apply Hkeys. eexists. exact Hd. }
  split; [exact Hnone|].
  destruct (fetch_data_frame _ _ _ _ _ _ _ H) as (_ & _ & _ & Hdb). exact (Hdb s Hnone).
Qed.

(** The quote of BAD is an error object. *)
Lemma failed_lookup_skips_only_that_ticker_witness :
  fst (fetch_data (Fixtures.fetcher_of Fixtures.remote_with_error_object) ["BAD"; "AAPL"]
         default_required_fields true Fixtures.empty_world)
  = fst (fetch_data (Fixtures.fetcher_of Fixtures.remote_with_error_object) ["AAPL"]
           default_required_fields true Fixtures.empty_world).
Proof.
  apply (failed_lookup_skips_only_that_ticker
           (Fixtures.fetcher_of Fixtures.remote_with_error_object)
           Fixtures.empty_world Fixtures.empty_world ["BAD"; "AAPL"]
           default_required_fields true "BAD" KeyError).
  - vm_compute. reflexivity.
  - reflexivity.
  - intros _. vm_compute. reflexivity.
Defined.

(** X27. [fetch_data] writes rows for requested tickers only, and when it
    returns for returned tickers only: the row of a ticker that was not
    requested is as before whatever happens, the row of a ticker that is not
    in the result is as before, and the result has entries for requested
    tickers only. A call that raises ahead of the store pass (any exception
    but the failure of [save_stock_data] itself) has written nothing. *)
Theorem table_changes_only_at_returned_tickers
    (self : t) (tickers required_fields : list string) (use_cache : bool)
    (w : world) (out : result (list (string * gmap string value))) (w' : world) :
  fetch_data self tickers required_fields use_cache w = (out, w') ->
  (forall t, t ∉ tickers -> db w' !! t = db w !! t)
  /\ (forall result, out = Ok result ->
        (forall t, is_Some (od_get t result) -> t ∈ tickers)
        /\ (forall t, od_get t result = None -> db w' !! t = db w !! t))
  /\ (forall e, out = Raise e -> e <> Unmodelled -> db w' = db w).
Proof.
  intros H. destruct (fetch_data_frame _ _ _ _ _ _ _ H) as (_ & Hother & Hout).
  split; [exact Hother|]. split.
  - intros result ->. exact Hout.
  - intros e ->. exact Hout.
Qed.

(** [test_incomplete_data]: no free cash flow, so nothing is returned and
    nothing is written. *)
Lemma table_changes_only_at_returned_tickers_witness :
  exists w',
    fetch_data (Fixtures.fetcher_of Fixtures.remote_without_fcf) ["AAPL"]
      default_required_fields true Fixtures.empty_world = (Ok [], w')
    /\ db w' !! "AAPL" = None.
Proof.
  assert (T : match fst (fetch_data (Fixtures.fetcher_of Fixtures.remote_without_fcf)
                           ["AAPL"] default_required_fields true Fixtures.empty_world) with
              | Ok [] => true
              | _ => false
              end = true) by (vm_compute; reflexivity).
  destruct (fetch_data (Fixtures.fetcher_of Fixtures.remote_without_fcf) ["AAPL"]
              default_required_fields true Fixtures.empty_world)
    as [[[|kv result]|e] w'] eqn:E; try discriminate T.
  exists w'. split; [reflexivity|].
  destruct (table_changes_only_at_returned_tickers _ _ _ _ _ _ _ E) as (_ & Hret & _).
  destruct (Hret [] eq_refl) as [_ Hdb]. rewrite (Hdb "AAPL" eq_refl). reflexivity.
Defined.

End FetcherMore.
